(** * gomod-zip: packaging a checked-out module into the module cache

    A verification development for [cmd/gomod-zip/zip.go] of the
    publishing bot.  The Go program is embedded shallowly:

    - pure library routines with a fixed, documented meaning
      ([strings.TrimPrefix], [fmt.Sprintf] with [%s]/[%d],
      [filepath.Join], [errors.New], [fmt.Errorf] with [%w]) are Rocq
      functions;
    - the two parsers the tool imports ([semver.Parse], [modfile.Parse])
      are fields of the class [Libraries], so that every general theorem
      holds for any parser (what is assumed of [semver.Parse] is the
      class [SemverGrammar]); a model of each is given as an instance
      and used wherever a statement is evaluated on concrete arguments;
    - everything that touches the operating system ([os.Open],
      [io.ReadAll], [File.Close], [modzip.CreateFromDir],
      [os.WriteFile]) is an [event]; a Go function is a tree of events
      ([prog]) and [run] executes a tree against an arbitrary system
      handler, recording the calls made and the answers received;
    - [glog.Fatalf] ends the program with its diagnostic. *)

From Stdlib Require Import String Ascii List NArith Bool Lia DecimalString DecimalN DecimalPos.
From Stdlib.Strings Require Import Byte.
From stdpp Require Import base option gmap strings.
Import ListNotations.

Local Open Scope list_scope.
Local Open Scope string_scope.

(** ** Go values *)

(** [[]byte] *)
Abbreviation bytes := (list Byte.byte).

(** The built-in [error] interface, restricted to the two concrete
    kinds the program creates or wraps: [errors.New(s)] and
    [fmt.Errorf("...%w", err)].  Errors returned by the system and by the
    imported libraries are values of the same type. *)
Inductive error : Type :=
| errorString (s : string)
| wrapError (msg : string) (err : error).

(** [err.Error()] *)
Definition Error (e : error) : string :=
  match e with
  | errorString s => s
  | wrapError msg _ => msg
  end.

(** [errors.Unwrap(err)] *)
Definition Unwrap (e : error) : option error :=
  match e with
  | errorString _ => None
  | wrapError _ err => Some err
  end.

Definition errors_New (s : string) : error := errorString s.

(** [fmt.Errorf(prefix + "%w", err)]: the message is the formatted text,
    the operand of [%w] is kept for [Unwrap]. *)
Definition fmt_Errorf_w (prefix : string) (err : error) : error :=
  wrapError (prefix ++ Error err) err.

(** A Go result pair [(T, error)] with the usual convention that exactly
    one side is meaningful. *)
Inductive result (A : Type) : Type :=
| Ok (a : A)
| Err (e : error).
Arguments Ok {A} a.
Arguments Err {A} e.

(** ** [strings] and [fmt] *)

(** [strings.HasPrefix(s, prefix)] *)
Definition strings_HasPrefix (s prefix : string) : bool := String.prefix prefix s.

(** [strings.HasSuffix(s, suffix)] *)
Definition strings_HasSuffix (s suffix : string) : bool :=
  Nat.leb (String.length suffix) (String.length s)
  && String.eqb (String.substring (String.length s - String.length suffix)
                                  (String.length suffix) s) suffix.

(** [strings.TrimPrefix(s, prefix)]: [s[len(prefix):]] when [s] starts
    with [prefix], else [s]. *)
Definition strings_TrimPrefix (s prefix : string) : string :=
  if strings_HasPrefix s prefix
  then String.substring (String.length prefix)
                        (String.length s - String.length prefix) s
  else s.

(** The verb [%d] applied to a [uint64]. *)
Definition fmt_d (n : N) : string := NilZero.string_of_uint (N.to_uint n).

(** ** [path/filepath] on a slash-separated system *)

Definition Separator : ascii := "/"%char.

(** [strings.Split(s, sep)] for a one-byte separator: the pieces between
    occurrences of [sep]; the empty string gives one empty piece. *)
Fixpoint strings_Split (sep : ascii) (s : string) : list string :=
  match s with
  | EmptyString => [EmptyString]
  | String c rest =>
      if Ascii.eqb c sep then EmptyString :: strings_Split sep rest
      else match strings_Split sep rest with
           | e :: es => String c e :: es
           | [] => [String c EmptyString]
           end
  end.

(** The path elements between separators: ["a//b"] gives
    [["a"; ""; "b"]], and a rooted path starts with an empty element. *)
Definition split_elements (path : string) : list string :=
  strings_Split Separator path.

Fixpoint join_elements (es : list string) : string :=
  match es with
  | [] => ""
  | [e] => e
  | e :: es' => e ++ "/" ++ join_elements es'
  end.

(** One round of the loop of [filepath.Clean], taken per path element.
    [out] is the output buffer as a stack of elements (last written
    first) and [dotdot] the number of leading [..] elements in it, below
    which a later [..] may not backtrack. *)
Definition clean_step (rooted : bool) (st : list string * nat) (e : string)
  : list string * nat :=
  let (out, dotdot) := st in
  if String.eqb e "" then st                      (* empty path element *)
  else if String.eqb e "." then st                (* . element *)
  else if String.eqb e ".." then                  (* .. element *)
    if Nat.ltb dotdot (List.length out) then (List.tl out, dotdot)
    else if rooted then st
    else (".." :: out, S (List.length out))
  else (e :: out, dotdot).                        (* real path element *)

(** [filepath.Clean(path)] *)
Definition filepath_Clean (path : string) : string :=
  if String.eqb path "" then "."
  else
    let rooted := strings_HasPrefix path "/" in
    let out := fst (fold_left (clean_step rooted) (split_elements path) ([], 0)) in
    match out, rooted with
    | [], false => "."
    | _, false => join_elements (rev out)
    | _, true => "/" ++ join_elements (rev out)
    end.

(** [filepath.Join(elem...)]: the elements from the first non-empty one
    on are joined with the separator and the result is cleaned; no
    non-empty element gives the empty string. *)
Fixpoint filepath_Join (elem : list string) : string :=
  match elem with
  | [] => ""
  | e :: rest =>
      if String.eqb e "" then filepath_Join rest
      else filepath_Clean (join_elements elem)
  end.

(** [filepath.Base(path)]: the last element of the path once trailing
    separators are removed, that is its last non-empty element; [.] for
    the empty path and the separator for a path of separators only. *)
Definition filepath_Base (path : string) : string :=
  if String.eqb path "" then "."
  else List.last (List.filter (fun e => negb (String.eqb e "")) (split_elements path)) "/".

(** ** Types of the imported libraries *)

(** [semver.PRVersion] and [semver.Version] of github.com/blang/semver/v4;
    the numeric fields are [uint64]. *)
Record semver_PRVersion : Type := {
  VersionStr : string;
  VersionNum : N;
  IsNum : bool
}.

Record semver_Version : Type := {
  Major : N;
  Minor : N;
  Patch : N;
  Pre : list semver_PRVersion;
  Build : list string
}.

(** [module.Version] of golang.org/x/mod/module. *)
Record module_Version : Type := {
  Path : string;
  Version : string
}.

(** [modfile.Module] and [modfile.File] of golang.org/x/mod/modfile.
    [Module] is a pointer in Go and [None] is its [nil].  Of the other
    fields of [File], which the tool never touches, the [go] directive
    and the requirements are kept to show that they pass through. *)
Record modfile_Module : Type := {
  Mod : module_Version;
  Deprecated : string
}.

Record modfile_File : Type := {
  Module : option modfile_Module;
  Go : option string;
  Require : list module_Version
}.

(** The two parsers the tool calls, which it imports. *)
Class Libraries : Type := {
  semver_Parse : string -> result semver_Version;
  modfile_Parse : string -> bytes -> result modfile_File
}.

(** ** Programs over system calls *)

(** [*os.File]: an open file knows the name it was opened with. *)
Record os_File : Type := { Name : string; Fd : N }.

(** [os.FileMode] permission bits. *)
Definition os_FileMode : Type := N.

(** The calls that reach outside the process. *)
Inductive event : Type :=
| os_Open (name : string)
| io_ReadAll (f : os_File)
| File_Close (f : os_File)
| modzip_CreateFromDir (m : module_Version) (dir : string)
| os_WriteFile (name : string) (data : bytes) (perm : os_FileMode).

(** What each call returns.  [modzip.CreateFromDir(w, m, dir)] writes the
    archive into the buffer [w]; the buffer contents are returned with a
    nil error. *)
Definition response (e : event) : Type :=
  match e with
  | os_Open _ => result os_File
  | io_ReadAll _ => result bytes
  | File_Close _ => option error
  | modzip_CreateFromDir _ _ => result bytes
  | os_WriteFile _ _ _ => option error
  end.

(** A Go function body: it returns, makes a call and continues with the
    answer, ends the process through [glog.Fatalf], or panics. *)
Inductive prog (A : Type) : Type :=
| Ret (a : A)
| Vis (e : event) (k : response e -> prog A)
| glog_Fatalf (msg : string)
| Panic (msg : string).
Arguments Ret {A} a.
Arguments Vis {A} e k.
Arguments glog_Fatalf {A} msg.
Arguments Panic {A} msg.

Fixpoint bind {A B : Type} (p : prog A) (f : A -> prog B) : prog B :=
  match p with
  | Ret a => f a
  | Vis e k => Vis e (fun r => bind (k r) f)
  | glog_Fatalf msg => glog_Fatalf msg
  | Panic msg => Panic msg
  end.

Definition call (e : event) : prog (response e) := Vis e Ret.

Declare Scope prog_scope.
Delimit Scope prog_scope with prog.
Bind Scope prog_scope with prog.
Notation "x <- c ;; k" := (bind c (fun x => k))
  (at level 100, c at next level, right associativity) : prog_scope.
Notation "'defer' c 'in' body" := (bind body (fun x => bind c (fun _ => Ret x)))
  (at level 100, c at next level, right associativity) : prog_scope.
Local Open Scope prog_scope.

(** How a process ends. *)
Inductive outcome (A : Type) : Type :=
| Returned (a : A)
| Fatal (msg : string)
| Panicked (msg : string).
Arguments Returned {A} a.
Arguments Fatal {A} msg.
Arguments Panicked {A} msg.

(** One call together with its answer. *)
Inductive entry : Type :=
| Call (e : event) (r : response e).

Record execution (W A : Type) : Type := {
  ending : outcome A;
  final : W;
  trace : list entry
}.
Arguments ending {W A} _.
Arguments final {W A} _.
Arguments trace {W A} _.

(** The system: any state [W] and any way of answering calls in it. *)
Definition handler (W : Type) : Type := forall e : event, W -> response e * W.

Fixpoint run {W A : Type} (sys : handler W) (p : prog A) (w : W) : execution W A :=
  match p with
  | Ret a => {| ending := Returned a; final := w; trace := [] |}
  | Vis e k =>
      let rw := sys e w in
      let x := run sys (k (fst rw)) (snd rw) in
      {| ending := ending x; final := final x; trace := Call e (fst rw) :: trace x |}
  | glog_Fatalf msg => {| ending := Fatal msg; final := w; trace := [] |}
  | Panic msg => {| ending := Panicked msg; final := w; trace := [] |}
  end.

(** The files a trace writes: name, contents and permission of every
    [os.WriteFile] call, in order. *)
Definition written (c : entry) : option (string * bytes * os_FileMode) :=
  match c with
  | Call (os_WriteFile name data perm) _ => Some (name, data, perm)
  | Call _ _ => None
  end.

Definition writes (t : list entry) : list (string * bytes * os_FileMode) :=
  omap written t.

(** ** The program *)

Section Program.
Context `{Libraries}.

(** [os.Getenv]: the process environment, fixed for the run; an unset
    variable reads as the empty string. *)
Variable environ : string -> string.
Definition os_Getenv (key : string) : string := environ key.

(** Line 72: [fmt.Sprintf("%s/src/%s", os.Getenv("GOPATH"), *packageName)] *)
Definition packagePath (packageName : string) : string :=
  os_Getenv "GOPATH" ++ "/src/" ++ packageName.

(** Lines 73-76. *)
Definition cacheDir (packageName : string) (pseudoSemver : semver_Version) : string :=
  let cacheDir := os_Getenv "GOPATH" ++ "/pkg/mod/cache/download/" ++ packageName ++ "/@v" in
  if (2 <=? Major pseudoSemver)%N
  then cacheDir ++ "/v" ++ fmt_d (Major pseudoSemver)
  else cacheDir.

Definition getModuleFile (packagePath version : string) : prog (result modfile_File) :=
  let goModPath := filepath_Join [packagePath; "go.mod"] in
  opened <- call (os_Open goModPath) ;;
  match opened with
  | Err err => Ret (Err (fmt_Errorf_w ("error opening " ++ goModPath ++ ": ") err))
  | Ok file =>
      defer call (File_Close file) in
      read <- call (io_ReadAll file) ;;
      match read with
      | Err err => Ret (Err (fmt_Errorf_w ("error reading " ++ goModPath ++ ": ") err))
      | Ok moduleBytes =>
          match modfile_Parse packagePath moduleBytes with
          | Err err => Ret (Err (fmt_Errorf_w "error parsing module file: " err))
          | Ok moduleFile =>
              match Module moduleFile with
              | None => Ret (Err (errors_New "parsed module should not be nil"))
              | Some module =>
                  Ret (Ok {| Module := Some {| Mod := {| Path := Path (Mod module);
                                                          Version := version |};
                                               Deprecated := Deprecated module |};
                             Go := Go moduleFile;
                             Require := Require moduleFile |})
              end
          end
      end
  end.

(** File permission [0o644]. *)
Definition perm_0o644 : os_FileMode := (6 * 64 + 4 * 8 + 4)%N.

Definition createZipArchive (packagePath : string) (moduleFile : modfile_File)
    (outputDirectory : string) : prog (option error) :=
  match Module moduleFile with
  | None => Panic "runtime error: invalid memory address or nil pointer dereference"
  | Some module =>
      let zipFilePath := filepath_Join [outputDirectory; Version (Mod module) ++ ".zip"] in
      built <- call (modzip_CreateFromDir (Mod module) packagePath) ;;
      match built with
      | Err err => Ret (Some (fmt_Errorf_w "create zip from dir: " err))
      | Ok zipContents =>
          wrote <- call (os_WriteFile zipFilePath zipContents perm_0o644) ;;
          match wrote with
          | Some err => Ret (Some (fmt_Errorf_w "writing zip file: " err))
          | None => Ret None
          end
      end
  end.

(** [main], after [flag.Parse] has stored the two flag values (each the
    empty string when its flag is absent). *)
Definition main (packageName pseudoVersion : string) : prog unit :=
  if String.eqb packageName "" then glog_Fatalf "package-name cannot be empty"
  else if String.eqb pseudoVersion "" then glog_Fatalf "pseudo-version cannot be empty"
  else
    match semver_Parse (strings_TrimPrefix pseudoVersion "v") with
    | Err err => glog_Fatalf ("error parsing pseudo-version: " ++ Error err)
    | Ok pseudoSemver =>
        let packagePath := packagePath packageName in
        let cacheDir := cacheDir packageName pseudoSemver in
        loaded <- getModuleFile packagePath pseudoVersion ;;
        match loaded with
        | Err err => glog_Fatalf ("error getting module file: " ++ Error err)
        | Ok moduleFile =>
            archived <- createZipArchive packagePath moduleFile cacheDir ;;
            match archived with
            | Some err => glog_Fatalf ("error creating zip archive: " ++ Error err)
            | None => Ret tt
            end
        end
    end.

End Program.

(** ** Models of the imported parsers *)

(** *** github.com/blang/semver/v4 *)

Definition numbers : string := "0123456789".
Definition alphas : string := "abcdefghijklmnopqrstuvwxyzABCDEFGHIJKLMNOPQRSTUVWXYZ-".
Definition alphanum : string := alphas ++ numbers.

Fixpoint strings_ContainsRune (set : string) (c : ascii) : bool :=
  match set with
  | EmptyString => false
  | String d rest => Ascii.eqb c d || strings_ContainsRune rest c
  end.

Fixpoint containsOnly (s set : string) : bool :=
  match s with
  | EmptyString => true
  | String c rest => strings_ContainsRune set c && containsOnly rest set
  end.

(** [len(s) > 1 && s[0] == '0'] *)
Definition hasLeadingZeroes (s : string) : bool :=
  match s with
  | String c (String _ _) => Ascii.eqb c "0"%char
  | _ => false
  end.

(** The first occurrence of [c] cuts [s] in two ([strings.IndexRune]
    followed by the two slices around the index). *)
Fixpoint cut (c : ascii) (s : string) : option (string * string) :=
  match s with
  | EmptyString => None
  | String d rest =>
      if Ascii.eqb d c then Some (EmptyString, rest)
      else match cut c rest with
           | Some (before, after) => Some (String d before, after)
           | None => None
           end
  end.

(** [strings.SplitN(s, ".", 3)] *)
Definition strings_SplitN3 (sep : ascii) (s : string) : list string :=
  match cut sep s with
  | None => [s]
  | Some (a, r) =>
      match cut sep r with
      | None => [a; r]
      | Some (b, r') => [a; b; r']
      end
  end.

(** The quoting verb [%q], for text without characters that need an
    escape. *)
Definition fmt_q (s : string) : string :=
  let quote := String (Ascii.ascii_of_nat 34) EmptyString in
  quote ++ s ++ quote.

Definition digit_value (c : ascii) : option N :=
  let n := N_of_ascii c in
  if ((48 <=? n) && (n <=? 57))%N then Some (n - 48)%N else None.

Fixpoint parse_digits (acc : N) (s : string) : option N :=
  match s with
  | EmptyString => Some acc
  | String c rest =>
      match digit_value c with
      | Some d => parse_digits (10 * acc + d)%N rest
      | None => None
      end
  end.

(** [strconv.ParseUint(s, 10, 64)] *)
Definition strconv_ParseUint (s : string) : result N :=
  let failure why := Err (errors_New ("strconv.ParseUint: parsing " ++ fmt_q s ++ ": " ++ why)) in
  if String.eqb s "" then failure "invalid syntax"
  else match parse_digits 0 s with
       | None => failure "invalid syntax"
       | Some n => if (n <? 2 ^ 64)%N then Ok n else failure "value out of range"
       end.

(** The three numeric fields are parsed alike. *)
Definition parse_number (what What : string) (s : string) : result N :=
  if negb (containsOnly s numbers)
  then Err (errors_New ("Invalid character(s) found in " ++ what ++ " number " ++ fmt_q s))
  else if hasLeadingZeroes s
  then Err (errors_New (What ++ " number must not contain leading zeroes " ++ fmt_q s))
  else strconv_ParseUint s.

(** [semver.NewPRVersion] *)
Definition semver_NewPRVersion (s : string) : result semver_PRVersion :=
  if String.eqb s "" then Err (errors_New "Prerelease is empty")
  else if containsOnly s numbers then
    if hasLeadingZeroes s
    then Err (errors_New ("Numeric PreRelease version must not contain leading zeroes " ++ fmt_q s))
    else match strconv_ParseUint s with
         | Err e => Err e
         | Ok num => Ok {| VersionStr := ""; VersionNum := num; IsNum := true |}
         end
  else if containsOnly s alphanum
  then Ok {| VersionStr := s; VersionNum := 0; IsNum := false |}
  else Err (errors_New ("Invalid character(s) found in prerelease " ++ fmt_q s)).

Fixpoint parse_prerelease (l : list string) : result (list semver_PRVersion) :=
  match l with
  | [] => Ok []
  | prstr :: rest =>
      match semver_NewPRVersion prstr with
      | Err e => Err e
      | Ok parsedPR =>
          match parse_prerelease rest with
          | Err e => Err e
          | Ok pre => Ok (parsedPR :: pre)
          end
      end
  end.

Fixpoint parse_build (l : list string) : result (list string) :=
  match l with
  | [] => Ok []
  | str :: rest =>
      if String.eqb str "" then Err (errors_New "Build meta data is empty")
      else if negb (containsOnly str alphanum)
      then Err (errors_New ("Invalid character(s) found in build meta data " ++ fmt_q str))
      else match parse_build rest with
           | Err e => Err e
           | Ok build => Ok (str :: build)
           end
  end.

(** [semver.Parse]: [MAJOR.MINOR.PATCH], then an optional [-] with
    dot-separated prerelease identifiers, then an optional [+] with
    dot-separated build identifiers. *)
Definition blang_Parse (s : string) : result semver_Version :=
  if String.eqb s "" then Err (errors_New "Version string empty")
  else
    match strings_SplitN3 "." s with
    | [major_str; minor_str; rest] =>
        match parse_number "major" "Major" major_str with
        | Err e => Err e
        | Ok major =>
        match parse_number "minor" "Minor" minor_str with
        | Err e => Err e
        | Ok minor =>
            let (rest, build) :=
              match cut "+" rest with
              | Some (before, after) => (before, strings_Split "." after)
              | None => (rest, [])
              end in
            let (patchStr, prerelease) :=
              match cut "-" rest with
              | Some (before, after) => (before, strings_Split "." after)
              | None => (rest, [])
              end in
            match parse_number "patch" "Patch" patchStr with
            | Err e => Err e
            | Ok patch =>
            match parse_prerelease prerelease with
            | Err e => Err e
            | Ok pre =>
            match parse_build build with
            | Err e => Err e
            | Ok build =>
                Ok {| Major := major; Minor := minor; Patch := patch;
                      Pre := pre; Build := build |}
            end end end
        end end
    | _ => Err (errors_New "No Major.Minor.Patch elements found")
    end.

(** *** golang.org/x/mod/modfile, on one-line directives

    A model of [modfile.Parse] for descriptors made of blank lines,
    [//] comment lines and the one-line directives [module], [go] and
    [require]; any other line, a block in parentheses included, is
    taken for a syntax error.  The arguments of the directives are kept
    as written, without the checks the library makes on a [go] version
    or a required version, and a deprecation comment is not read.  A
    descriptor without a [module] line parses, with a nil [Module]. *)

Definition newline : ascii := Ascii.ascii_of_nat 10.

(** The fields of a line up to a [//] comment. *)
Fixpoint fields (tokens : list string) : list string :=
  match tokens with
  | [] => []
  | t :: rest =>
      if String.eqb t "" then fields rest
      else if strings_HasPrefix t "//" then []
      else t :: fields rest
  end.

Definition gomod_directive (file : string) (f : modfile_File) (line : string)
  : result modfile_File :=
  match fields (strings_Split " " line) with
  | [] => Ok f
  | ["module"; path] =>
      match Module f with
      | Some _ => Err (errors_New (file ++ ": repeated module statement"))
      | None => Ok {| Module := Some {| Mod := {| Path := path; Version := "" |};
                                        Deprecated := "" |};
                      Go := Go f; Require := Require f |}
      end
  | ["go"; v] => Ok {| Module := Module f; Go := Some v; Require := Require f |}
  | ["require"; path; v] =>
      Ok {| Module := Module f; Go := Go f;
            Require := (Require f ++ [{| Path := path; Version := v |}])%list |}
  | verb :: _ => Err (errors_New (file ++ ": unknown directive: " ++ verb))
  end.

Fixpoint gomod_lines (file : string) (f : modfile_File) (lines : list string)
  : result modfile_File :=
  match lines with
  | [] => Ok f
  | line :: rest =>
      match gomod_directive file f line with
      | Err e => Err e
      | Ok f' => gomod_lines file f' rest
      end
  end.

Definition gomod_Parse (file : string) (data : bytes) : result modfile_File :=
  gomod_lines file {| Module := None; Go := None; Require := [] |}
              (strings_Split newline (string_of_list_byte data)).

#[export] Instance GoLibraries : Libraries := {|
  semver_Parse := blang_Parse;
  modfile_Parse := gomod_Parse
|}.

(** *** golang.org/x/mod/semver and golang.org/x/mod/module

    The checks [modzip.Create] makes on the module version before it
    looks at a file: the version is canonical, the module path is well
    formed, and the major version agrees with the suffix of the path.
    Versions here are text with a leading [v], and their numbers are
    kept as text. *)

Record modsemver_parsed : Type := {
  major : string;
  minor : string;
  patch : string;
  short : string;
  prerelease : string;
  build : string
}.

(** The digits a text starts with, and the rest of it. *)
Fixpoint leading_digits (v : string) : string * string :=
  match v with
  | String c rest =>
      if strings_ContainsRune numbers c
      then let (t, r) := leading_digits rest in (String c t, r)
      else ("", v)
  | EmptyString => ("", "")
  end.

(** [parseInt]: a number without leading zeroes, and what follows it. *)
Definition modsemver_parseInt (v : string) : option (string * string) :=
  match leading_digits v with
  | (EmptyString, _) => None
  | (t, rest) => if hasLeadingZeroes t then None else Some (t, rest)
  end.

(** The text up to the first [+], and the rest from that [+] on. *)
Fixpoint upto_plus (v : string) : string * string :=
  match v with
  | String c rest =>
      if Ascii.eqb c "+" then ("", v)
      else let (t, r) := upto_plus rest in (String c t, r)
  | EmptyString => ("", "")
  end.

(** [isBadNum]: all digits, more than one, the first a zero. *)
Definition modsemver_isBadNum (v : string) : bool :=
  containsOnly v numbers && hasLeadingZeroes v.

(** [parsePrerelease]: a hyphen and dot-separated identifiers of
    [[0-9A-Za-z-]], none empty, none a number with a leading zero. *)
Definition modsemver_parsePrerelease (v : string) : option (string * string) :=
  match v with
  | String "-" body =>
      let (ids, rest) := upto_plus body in
      if forallb (fun id => negb (String.eqb id "") && containsOnly id alphanum
                            && negb (modsemver_isBadNum id))
                 (strings_Split "." ids)
      then Some (String "-" ids, rest)
      else None
  | _ => None
  end.

(** [parseBuild]: a plus and dot-separated identifiers, none empty, to
    the end of the text. *)
Definition modsemver_parseBuild (v : string) : option (string * string) :=
  match v with
  | String "+" body =>
      if forallb (fun id => negb (String.eqb id "") && containsOnly id alphanum)
                 (strings_Split "." body)
      then Some (v, "")
      else None
  | _ => None
  end.

(** [parse]: [vMAJOR[.MINOR[.PATCH[-PRERELEASE][+BUILD]]]]. *)
Definition modsemver_parse (v : string) : option modsemver_parsed :=
  match v with
  | String "v" v =>
      match modsemver_parseInt v with
      | None => None
      | Some (major, v) =>
      match v with
      | EmptyString =>
          Some {| major := major; minor := "0"; patch := "0"; short := ".0.0";
                  prerelease := ""; build := "" |}
      | String "." v =>
          match modsemver_parseInt v with
          | None => None
          | Some (minor, v) =>
          match v with
          | EmptyString =>
              Some {| major := major; minor := minor; patch := "0"; short := ".0";
                      prerelease := ""; build := "" |}
          | String "." v =>
              match modsemver_parseInt v with
              | None => None
              | Some (patch, v) =>
              match (if strings_HasPrefix v "-" then modsemver_parsePrerelease v
                     else Some ("", v)) with
              | None => None
              | Some (prerelease, v) =>
              match (if strings_HasPrefix v "+" then modsemver_parseBuild v
                     else Some ("", v)) with
              | None => None
              | Some (build, v) =>
                  if String.eqb v ""
                  then Some {| major := major; minor := minor; patch := patch; short := "";
                               prerelease := prerelease; build := build |}
                  else None
              end end end
          | _ => None
          end end
      | _ => None
      end end
  | _ => None
  end.

(** [semver.IsValid], [semver.Major], [semver.Build], [semver.Canonical] *)
Definition modsemver_IsValid (v : string) : bool :=
  match modsemver_parse v with Some _ => true | None => false end.

Definition modsemver_Major (v : string) : string :=
  match modsemver_parse v with
  | None => ""
  | Some pv => String.substring 0 (1 + String.length (major pv)) v
  end.

Definition modsemver_Build (v : string) : string :=
  match modsemver_parse v with
  | None => ""
  | Some pv => build pv
  end.

Definition modsemver_Canonical (v : string) : string :=
  match modsemver_parse v with
  | None => ""
  | Some p =>
      if negb (String.eqb (build p) "")
      then String.substring 0 (String.length v - String.length (build p)) v
      else if negb (String.eqb (short p) "") then v ++ short p
      else v
  end.

(** [module.CanonicalVersion]: [semver.Canonical] that keeps the build
    suffix [+incompatible]. *)
Definition module_CanonicalVersion (v : string) : string :=
  let cv := modsemver_Canonical v in
  if String.eqb (modsemver_Build v) "+incompatible" then cv ++ "+incompatible" else cv.

(** The digits, or the digits and dots, that end a path, read from its
    end, and the rest of the reversed path. *)
Fixpoint trailing (ok : ascii -> bool) (rpath : list ascii) : list ascii * list ascii :=
  match rpath with
  | c :: rest =>
      if ok c then let (t, r) := trailing ok rest in (c :: t, r) else ([], rpath)
  | [] => ([], [])
  end.

Definition is_digit (c : ascii) : bool := strings_ContainsRune numbers c.

(** [splitGopkgIn]: a path of gopkg.in ends in [.vN], or in
    [.vN-unstable]. *)
Definition module_splitGopkgIn (path : string) : string * string * bool :=
  if negb (strings_HasPrefix path "gopkg.in/") then (path, "", false)
  else
    let unstable := strings_HasSuffix path "-unstable" in
    let rpath := rev (list_ascii_of_string path) in
    let (digits, front) :=
      trailing is_digit (if unstable then skipn (String.length "-unstable") rpath
                         else rpath) in
    match front with
    | "v"%char :: "."%char :: prefix =>
        let pathMajor := ".v" ++ string_of_list_ascii (rev digits)
                              ++ (if unstable then "-unstable" else "") in
        if Nat.leb (String.length pathMajor) 2
           || (strings_HasPrefix pathMajor ".v0" && negb (String.eqb pathMajor ".v0"))
        then (path, "", false)
        else (string_of_list_ascii (rev prefix), pathMajor, true)
    | _ => (path, "", false)
    end.

(** [module.SplitPathVersion]: the path without its major-version
    suffix, the suffix ([/vN] with N at least 2, or nothing), and
    whether the suffix is well formed. *)
Definition module_SplitPathVersion (path : string) : string * string * bool :=
  if strings_HasPrefix path "gopkg.in/" then module_splitGopkgIn path
  else
    let (tail, front) :=
      trailing (fun c => is_digit c || Ascii.eqb c ".") (rev (list_ascii_of_string path)) in
    match tail, front with
    | _ :: _, "v"%char :: "/"%char :: prefix =>
        let pathMajor := "/v" ++ string_of_list_ascii (rev tail) in
        if existsb (Ascii.eqb ".") tail
           || Nat.leb (String.length pathMajor) 2
           || strings_HasPrefix pathMajor "/v0"
           || String.eqb pathMajor "/v1"
        then (path, "", false)
        else (string_of_list_ascii (rev prefix), pathMajor, true)
    | _, _ => (path, "", true)
    end.

(** The text of an [InvalidVersionError], of a [ModuleError] that holds
    one, and of an [InvalidPathError]; each unwraps to the error
    inside. *)
Definition InvalidVersionError (version : string) (err : error) : error :=
  wrapError ("version " ++ fmt_q version ++ " invalid: " ++ Error err) err.

Definition ModuleError_version (path version : string) (why : error) : error :=
  wrapError (path ++ "@" ++ version ++ ": invalid version: " ++ Error why)
            (InvalidVersionError version why).

Definition InvalidPathError (path : string) (err : error) : error :=
  wrapError ("malformed module path " ++ fmt_q path ++ ": " ++ Error err) err.

(** [strings.TrimSuffix], [strings.Contains] *)
Definition strings_TrimSuffix (s suffix : string) : string :=
  if strings_HasSuffix s suffix
  then String.substring 0 (String.length s - String.length suffix) s
  else s.

Fixpoint strings_Contains (s substr : string) : bool :=
  strings_HasPrefix s substr
  || match s with
     | String _ rest => strings_Contains rest substr
     | EmptyString => false
     end.

(** [module.CheckPathMajor]: the mismatch, if there is one, between the
    major version of [v] and the suffix of the path. *)
Definition module_CheckPathMajor (v pathMajor : string) : option error :=
  let pathMajor :=
    if strings_HasPrefix pathMajor ".v" && strings_HasSuffix pathMajor "-unstable"
    then strings_TrimSuffix pathMajor "-unstable"
    else pathMajor in
  if strings_HasPrefix v "v0.0.0-" && String.eqb pathMajor ".v1" then None
  else
    let m := modsemver_Major v in
    let should_be (want : string) : option error :=
      Some (errors_New ("should be " ++ want ++ ", not " ++ m)) in
    match pathMajor with
    | EmptyString =>
        if String.eqb m "v0" || String.eqb m "v1"
           || String.eqb (modsemver_Build v) "+incompatible"
        then None
        else should_be "v0 or v1"
    | String c rest =>
        if Ascii.eqb c "/" || Ascii.eqb c "."
        then if String.eqb m rest then None else should_be rest
        else should_be pathMajor
    end.

(** The characters of a module path, and of its first element. *)
Definition modPathOK (c : ascii) : bool :=
  strings_ContainsRune ("-._~" ++ alphanum) c.

Definition firstPathOK (c : ascii) : bool :=
  strings_ContainsRune "-.0123456789abcdefghijklmnopqrstuvwxyz" c.

Definition first_bad (ok : ascii -> bool) (s : string) : option ascii :=
  List.find (fun c => negb (ok c)) (list_ascii_of_string s).

(** The verb [%q] on a printable character. *)
Definition fmt_q_rune (c : ascii) : string := "'" ++ String c "'".

Definition badWindowsNames : list string :=
  ["CON"; "PRN"; "AUX"; "NUL";
   "COM1"; "COM2"; "COM3"; "COM4"; "COM5"; "COM6"; "COM7"; "COM8"; "COM9";
   "LPT1"; "LPT2"; "LPT3"; "LPT4"; "LPT5"; "LPT6"; "LPT7"; "LPT8"; "LPT9"].

Definition to_upper (c : ascii) : ascii :=
  let n := N_of_ascii c in
  if ((97 <=? n) && (n <=? 122))%N then ascii_of_N (n - 32) else c.

Definition strings_ToUpper (s : string) : string :=
  string_of_list_ascii (map to_upper (list_ascii_of_string s)).

(** [checkElem] for an element of a module path. *)
Definition module_checkElem (elem : string) : option error :=
  if String.eqb elem "" then Some (errors_New "empty path element")
  else if containsOnly elem "." then Some (errors_New ("invalid path element " ++ fmt_q elem))
  else if strings_HasPrefix elem "." then Some (errors_New "leading dot in path element")
  else if strings_HasSuffix elem "." then Some (errors_New "trailing dot in path element")
  else
    match first_bad modPathOK elem with
    | Some c => Some (errors_New ("invalid char " ++ fmt_q_rune c))
    | None =>
        let short := match cut "." elem with
                     | Some (before, _) => before
                     | None => elem
                     end in
        if existsb (String.eqb (strings_ToUpper short)) badWindowsNames
        then Some (errors_New (fmt_q short ++
                               " disallowed as path element component on Windows"))
        else
          let (digits, front) := trailing is_digit (rev (list_ascii_of_string short)) in
          match digits, front with
          | _ :: _, "~"%char :: _ =>
              Some (errors_New "trailing tilde and digits in path element")
          | _, _ => None
          end
    end.

Fixpoint first_error {A : Type} (check : A -> option error) (l : list A) : option error :=
  match l with
  | [] => None
  | a :: rest =>
      match check a with
      | Some err => Some err
      | None => first_error check rest
      end
  end.

(** [checkPath] for a module path. *)
Definition module_checkPath (path : string) : option error :=
  if String.eqb path "" then Some (errors_New "empty string")
  else if strings_HasPrefix path "-" then Some (errors_New "leading dash")
  else if strings_Contains path "//" then Some (errors_New "double slash")
  else if strings_HasSuffix path "/" then Some (errors_New "trailing slash")
  else first_error module_checkElem (split_elements path).

(** [module.CheckPath] *)
Definition module_CheckPath (path : string) : option error :=
  let first := List.hd "" (split_elements path) in
  let problem :=
    match module_checkPath path with
    | Some err => Some err
    | None =>
        if String.eqb first "" then Some (errors_New "leading slash")
        else if negb (strings_Contains first ".")
        then Some (errors_New "missing dot in first path element")
        else if strings_HasPrefix path "-"
        then Some (errors_New "leading dash in first path element")
        else
          match first_bad firstPathOK first with
          | Some c =>
              Some (errors_New ("invalid char " ++ fmt_q_rune c ++ " in first path element"))
          | None =>
              if snd (module_SplitPathVersion path) then None
              else Some (errors_New "invalid version")
          end
    end in
  option_map (InvalidPathError path) problem.

(** [module.Check] *)
Definition module_Check (path version : string) : option error :=
  match module_CheckPath path with
  | Some err => Some err
  | None =>
      if negb (modsemver_IsValid version)
      then Some (ModuleError_version path version (errors_New "not a semantic version"))
      else
        let pathMajor := snd (fst (module_SplitPathVersion path)) in
        option_map (ModuleError_version path version)
                   (module_CheckPathMajor version pathMajor)
  end.

(** The checks at the head of [modzip.Create]. *)
Definition modzip_Create_checks (m : module_Version) : option error :=
  let vers := module_CanonicalVersion (Version m) in
  if negb (String.eqb vers (Version m))
  then Some (errors_New ("version " ++ fmt_q (Version m) ++
                         " is not canonical (should be " ++ fmt_q vers ++ ")"))
  else module_Check (Path m) (Version m).

(** ** A model of the file system

    Regular files with permission bits and contents, directories, and a
    bound on the bytes still free on the device. *)

Record inode : Type := { perm : os_FileMode; content : bytes }.

Record FS : Type := {
  files : gmap string inode;
  dirs : gset string;
  free : N
}.

(** [filepath.Dir(path)]: the path up to and including its last
    separator, cleaned. *)
Definition filepath_Dir (path : string) : string :=
  match removelast (split_elements path) with
  | [] => filepath_Clean ""
  | es => filepath_Clean (join_elements es ++ "/")
  end.

Definition PathError (op path why : string) : error :=
  errorString (op ++ " " ++ path ++ ": " ++ why).

(** The files below [dir] in the order of the map, each with its name
    relative to [dir]. *)
Definition tree (fs : FS) (dir : string) : list (string * bytes) :=
  omap (fun '(name, i) =>
          if strings_HasPrefix name (dir ++ "/")
          then Some (strings_TrimPrefix name (dir ++ "/"), content i)
          else None)
       (map_to_list (files fs)).

(** A stand-in for the archive encoding of [modzip]: for each file its
    name under the prefix [<path>@<version>/], a zero byte, its contents
    and a zero byte. *)
Definition archive (m : module_Version) (t : list (string * bytes)) : bytes :=
  flat_map (fun '(rel, data) =>
              list_byte_of_string (Path m ++ "@" ++ Version m ++ "/" ++ rel)
                ++ [x00] ++ data ++ [x00])%list t.

Definition N_length (data : bytes) : N := N.of_nat (List.length data).

(** [os.WriteFile(name, data, perm)]: open with
    [O_WRONLY|O_CREATE|O_TRUNC], write, close.  The file is created with
    [perm] when it does not exist and keeps its mode when it does.  The
    call takes several system calls, and its documentation warns that a
    failure mid-operation can leave the file in a partially written
    state: here a write that does not fit leaves the file holding the
    part that did. *)
Definition write_file (fs : FS) (name : string) (data : bytes) (mode : os_FileMode)
  : option error * FS :=
  if decide (name ∈ dirs fs) then (Some (PathError "open" name "is a directory"), fs)
  else if decide (filepath_Dir name ∈ dirs fs) then
    let old := files fs !! name in
    let mode' := from_option perm mode old in
    let room := (free fs + from_option (fun i => N_length (content i)) 0 old)%N in
    if (N_length data <=? room)%N
    then (None,
          {| files := <[name := {| perm := mode'; content := data |}]> (files fs);
             dirs := dirs fs;
             free := (room - N_length data)%N |})
    else (Some (PathError "write" name "no space left on device"),
          {| files := <[name := {| perm := mode';
                                   content := firstn (N.to_nat room) data |}]> (files fs);
             dirs := dirs fs;
             free := 0 |})
  else (Some (PathError "open" name "no such file or directory"), fs).

(** The text of a [zipError], which unwraps to the error inside. *)
Definition zipError (verb path : string) (err : error) : error :=
  wrapError (verb ++ (if String.eqb path "" then "" else " " ++ path) ++ ": " ++ Error err)
            err.

(** [modzip.CreateFromDir(w, m, dir)]: the files under [dir] are listed,
    which fails when [dir] does not exist; then [modzip.Create] checks
    the module version and path before it archives the files.  Both
    report through a [zipError] that names the directory.  The listing
    and the encoding are stand-ins: every file under [dir] is taken,
    and [archive] is not the zip format. *)
Definition create_from_dir (fs : FS) (m : module_Version) (dir : string) : result bytes :=
  if decide (dir ∈ dirs fs) then
    match modzip_Create_checks m with
    | Some err => Err (zipError "create zip" dir err)
    | None => Ok (archive m (tree fs dir))
    end
  else Err (zipError "create zip from directory" dir
              (PathError "lstat" dir "no such file or directory")).

Definition posix : handler FS :=
  fun e =>
    match e return FS -> response e * FS with
    | os_Open name => fun fs =>
        if decide (name ∈ dirs fs) then (Ok {| Name := name; Fd := 3 |}, fs)
        else match files fs !! name with
             | Some _ => (Ok {| Name := name; Fd := 3 |}, fs)
             | None => (Err (PathError "open" name "no such file or directory"), fs)
             end
    | io_ReadAll f => fun fs =>
        if decide (Name f ∈ dirs fs) then (Err (PathError "read" (Name f) "is a directory"), fs)
        else match files fs !! Name f with
             | Some i => (Ok (content i), fs)
             | None => (Err (PathError "read" (Name f) "file already closed"), fs)
             end
    | File_Close f => fun fs => (None, fs)
    | modzip_CreateFromDir m dir => fun fs => (create_from_dir fs m dir, fs)
    | os_WriteFile name data mode => fun fs => write_file fs name data mode
    end.

(** A workspace at [/go] with the module [example.com/foo] checked out
    and its download directory in place. *)
Definition gopath (key : string) : string :=
  if String.eqb key "GOPATH" then "/go" else "".

Definition go_mod : bytes :=
  list_byte_of_string
    ("module example.com/foo" ++ String newline (String newline
     ("go 1.21" ++ String newline ""))).

Definition workspace : FS := {|
  files := {[ "/go/src/example.com/foo/go.mod" := {| perm := perm_0o644; content := go_mod |};
              "/go/src/example.com/foo/foo.go" :=
                {| perm := perm_0o644; content := list_byte_of_string "package foo" |} ]};
  dirs := {[ "/go/src/example.com/foo";
             "/go/pkg/mod/cache/download/example.com/foo/@v";
             "/go/pkg/mod/cache/download/example.com/foo/@v/v2" ]};
  free := 4096
|}.

(** The same workspace with the checkout at major version 2: the
    descriptor declares [example.com/foo/v2]. *)
Definition go_mod_v2 : bytes :=
  list_byte_of_string
    ("module example.com/foo/v2" ++ String newline (String newline
     ("go 1.21" ++ String newline ""))).

Definition workspace_v2 : FS := {|
  files := {[ "/go/src/example.com/foo/go.mod" :=
                {| perm := perm_0o644; content := go_mod_v2 |};
              "/go/src/example.com/foo/foo.go" :=
                {| perm := perm_0o644; content := list_byte_of_string "package foo" |} ]};
  dirs := dirs workspace;
  free := 4096
|}.

(** The checkout is missing. *)
Definition no_checkout : FS := {|
  files := ∅;
  dirs := {[ "/go/pkg/mod/cache/download/example.com/foo/@v" ]};
  free := 4096
|}.

(** The descriptor is empty: it parses and declares no module. *)
Definition empty_descriptor : FS := {|
  files := {[ "/go/src/example.com/foo/go.mod" := {| perm := perm_0o644; content := [] |} ]};
  dirs := dirs workspace;
  free := 4096
|}.

(** The descriptor is a directory: it opens, and reading it fails. *)
Definition descriptor_is_directory : FS := {|
  files := ∅;
  dirs := dirs workspace ∪ {[ "/go/src/example.com/foo/go.mod" ]};
  free := 4096
|}.

(** The descriptor holds a line that is no directive. *)
Definition broken_descriptor : FS := {|
  files := {[ "/go/src/example.com/foo/go.mod" :=
                {| perm := perm_0o644; content := list_byte_of_string "modul example.com/foo" |} ]};
  dirs := dirs workspace;
  free := 4096
|}.

(** Ten bytes are left on the device. *)
Definition full_disk : FS := {|
  files := files workspace;
  dirs := dirs workspace;
  free := 10
|}.

Definition foo_go_mod : os_File :=
  {| Name := "/go/src/example.com/foo/go.mod"; Fd := 3 |}.

Definition foo_module : modfile_Module :=
  {| Mod := {| Path := "example.com/foo"; Version := "" |}; Deprecated := "" |}.

Definition foo_descriptor : modfile_File :=
  {| Module := Some foo_module; Go := Some "1.21"; Require := [] |}.

(** The archive the model builds from the checkout in [workspace]. *)
Definition foo_archive (version : string) : bytes :=
  archive {| Path := "example.com/foo"; Version := version |}
          (tree workspace "/go/src/example.com/foo").

Definition foo_v2_module : modfile_Module :=
  {| Mod := {| Path := "example.com/foo/v2"; Version := "" |}; Deprecated := "" |}.

Definition foo_v2_descriptor : modfile_File :=
  {| Module := Some foo_v2_module; Go := Some "1.21"; Require := [] |}.

(** The archive the model builds from the checkout in [workspace_v2]. *)
Definition foo_v2_archive (version : string) : bytes :=
  archive {| Path := "example.com/foo/v2"; Version := version |}
          (tree workspace_v2 "/go/src/example.com/foo").

Definition v1_0_0 : semver_Version :=
  {| Major := 1; Minor := 0; Patch := 0; Pre := []; Build := [] |}.

Definition v2_3_1 : semver_Version :=
  {| Major := 2; Minor := 3; Patch := 1; Pre := []; Build := [] |}.

(** * Vocabulary of the statements *)

(** [part] occurs in [msg]. *)
Definition mentions (msg part : string) : Prop :=
  exists before after, msg = before ++ part ++ after.

(** A path element that [filepath.Clean] keeps as it is. *)
Definition real_element (e : string) : Prop :=
  strings_ContainsRune e Separator = false /\ e <> "" /\ e <> "." /\ e <> "..".

(** [FileMode.String()] of permission bits: a dash for the file type,
    then [rwxrwxrwx] with a dash for every clear bit. *)
Definition FileMode_String (m : os_FileMode) : string :=
  String "-"
    (string_of_list_ascii
       (map (fun '(i, c) => if N.testbit m i then c else "-"%char)
            (combine [8; 7; 6; 5; 4; 3; 2; 1; 0]%N (list_ascii_of_string "rwxrwxrwx")))).

(** What the development assumes of [semver.Parse]: it starts with
    [if len(s) == 0 { return Version{}, errors.New("Version string empty") }],
    and the versions it accepts are made of digits, letters, [-], [.]
    and [+], so hold no path separator. *)
Class SemverGrammar `{Libraries} : Prop := {
  semver_Parse_empty : exists e, semver_Parse "" = Err e;
  semver_Parse_no_separator :
    forall s v, semver_Parse s = Ok v -> strings_ContainsRune s Separator = false
}.

(** Line 89: the descriptor is looked for under the source directory. *)
Definition goModPath (packagePath : string) : string :=
  filepath_Join [packagePath; "go.mod"].

(** Line 110: the declared version is overwritten, nothing else. *)
Definition stamped (moduleFile : modfile_File) (module : modfile_Module) (version : string)
  : modfile_File :=
  {| Module := Some {| Mod := {| Path := Path (Mod module); Version := version |};
                       Deprecated := Deprecated module |};
     Go := Go moduleFile;
     Require := Require moduleFile |}.

(** The version a descriptor declares, if it declares a module. *)
Definition declared_version (f : modfile_File) : option string :=
  option_map (fun module => Version (Mod module)) (Module f).

(** Line 115. *)
Definition zipFilePath (outputDirectory : string) (module : modfile_Module) : string :=
  filepath_Join [outputDirectory; Version (Mod module) ++ ".zip"].

(** The descriptor cannot be had: opening it fails, or it opens and
    reading it fails, with the system error [err]. *)
Definition unreadable {W : Type} (sys : handler W) (path : string) (w : W) (err : error)
  : Prop :=
  (exists w1, sys (os_Open path) w = (Err err, w1)) \/
  (exists file w1 w2,
     sys (os_Open path) w = (Ok file, w1) /\ sys (io_ReadAll file) w1 = (Err err, w2)).

(** What a run learns about the source tree: whether the descriptor
    opened, what was read from it, and what the archive builder made of
    the directory it was given. *)
Inductive observation : Type :=
| opened (name : string) (failure : option error)
| was_read (r : result bytes)
| built (m : module_Version) (dir : string) (r : result bytes).

Definition observe (c : entry) : option observation :=
  match c with
  | Call (os_Open name) r =>
      Some (opened name (match r with Ok _ => None | Err e => Some e end))
  | Call (io_ReadAll _) r => Some (was_read r)
  | Call (modzip_CreateFromDir m dir) r => Some (built m dir r)
  | Call _ _ => None
  end.

Definition observations (t : list entry) : list observation := omap observe t.

(** The writes that follow from the flags, the environment and the
    observations. *)
Definition plan `{Libraries} (environ : string -> string)
    (packageName pseudoVersion : string) (obs : list observation)
  : list (string * bytes * os_FileMode) :=
  match semver_Parse (strings_TrimPrefix pseudoVersion "v"), obs with
  | Ok pseudoSemver, [opened _ None; was_read (Ok _); built m _ (Ok zipContents)] =>
      [(filepath_Join [cacheDir environ packageName pseudoSemver; Version m ++ ".zip"],
        zipContents, perm_0o644)]
  | _, _ => []
  end.

(** ** Executions, stage by stage *)

Section Stages.
Context `{Libraries} {W : Type} (sys : handler W).

(** What follows an execution when the program goes on with [f]. *)
Definition and_then {A B : Type} (x : execution W A) (f : A -> prog B) : execution W B :=
  match ending x with
  | Returned a =>
      let y := run sys (f a) (final x) in
      {| ending := ending y; final := final y; trace := (trace x ++ trace y)%list |}
  | Fatal msg => {| ending := Fatal msg; final := final x; trace := trace x |}
  | Panicked msg => {| ending := Panicked msg; final := final x; trace := trace x |}
  end.

(** Once the descriptor has been read, what [getModuleFile] returns is
    decided by the parser alone (lines 101-111). *)
Definition descriptor (packagePath version : string) (data : bytes) : result modfile_File :=
  match modfile_Parse packagePath data with
  | Err err => Err (fmt_Errorf_w "error parsing module file: " err)
  | Ok moduleFile =>
      match Module moduleFile with
      | None => Err (errors_New "parsed module should not be nil")
      | Some module => Ok (stamped moduleFile module version)
      end
  end.

(** The three courses of [getModuleFile] from the state [w]. *)
Inductive loaded (packagePath version : string) (w : W)
  : execution W (result modfile_File) -> Prop :=
| loaded_open_error err w1 :
    sys (os_Open (goModPath packagePath)) w = (Err err, w1) ->
    loaded packagePath version w
      {| ending := Returned (Err (fmt_Errorf_w
                     ("error opening " ++ goModPath packagePath ++ ": ") err));
         final := w1;
         trace := [Call (os_Open (goModPath packagePath)) (Err err)] |}
| loaded_read_error file w1 err w2 closed w3 :
    sys (os_Open (goModPath packagePath)) w = (Ok file, w1) ->
    sys (io_ReadAll file) w1 = (Err err, w2) ->
    sys (File_Close file) w2 = (closed, w3) ->
    loaded packagePath version w
      {| ending := Returned (Err (fmt_Errorf_w
                     ("error reading " ++ goModPath packagePath ++ ": ") err));
         final := w3;
         trace := [Call (os_Open (goModPath packagePath)) (Ok file);
                   Call (io_ReadAll file) (Err err);
                   Call (File_Close file) closed] |}
| loaded_read file w1 data w2 closed w3 :
    sys (os_Open (goModPath packagePath)) w = (Ok file, w1) ->
    sys (io_ReadAll file) w1 = (Ok data, w2) ->
    sys (File_Close file) w2 = (closed, w3) ->
    loaded packagePath version w
      {| ending := Returned (descriptor packagePath version data);
         final := w3;
         trace := [Call (os_Open (goModPath packagePath)) (Ok file);
                   Call (io_ReadAll file) (Ok data);
                   Call (File_Close file) closed] |}.

(** The three courses of [createZipArchive] from the state [w], for a
    descriptor that declares [module]. *)
Inductive archived (packagePath outputDirectory : string) (w : W) (module : modfile_Module)
  : execution W (option error) -> Prop :=
| archived_build_error err w1 :
    sys (modzip_CreateFromDir (Mod module) packagePath) w = (Err err, w1) ->
    archived packagePath outputDirectory w module
      {| ending := Returned (Some (fmt_Errorf_w "create zip from dir: " err));
         final := w1;
         trace := [Call (modzip_CreateFromDir (Mod module) packagePath) (Err err)] |}
| archived_write_error zipContents w1 err w2 :
    sys (modzip_CreateFromDir (Mod module) packagePath) w = (Ok zipContents, w1) ->
    sys (os_WriteFile (zipFilePath outputDirectory module) zipContents perm_0o644) w1
      = (Some err, w2) ->
    archived packagePath outputDirectory w module
      {| ending := Returned (Some (fmt_Errorf_w "writing zip file: " err));
         final := w2;
         trace := [Call (modzip_CreateFromDir (Mod module) packagePath) (Ok zipContents);
                   Call (os_WriteFile (zipFilePath outputDirectory module) zipContents
                           perm_0o644) (Some err)] |}
| archived_written zipContents w1 w2 :
    sys (modzip_CreateFromDir (Mod module) packagePath) w = (Ok zipContents, w1) ->
    sys (os_WriteFile (zipFilePath outputDirectory module) zipContents perm_0o644) w1
      = (None, w2) ->
    archived packagePath outputDirectory w module
      {| ending := Returned None;
         final := w2;
         trace := [Call (modzip_CreateFromDir (Mod module) packagePath) (Ok zipContents);
                   Call (os_WriteFile (zipFilePath outputDirectory module) zipContents
                           perm_0o644) None] |}.

Variable environ : string -> string.
Variables (packageName pseudoVersion : string) (w : W).

(** The executions of the two stages of [main]: [getModuleFile] from the
    initial state, and [createZipArchive] from the state it leaves. *)
Definition loading : execution W (result modfile_File) :=
  run sys (getModuleFile (packagePath environ packageName) pseudoVersion) w.

Definition archiving (moduleFile : modfile_File) (pseudoSemver : semver_Version)
  : execution W (option error) :=
  run sys (createZipArchive (packagePath environ packageName) moduleFile
             (cacheDir environ packageName pseudoSemver)) (final loading).

(** The six courses of [main]. *)
Inductive ran : execution W unit -> Prop :=
| ran_no_package :
    packageName = "" ->
    ran {| ending := Fatal "package-name cannot be empty"; final := w; trace := [] |}
| ran_no_version :
    packageName <> "" -> pseudoVersion = "" ->
    ran {| ending := Fatal "pseudo-version cannot be empty"; final := w; trace := [] |}
| ran_bad_version err :
    packageName <> "" -> pseudoVersion <> "" ->
    semver_Parse (strings_TrimPrefix pseudoVersion "v") = Err err ->
    ran {| ending := Fatal ("error parsing pseudo-version: " ++ Error err);
           final := w; trace := [] |}
| ran_no_descriptor pseudoSemver err :
    packageName <> "" -> pseudoVersion <> "" ->
    semver_Parse (strings_TrimPrefix pseudoVersion "v") = Ok pseudoSemver ->
    ending loading = Returned (Err err) ->
    ran {| ending := Fatal ("error getting module file: " ++ Error err);
           final := final loading; trace := trace loading |}
| ran_no_archive pseudoSemver moduleFile err :
    packageName <> "" -> pseudoVersion <> "" ->
    semver_Parse (strings_TrimPrefix pseudoVersion "v") = Ok pseudoSemver ->
    ending loading = Returned (Ok moduleFile) ->
    ending (archiving moduleFile pseudoSemver) = Returned (Some err) ->
    ran {| ending := Fatal ("error creating zip archive: " ++ Error err);
           final := final (archiving moduleFile pseudoSemver);
           trace := (trace loading ++ trace (archiving moduleFile pseudoSemver))%list |}
| ran_archived pseudoSemver moduleFile :
    packageName <> "" -> pseudoVersion <> "" ->
    semver_Parse (strings_TrimPrefix pseudoVersion "v") = Ok pseudoSemver ->
    ending loading = Returned (Ok moduleFile) ->
    ending (archiving moduleFile pseudoSemver) = Returned None ->
    ran {| ending := Returned tt;
           final := final (archiving moduleFile pseudoSemver);
           trace := (trace loading ++ trace (archiving moduleFile pseudoSemver))%list |}.

End Stages.

(** ** Failure paths *)

(** The ways a run fails, in the order in which [main] comes to them,
    each with the error of the step that failed. *)
Inductive failure_path : Type :=
| empty_package_name
| empty_pseudo_version
| version_parse_failure (err : error)
| descriptor_open_failure (err : error)
| descriptor_read_failure (err : error)
| descriptor_parse_failure (err : error)
| missing_module_declaration
| archive_builder_failure (err : error)
| output_write_failure (err : error).

(** The text given to [glog.Fatalf] on each of them: lines 60, 64 and
    69, line 80 over lines 92, 98, 103 and 107, and line 84 over lines
    119 and 122. *)
Definition diagnostic_of (goModPath : string) (cause : failure_path) : string :=
  match cause with
  | empty_package_name => "package-name cannot be empty"
  | empty_pseudo_version => "pseudo-version cannot be empty"
  | version_parse_failure err => "error parsing pseudo-version: " ++ Error err
  | descriptor_open_failure err =>
      "error getting module file: error opening " ++ goModPath ++ ": " ++ Error err
  | descriptor_read_failure err =>
      "error getting module file: error reading " ++ goModPath ++ ": " ++ Error err
  | descriptor_parse_failure err =>
      "error getting module file: error parsing module file: " ++ Error err
  | missing_module_declaration =>
      "error getting module file: parsed module should not be nil"
  | archive_builder_failure err =>
      "error creating zip archive: create zip from dir: " ++ Error err
  | output_write_failure err =>
      "error creating zip archive: writing zip file: " ++ Error err
  end.

Section Failures.
Context `{Libraries} {W : Type} (sys : handler W).
Variable environ : string -> string.
Variables (packageName pseudoVersion : string) (w : W).

(** Both flags are given and the version parses. *)
Definition accepted (pseudoSemver : semver_Version) : Prop :=
  packageName <> "" /\ pseudoVersion <> "" /\
  semver_Parse (strings_TrimPrefix pseudoVersion "v") = Ok pseudoSemver.

(** The descriptor is opened, read to the end and closed, which leaves
    the system in the state [w3]. *)
Definition descriptor_read (data : bytes) (w3 : W) : Prop :=
  exists file w1 w2 closed,
    sys (os_Open (goModPath (packagePath environ packageName))) w = (Ok file, w1) /\
    sys (io_ReadAll file) w1 = (Ok data, w2) /\
    sys (File_Close file) w2 = (closed, w3).

(** The bytes read parse to a descriptor that declares [module]. *)
Definition declares (data : bytes) (module : modfile_Module) : Prop :=
  exists moduleFile,
    modfile_Parse (packagePath environ packageName) data = Ok moduleFile /\
    Module moduleFile = Some module.

(** What the archive builder is asked for: the declared path at the
    version given on the command line, from the source directory. *)
Definition build_request (module : modfile_Module) : event :=
  modzip_CreateFromDir {| Path := Path (Mod module); Version := pseudoVersion |}
                       (packagePath environ packageName).

(** A run from the state [w] is on a failure path when the steps before
    it went through and its own step fails. *)
Inductive failing : failure_path -> Prop :=
| failing_package :
    packageName = "" ->
    failing empty_package_name
| failing_version :
    packageName <> "" -> pseudoVersion = "" ->
    failing empty_pseudo_version
| failing_semver err :
    packageName <> "" -> pseudoVersion <> "" ->
    semver_Parse (strings_TrimPrefix pseudoVersion "v") = Err err ->
    failing (version_parse_failure err)
| failing_open pseudoSemver err w1 :
    accepted pseudoSemver ->
    sys (os_Open (goModPath (packagePath environ packageName))) w = (Err err, w1) ->
    failing (descriptor_open_failure err)
| failing_read pseudoSemver file w1 err w2 :
    accepted pseudoSemver ->
    sys (os_Open (goModPath (packagePath environ packageName))) w = (Ok file, w1) ->
    sys (io_ReadAll file) w1 = (Err err, w2) ->
    failing (descriptor_read_failure err)
| failing_parse pseudoSemver data w3 err :
    accepted pseudoSemver ->
    descriptor_read data w3 ->
    modfile_Parse (packagePath environ packageName) data = Err err ->
    failing (descriptor_parse_failure err)
| failing_module pseudoSemver data w3 moduleFile :
    accepted pseudoSemver ->
    descriptor_read data w3 ->
    modfile_Parse (packagePath environ packageName) data = Ok moduleFile ->
    Module moduleFile = None ->
    failing missing_module_declaration
| failing_build pseudoSemver data w3 module err w4 :
    accepted pseudoSemver ->
    descriptor_read data w3 ->
    declares data module ->
    sys (build_request module) w3 = (Err err, w4) ->
    failing (archive_builder_failure err)
| failing_write pseudoSemver data w3 module zipContents w4 err w5 :
    accepted pseudoSemver ->
    descriptor_read data w3 ->
    declares data module ->
    sys (build_request module) w3 = (Ok zipContents, w4) ->
    sys (os_WriteFile (filepath_Join [cacheDir environ packageName pseudoSemver;
                                      pseudoVersion ++ ".zip"])
                      zipContents perm_0o644) w4 = (Some err, w5) ->
    failing (output_write_failure err).

End Failures.

(** ** Files that can be looked at *)

(** A system whose files can be inspected: [stored w name] is what the
    regular file [name] holds in the state [w], and an [os.WriteFile]
    that returns nil has left the file holding the bytes it was given. *)
Class Storage {W : Type} (sys : handler W) : Type := {
  stored : W -> string -> option bytes;
  WriteFile_stores :
    forall (name : string) (data : bytes) (mode : os_FileMode) (w w' : W),
      sys (os_WriteFile name data mode) w = (None, w') -> stored w' name = Some data
}.

(** Two states of the model of the file system with the same source
    tree: the descriptor is the same file, or missing, or a directory,
    in both, and the source directory exists in both or in neither and
    has the same files below it. *)
Definition same_source_tree (src : string) (fs1 fs2 : FS) : Prop :=
  files fs1 !! goModPath src = files fs2 !! goModPath src /\
  (goModPath src ∈ dirs fs1 <-> goModPath src ∈ dirs fs2) /\
  (src ∈ dirs fs1 <-> src ∈ dirs fs2) /\
  tree fs1 src = tree fs2 src.

(** ** Vocabulary of the further statements *)

(** The five kinds of call, in the order in which the source makes
    them. *)
Inductive call_kind : Type := opening | reading | closing | building | writing.

Definition event_of (c : entry) : event :=
  match c with
  | Call e _ => e
  end.

Definition kind_of (e : event) : call_kind :=
  match e with
  | os_Open _ => opening
  | io_ReadAll _ => reading
  | File_Close _ => closing
  | modzip_CreateFromDir _ _ => building
  | os_WriteFile _ _ _ => writing
  end.

Definition pipeline : list call_kind := [opening; reading; closing; building; writing].

(** The files a trace has opened, and the files it has closed. *)
Definition opened_file (c : entry) : option os_File :=
  match c with
  | Call (os_Open _) r => match r with Ok f => Some f | Err _ => None end
  | Call _ _ => None
  end.

Definition closed_file (c : entry) : option os_File :=
  match c with
  | Call (File_Close f) _ => Some f
  | Call _ _ => None
  end.

Definition opens (t : list entry) : list os_File := omap opened_file t.
Definition closes (t : list entry) : list os_File := omap closed_file t.

(** The calls of a trace that returned an error, each with its kind. *)
Definition failure_of (c : entry) : option (call_kind * error) :=
  match c with
  | Call (os_Open _) r => match r with Ok _ => None | Err e => Some (opening, e) end
  | Call (io_ReadAll _) r => match r with Ok _ => None | Err e => Some (reading, e) end
  | Call (File_Close _) r => option_map (pair closing) r
  | Call (modzip_CreateFromDir _ _) r =>
      match r with Ok _ => None | Err e => Some (building, e) end
  | Call (os_WriteFile _ _ _) r => option_map (pair writing) r
  end.

Definition failures (t : list entry) : list (call_kind * error) := omap failure_of t.

(** The paths [main] computes from its flags and the environment are the
    only ones a call may name (lines 72-78, 89 and 115). *)
Definition confined `{Libraries} (environ : string -> string)
    (packageName pseudoVersion : string) (opened_files : list os_File) (e : event) : Prop :=
  match e with
  | os_Open name => name = filepath_Join [packagePath environ packageName; "go.mod"]
  | io_ReadAll f => In f opened_files
  | File_Close f => In f opened_files
  | modzip_CreateFromDir m dir =>
      dir = packagePath environ packageName /\ Version m = pseudoVersion
  | os_WriteFile name _ mode =>
      mode = perm_0o644 /\
      exists pseudoSemver,
        semver_Parse (strings_TrimPrefix pseudoVersion "v") = Ok pseudoSemver /\
        name = filepath_Join [cacheDir environ packageName pseudoSemver;
                              pseudoVersion ++ ".zip"]
  end.

(** No variable is set. *)
Definition no_environment (key : string) : string := "".

(** The model of the file system with a [file.Close()] that fails. *)
Definition close_fails : handler FS :=
  fun e =>
    match e return FS -> response e * FS with
    | File_Close f => fun fs => (Some (PathError "close" (Name f) "input/output error"), fs)
    | e' => posix e'
    end.

(** * Properties *)

(** ** Strings *)

Lemma append_cons (c : ascii) (a b : string) : String c a ++ b = String c (a ++ b).
Proof. reflexivity. Qed.

Lemma append_nil_l (a : string) : "" ++ a = a.
Proof. reflexivity. Qed.

Lemma append_nil_r (a : string) : a ++ "" = a.
Proof. induction a as [|x a IH]; [reflexivity | now rewrite append_cons, IH]. Qed.

Lemma append_assoc (a b c : string) : (a ++ b) ++ c = a ++ b ++ c.
Proof. induction a as [|x a IH]; [reflexivity | now rewrite !append_cons, IH]. Qed.

Lemma append_nonempty (a : string) (c : ascii) (b : string) : a ++ String c b <> "".
Proof. destruct a; discriminate. Qed.

Lemma length_append (a b : string) :
  String.length (a ++ b) = String.length a + String.length b.
Proof.
  induction a as [|x a IH]; [reflexivity |].
  rewrite append_cons. simpl. now rewrite IH.
Qed.

Lemma substring_all (s : string) : String.substring 0 (String.length s) s = s.
Proof. induction s as [|c s IH]; simpl; [reflexivity | now rewrite IH]. Qed.

Lemma substring_skip (a b : string) :
  String.substring (String.length a) (String.length b) (a ++ b) = b.
Proof.
  induction a as [|c a IH]; [apply substring_all |].
  rewrite append_cons. simpl. exact IH.
Qed.

Lemma HasSuffix_append (a b : string) : strings_HasSuffix (a ++ b) b = true.
Proof.
  unfold strings_HasSuffix. rewrite length_append.
  replace (String.length a + String.length b - String.length b)
    with (String.length a) by lia.
  rewrite substring_skip, String.eqb_refl, andb_true_r.
  apply Nat.leb_le. lia.
Qed.

(** Stripping the prefix ["v"] removes exactly one leading [v]. *)
Lemma TrimPrefix_v (s : string) :
  strings_TrimPrefix s "v" =
  match s with
  | String "v" rest => rest
  | _ => s
  end.
Proof.
  destruct s as [|c s]; [reflexivity |].
  unfold strings_TrimPrefix, strings_HasPrefix. simpl String.prefix.
  destruct (ascii_dec "v" c) as [<- | Hne].
  - replace (String.prefix "" s) with true by (now destruct s).
    simpl. rewrite Nat.sub_0_r. apply substring_all.
  - destruct c as [[] [] [] [] [] [] [] []]; try reflexivity. now elim Hne.
Qed.

Lemma mentions_refl s : mentions s s.
Proof. exists "", "". now rewrite append_nil_l, append_nil_r. Qed.

Lemma mentions_prefix p s part : mentions s part -> mentions (p ++ s) part.
Proof. intros (a & b & ->). exists (p ++ a), b. now rewrite append_assoc. Qed.

Lemma mentions_suffix s q part : mentions s part -> mentions (s ++ q) part.
Proof. intros (a & b & ->). exists a, (b ++ q). now rewrite !append_assoc. Qed.

Lemma ContainsRune_append (a b : string) (c : ascii) :
  strings_ContainsRune (a ++ b) c = strings_ContainsRune a c || strings_ContainsRune b c.
Proof.
  induction a as [|d a IH]; [reflexivity |].
  rewrite append_cons. simpl. now rewrite IH, orb_assoc.
Qed.

Lemma ContainsRune_cons_false (d : ascii) (s : string) (c : ascii) :
  strings_ContainsRune (String d s) c = false <->
  c <> d /\ strings_ContainsRune s c = false.
Proof.
  simpl. rewrite orb_false_iff. split; intros [Hd Hs]; (split; [| exact Hs]).
  - now apply Ascii.eqb_neq.
  - now apply Ascii.eqb_neq.
Qed.

(** ** Splitting and joining *)

Lemma Split_nonempty (sep : ascii) (s : string) : strings_Split sep s <> [].
Proof.
  destruct s as [|c s]; simpl; [discriminate |].
  destruct (Ascii.eqb c sep); [discriminate |].
  destruct (strings_Split sep s); discriminate.
Qed.

Lemma Split_no_separator (sep : ascii) (e : string) :
  strings_ContainsRune e sep = false -> strings_Split sep e = [e].
Proof.
  induction e as [|c e IH]; simpl; [reflexivity |].
  intros Hc. apply orb_false_elim in Hc as [Hc He].
  rewrite Ascii.eqb_sym, Hc, (IH He). reflexivity.
Qed.

Lemma Split_append (sep : ascii) (a b : string) :
  strings_Split sep (a ++ String sep b) = (strings_Split sep a ++ strings_Split sep b)%list.
Proof.
  induction a as [|c a IH].
  - rewrite append_nil_l. simpl. now rewrite Ascii.eqb_refl.
  - rewrite append_cons. simpl. rewrite IH.
    destruct (Ascii.eqb c sep); [reflexivity |].
    pose proof (Split_nonempty sep a) as Hne.
    destruct (strings_Split sep a); [contradiction | reflexivity].
Qed.

(** A character that is in no piece and is not the separator is not in
    the string. *)
Lemma Split_excludes (sep c : ascii) (s : string) :
  c <> sep ->
  Forall (fun e => strings_ContainsRune e c = false) (strings_Split sep s) ->
  strings_ContainsRune s c = false.
Proof.
  intros Hsep. induction s as [|d s IH]; [reflexivity |].
  simpl strings_Split. destruct (Ascii.eqb_spec d sep) as [-> | Hd].
  - intros Hall. inversion Hall as [| ? ? _ Htl]; subst.
    apply ContainsRune_cons_false. auto.
  - destruct (strings_Split sep s) as [|e es] eqn:Hsplit.
    + now elim (Split_nonempty sep s).
    + intros Hall. inversion Hall as [| ? ? Hhd Htl]; subst.
      apply ContainsRune_cons_false in Hhd as [Hcd He].
      apply ContainsRune_cons_false. split; [exact Hcd |].
      apply IH. now constructor.
Qed.

Lemma cut_append (c : ascii) (s a b : string) :
  cut c s = Some (a, b) -> s = a ++ String c b.
Proof.
  revert a. induction s as [|d s IH]; intros a; simpl; [discriminate |].
  destruct (Ascii.eqb_spec d c) as [-> | Hd].
  - intros Hcut. now inversion Hcut.
  - destruct (cut c s) as [[before after] |]; [| discriminate].
    intros Hcut. inversion Hcut; subst. rewrite append_cons. f_equal. now apply IH.
Qed.

Lemma join_elements_last (l : list string) (e : string) :
  join_elements (l ++ [e]) =
  match l with
  | [] => e
  | _ => join_elements l ++ "/" ++ e
  end.
Proof.
  induction l as [|a l IH]; [reflexivity |].
  simpl app. cbn [join_elements].
  destruct l as [|b l]; [reflexivity |].
  change ((b :: l) ++ [e])%list with (b :: (l ++ [e]))%list in *.
  rewrite IH. now rewrite !append_assoc.
Qed.

(** ** Paths *)

Lemma Join_two (a b : string) :
  a <> "" -> filepath_Join [a; b] = filepath_Clean (a ++ "/" ++ b).
Proof.
  intros Ha. cbn [filepath_Join join_elements].
  now destruct (String.eqb_spec a "").
Qed.

Lemma clean_step_real (rooted : bool) (out : list string) (dotdot : nat) (e : string) :
  real_element e -> clean_step rooted (out, dotdot) e = (e :: out, dotdot).
Proof.
  intros (_ & H0 & H1 & H2). unfold clean_step.
  apply String.eqb_neq in H0, H1, H2. now rewrite H0, H1, H2.
Qed.

Lemma Base_element (e : string) :
  strings_ContainsRune e Separator = false -> e <> "" -> filepath_Base e = e.
Proof.
  intros Hsep He. unfold filepath_Base, split_elements.
  apply String.eqb_neq in He. rewrite He, (Split_no_separator _ _ Hsep).
  cbn [List.filter]. now rewrite He.
Qed.

Lemma Base_append (x e : string) :
  strings_ContainsRune e Separator = false -> e <> "" ->
  filepath_Base (x ++ "/" ++ e) = e.
Proof.
  intros Hsep He. unfold filepath_Base, split_elements.
  destruct (String.eqb_spec (x ++ "/" ++ e) "") as [Hempty | _].
  { now apply append_nonempty in Hempty. }
  change ("/" ++ e) with (String Separator e).
  rewrite Split_append, (Split_no_separator _ _ Hsep), List.filter_app.
  cbn [List.filter]. apply String.eqb_neq in He. rewrite He. apply last_last.
Qed.

(** Cleaning a path that ends in a real element keeps that element
    last. *)
Lemma Base_Clean_append (dir e : string) :
  real_element e -> filepath_Base (filepath_Clean (dir ++ "/" ++ e)) = e.
Proof.
  intros He. pose proof He as (Hsep & _).
  unfold filepath_Clean.
  destruct (String.eqb_spec (dir ++ "/" ++ e) "") as [Hempty | _].
  { now apply append_nonempty in Hempty. }
  unfold split_elements. change ("/" ++ e) with (String Separator e).
  rewrite Split_append, (Split_no_separator _ _ Hsep), fold_left_app.
  cbn [fold_left].
  destruct (fold_left (clean_step (strings_HasPrefix (dir ++ String Separator e) "/"))
                      (strings_Split Separator dir) ([], 0)) as [out dotdot].
  rewrite (clean_step_real _ _ _ _ He). cbn [fst rev].
  rewrite join_elements_last.
  destruct He as (_ & Hne & _).
  destruct (strings_HasPrefix (dir ++ String Separator e) "/").
  - destruct (rev out) as [|a l].
    + now apply (Base_append "" e).
    + rewrite <- append_assoc. now apply Base_append.
  - destruct (rev out) as [|a l].
    + now apply Base_element.
    + now apply Base_append.
Qed.

Lemma zip_name_real (version : string) :
  strings_ContainsRune version Separator = false -> real_element (version ++ ".zip").
Proof.
  intros Hv. split; [| split; [| split]].
  - now rewrite ContainsRune_append, Hv.
  - apply append_nonempty.
  - intros Heq. apply (f_equal String.length) in Heq.
    rewrite length_append in Heq. simpl in Heq. lia.
  - intros Heq. apply (f_equal String.length) in Heq.
    rewrite length_append in Heq. simpl in Heq. lia.
Qed.

(** Lines 73-76 in one expression. *)
Lemma cacheDir_eq (environ : string -> string) (packageName : string)
    (pseudoSemver : semver_Version) :
  cacheDir environ packageName pseudoSemver =
  environ "GOPATH" ++ "/pkg/mod/cache/download/" ++ packageName ++ "/@v" ++
  (if (2 <=? Major pseudoSemver)%N then "/v" ++ fmt_d (Major pseudoSemver) else "").
Proof.
  unfold cacheDir, os_Getenv. destruct (2 <=? Major pseudoSemver)%N.
  - now rewrite !append_assoc.
  - now rewrite append_nil_r.
Qed.

Lemma cacheDir_nonempty (environ : string -> string) (packageName : string)
    (pseudoSemver : semver_Version) :
  cacheDir environ packageName pseudoSemver <> "".
Proof.
  unfold cacheDir. destruct (2 <=? Major pseudoSemver)%N; apply append_nonempty.
Qed.

(** ** The model of [semver.Parse] keeps to the grammar *)

Lemma containsOnly_excludes (s set : string) (c : ascii) :
  containsOnly s set = true -> strings_ContainsRune set c = false ->
  strings_ContainsRune s c = false.
Proof.
  intros Hs Hc. induction s as [|d s IH]; [reflexivity |].
  simpl in Hs. apply andb_true_iff in Hs as [Hd Hs].
  apply ContainsRune_cons_false. split; [| now apply IH].
  intros ->. congruence.
Qed.

Lemma parse_number_excludes (what What s : string) (n : N) :
  parse_number what What s = Ok n -> strings_ContainsRune s Separator = false.
Proof.
  unfold parse_number. destruct (containsOnly s numbers) eqn:Hs; [| discriminate].
  intros _. now apply (containsOnly_excludes s numbers).
Qed.

Lemma NewPRVersion_excludes (s : string) (v : semver_PRVersion) :
  semver_NewPRVersion s = Ok v -> strings_ContainsRune s Separator = false.
Proof.
  unfold semver_NewPRVersion. destruct (String.eqb s ""); [discriminate |].
  destruct (containsOnly s numbers) eqn:Hn.
  - intros _. now apply (containsOnly_excludes s numbers).
  - destruct (containsOnly s alphanum) eqn:Ha; [| discriminate].
    intros _. now apply (containsOnly_excludes s alphanum).
Qed.

Lemma parse_prerelease_excludes (l : list string) (pre : list semver_PRVersion) :
  parse_prerelease l = Ok pre ->
  Forall (fun e => strings_ContainsRune e Separator = false) l.
Proof.
  revert pre. induction l as [|e l IH]; intros pre; [constructor |].
  simpl. destruct (semver_NewPRVersion e) as [p |] eqn:He; [| discriminate].
  destruct (parse_prerelease l) as [ps |]; [| discriminate].
  intros _. constructor; [now apply NewPRVersion_excludes in He | now apply (IH ps)].
Qed.

Lemma parse_build_excludes (l build : list string) :
  parse_build l = Ok build ->
  Forall (fun e => strings_ContainsRune e Separator = false) l.
Proof.
  revert build. induction l as [|e l IH]; intros build; [constructor |].
  simpl. destruct (String.eqb e ""); [discriminate |].
  destruct (containsOnly e alphanum) eqn:He; [| discriminate]. simpl.
  destruct (parse_build l) as [bs |]; [| discriminate].
  intros _. constructor; [now apply (containsOnly_excludes e alphanum) | now apply (IH bs)].
Qed.

Lemma blang_Parse_no_separator (s : string) (v : semver_Version) :
  blang_Parse s = Ok v -> strings_ContainsRune s Separator = false.
Proof.
  unfold blang_Parse, strings_SplitN3.
  destruct (String.eqb s ""); [discriminate |].
  destruct (cut "." s) as [[major_str r] |] eqn:Hcut1; [| discriminate].
  destruct (cut "." r) as [[minor_str rest] |] eqn:Hcut2; [| discriminate].
  apply cut_append in Hcut1, Hcut2. subst s r.
  destruct (parse_number "major" "Major" major_str) as [major |] eqn:Hmajor; [| discriminate].
  destruct (parse_number "minor" "Minor" minor_str) as [minor |] eqn:Hminor; [| discriminate].
  apply parse_number_excludes in Hmajor, Hminor.
  assert (Hrest : forall rest0 build0,
            (let (patchStr, prerelease) :=
               match cut "-" rest0 with
               | Some (before, after) => (before, strings_Split "." after)
               | None => (rest0, [])
               end in
             match parse_number "patch" "Patch" patchStr with
             | Err e => Err e
             | Ok patch =>
                 match parse_prerelease prerelease with
                 | Err e => Err e
                 | Ok pre =>
                     match parse_build build0 with
                     | Err e => Err e
                     | Ok build =>
                         Ok {| Major := major; Minor := minor; Patch := patch;
                               Pre := pre; Build := build |}
                     end
                 end
             end) = Ok v ->
            strings_ContainsRune rest0 Separator = false /\
            Forall (fun e => strings_ContainsRune e Separator = false) build0).
  { intros rest0 build0.
    destruct (cut "-" rest0) as [[patchStr after] |] eqn:Hcut.
    - apply cut_append in Hcut. subst rest0.
      destruct (parse_number "patch" "Patch" patchStr) as [patch |] eqn:Hpatch;
        [| discriminate].
      destruct (parse_prerelease (strings_Split "." after)) as [pre |] eqn:Hpre;
        [| discriminate].
      destruct (parse_build build0) as [build |] eqn:Hbuild; [| discriminate].
      intros _. apply parse_number_excludes in Hpatch.
      apply parse_prerelease_excludes in Hpre. apply parse_build_excludes in Hbuild.
      split; [| exact Hbuild].
      rewrite ContainsRune_append, Hpatch. apply ContainsRune_cons_false.
      split; [discriminate |]. apply (Split_excludes "."); [discriminate | exact Hpre].
    - destruct (parse_number "patch" "Patch" rest0) as [patch |] eqn:Hpatch;
        [| discriminate].
      destruct (parse_prerelease []) as [pre |]; [| discriminate].
      destruct (parse_build build0) as [build |] eqn:Hbuild; [| discriminate].
      intros _. split; [now apply parse_number_excludes in Hpatch |].
      now apply parse_build_excludes in Hbuild. }
  intros Hparse.
  rewrite ContainsRune_append, Hmajor. apply ContainsRune_cons_false.
  split; [discriminate |].
  rewrite ContainsRune_append, Hminor. apply ContainsRune_cons_false.
  split; [discriminate |].
  destruct (cut "+" rest) as [[before after] |] eqn:Hcut.
  - apply cut_append in Hcut. subst rest.
    apply Hrest in Hparse as [Hbefore Hbuild].
    rewrite ContainsRune_append, Hbefore. apply ContainsRune_cons_false.
    split; [discriminate |]. apply (Split_excludes "."); [discriminate | exact Hbuild].
  - now apply Hrest in Hparse as [Hrest' _].
Qed.

#[export] Instance blang_grammar : SemverGrammar.
Proof.
  split.
  - eexists. reflexivity.
  - exact blang_Parse_no_separator.
Qed.

(** With one leading [v] put back, an accepted version still holds no
    separator. *)
Lemma accepted_version `{SemverGrammar} (pseudoVersion : string) (v : semver_Version) :
  semver_Parse (strings_TrimPrefix pseudoVersion "v") = Ok v ->
  pseudoVersion <> "" /\ strings_ContainsRune pseudoVersion Separator = false.
Proof.
  intros Hparse. split.
  - intros ->. rewrite TrimPrefix_v in Hparse.
    destruct semver_Parse_empty as [e He]. rewrite He in Hparse. discriminate.
  - apply semver_Parse_no_separator in Hparse. rewrite TrimPrefix_v in Hparse.
    destruct pseudoVersion as [|c rest]; [reflexivity |].
    destruct c as [[] [] [] [] [] [] [] []]; exact Hparse.
Qed.

(** ** Running programs *)

Lemma run_bind {W A B : Type} (sys : handler W) (p : prog A) (f : A -> prog B) (w : W) :
  run sys (bind p f) w = and_then sys (run sys p w) f.
Proof.
  revert w. induction p as [a | e k IH | msg | msg]; intros w; simpl.
  - unfold and_then. simpl. now destruct (run sys (f a) w).
  - rewrite IH. unfold and_then. simpl.
    now destruct (ending (run sys (k (fst (sys e w))) (snd (sys e w)))).
  - reflexivity.
  - reflexivity.
Qed.

Lemma writes_app (t u : list entry) : writes (t ++ u)%list = (writes t ++ writes u)%list.
Proof. unfold writes. apply omap_app. Qed.

(** Symbolic execution: unfold one call and use the hypothesis that
    gives the system's answer to it. *)
Ltac answer :=
  match goal with
  | H : ?sys ?e ?w = _ |- context [?sys ?e ?w] => rewrite H
  end.

Ltac exec :=
  repeat (cbn [run bind call fst snd ending final trace]; try answer).

(** ** The descriptor loader, path by path *)

Section GetModuleFile.
Context `{Libraries} {W : Type} (sys : handler W).
Variables (packagePath version : string) (w : W).

Lemma getModuleFile_open_error (err : error) (w1 : W) :
  sys (os_Open (goModPath packagePath)) w = (Err err, w1) ->
  run sys (getModuleFile packagePath version) w =
  {| ending := Returned
                 (Err (fmt_Errorf_w ("error opening " ++ goModPath packagePath ++ ": ") err));
     final := w1;
     trace := [Call (os_Open (goModPath packagePath)) (Err err)] |}.
Proof.
  intros Hopen. unfold getModuleFile. fold (goModPath packagePath). now exec.
Qed.

Lemma getModuleFile_read_error (file : os_File) (w1 : W) (err : error) (w2 : W) :
  sys (os_Open (goModPath packagePath)) w = (Ok file, w1) ->
  sys (io_ReadAll file) w1 = (Err err, w2) ->
  run sys (getModuleFile packagePath version) w =
  {| ending := Returned
                 (Err (fmt_Errorf_w ("error reading " ++ goModPath packagePath ++ ": ") err));
     final := snd (sys (File_Close file) w2);
     trace := [Call (os_Open (goModPath packagePath)) (Ok file);
               Call (io_ReadAll file) (Err err);
               Call (File_Close file) (fst (sys (File_Close file) w2))] |}.
Proof.
  intros Hopen Hread. unfold getModuleFile. fold (goModPath packagePath). now exec.
Qed.

Lemma getModuleFile_read (file : os_File) (w1 : W) (data : bytes) (w2 : W) :
  sys (os_Open (goModPath packagePath)) w = (Ok file, w1) ->
  sys (io_ReadAll file) w1 = (Ok data, w2) ->
  run sys (getModuleFile packagePath version) w =
  {| ending := Returned (descriptor packagePath version data);
     final := snd (sys (File_Close file) w2);
     trace := [Call (os_Open (goModPath packagePath)) (Ok file);
               Call (io_ReadAll file) (Ok data);
               Call (File_Close file) (fst (sys (File_Close file) w2))] |}.
Proof.
  intros Hopen Hread. unfold getModuleFile, descriptor. fold (goModPath packagePath).
  exec. destruct (modfile_Parse packagePath data) as [moduleFile | err]; [| now exec].
  destruct (Module moduleFile) as [module |]; now exec.
Qed.

(** Every execution of [getModuleFile] is one of the three. *)
Lemma getModuleFile_loaded :
  loaded sys packagePath version w (run sys (getModuleFile packagePath version) w).
Proof.
  destruct (sys (os_Open (goModPath packagePath)) w) as [[file | err] w1] eqn:Hopen.
  - destruct (sys (io_ReadAll file) w1) as [[data | err] w2] eqn:Hread.
    + rewrite (getModuleFile_read _ _ _ _ Hopen Hread).
      destruct (sys (File_Close file) w2) as [closed w3] eqn:Hclose.
      eapply loaded_read; eassumption.
    + rewrite (getModuleFile_read_error _ _ _ _ Hopen Hread).
      destruct (sys (File_Close file) w2) as [closed w3] eqn:Hclose.
      eapply loaded_read_error; eassumption.
  - rewrite (getModuleFile_open_error _ _ Hopen). now apply loaded_open_error.
Qed.

(** It returns to its caller, and writes no file. *)
Lemma getModuleFile_returns :
  exists r, ending (run sys (getModuleFile packagePath version) w) = Returned r.
Proof. destruct getModuleFile_loaded; eexists; reflexivity. Qed.

Lemma getModuleFile_writes_nothing :
  writes (trace (run sys (getModuleFile packagePath version) w)) = [].
Proof. destruct getModuleFile_loaded; reflexivity. Qed.

Lemma descriptor_Ok (data : bytes) (f : modfile_File) :
  descriptor packagePath version data = Ok f ->
  exists moduleFile module,
    modfile_Parse packagePath data = Ok moduleFile /\
    Module moduleFile = Some module /\
    f = stamped moduleFile module version.
Proof.
  unfold descriptor. intros Hd.
  destruct (modfile_Parse packagePath data) as [moduleFile | err]; [| discriminate].
  destruct (Module moduleFile) as [module |] eqn:Hm; [| discriminate].
  exists moduleFile, module. now inversion Hd.
Qed.

Lemma loaded_Ok (x : execution W (result modfile_File)) (f : modfile_File) :
  loaded sys packagePath version w x -> ending x = Returned (Ok f) ->
  exists moduleFile module, f = stamped moduleFile module version.
Proof.
  intros [err w1 _ | file w1 err w2 closed w3 _ _ _ | file w1 data w2 closed w3 _ _ _];
    simpl; intros Hend; try discriminate.
  injection Hend as Hd. apply descriptor_Ok in Hd as (mf & m & _ & _ & ->). eauto.
Qed.

End GetModuleFile.

(** ** The archive writer, path by path *)

Section CreateZipArchive.
Context {W : Type} (sys : handler W).
Variables (packagePath outputDirectory : string) (w : W).
Variables (moduleFile : modfile_File) (module : modfile_Module).
Hypothesis Hmodule : Module moduleFile = Some module.

Lemma createZipArchive_build_error (err : error) (w1 : W) :
  sys (modzip_CreateFromDir (Mod module) packagePath) w = (Err err, w1) ->
  run sys (createZipArchive packagePath moduleFile outputDirectory) w =
  {| ending := Returned (Some (fmt_Errorf_w "create zip from dir: " err));
     final := w1;
     trace := [Call (modzip_CreateFromDir (Mod module) packagePath) (Err err)] |}.
Proof. intros Hbuild. unfold createZipArchive. rewrite Hmodule. now exec. Qed.

Lemma createZipArchive_write_error (zipContents : bytes) (w1 : W) (err : error) (w2 : W) :
  sys (modzip_CreateFromDir (Mod module) packagePath) w = (Ok zipContents, w1) ->
  sys (os_WriteFile (zipFilePath outputDirectory module) zipContents perm_0o644) w1
    = (Some err, w2) ->
  run sys (createZipArchive packagePath moduleFile outputDirectory) w =
  {| ending := Returned (Some (fmt_Errorf_w "writing zip file: " err));
     final := w2;
     trace := [Call (modzip_CreateFromDir (Mod module) packagePath) (Ok zipContents);
               Call (os_WriteFile (zipFilePath outputDirectory module) zipContents perm_0o644)
                    (Some err)] |}.
Proof.
  intros Hbuild Hwrite. unfold createZipArchive. rewrite Hmodule.
  fold (zipFilePath outputDirectory module). now exec.
Qed.

Lemma createZipArchive_written (zipContents : bytes) (w1 w2 : W) :
  sys (modzip_CreateFromDir (Mod module) packagePath) w = (Ok zipContents, w1) ->
  sys (os_WriteFile (zipFilePath outputDirectory module) zipContents perm_0o644) w1
    = (None, w2) ->
  run sys (createZipArchive packagePath moduleFile outputDirectory) w =
  {| ending := Returned None;
     final := w2;
     trace := [Call (modzip_CreateFromDir (Mod module) packagePath) (Ok zipContents);
               Call (os_WriteFile (zipFilePath outputDirectory module) zipContents perm_0o644)
                    None] |}.
Proof.
  intros Hbuild Hwrite. unfold createZipArchive. rewrite Hmodule.
  fold (zipFilePath outputDirectory module). now exec.
Qed.

(** Every execution of [createZipArchive] on a descriptor that declares
    a module is one of the three; on a descriptor that declares none it
    would panic, which [main] never lets happen. *)
Lemma createZipArchive_archived :
  archived sys packagePath outputDirectory w module
           (run sys (createZipArchive packagePath moduleFile outputDirectory) w).
Proof.
  destruct (sys (modzip_CreateFromDir (Mod module) packagePath) w)
    as [[zipContents | err] w1] eqn:Hbuild.
  - destruct (sys (os_WriteFile (zipFilePath outputDirectory module) zipContents perm_0o644)
                  w1) as [[err |] w2] eqn:Hwrite.
    + rewrite (createZipArchive_write_error _ _ _ _ Hbuild Hwrite).
      eapply archived_write_error; eassumption.
    + rewrite (createZipArchive_written _ _ _ Hbuild Hwrite).
      eapply archived_written; eassumption.
  - rewrite (createZipArchive_build_error _ _ Hbuild). now apply archived_build_error.
Qed.

End CreateZipArchive.

Lemma createZipArchive_nil_module {W : Type} (sys : handler W)
    (packagePath outputDirectory : string) (w : W) (moduleFile : modfile_File) :
  Module moduleFile = None ->
  exists msg,
    run sys (createZipArchive packagePath moduleFile outputDirectory) w =
    {| ending := Panicked msg; final := w; trace := [] |}.
Proof. intros Hnil. unfold createZipArchive. rewrite Hnil. eexists. reflexivity. Qed.

(** ** The whole run *)

Section Main.
Context `{Libraries} {W : Type} (sys : handler W) (environ : string -> string).
Variables (packageName pseudoVersion : string) (w : W).

(** [main] once the flags have passed validation. *)
Lemma main_valid (pseudoSemver : semver_Version) :
  packageName <> "" -> pseudoVersion <> "" ->
  semver_Parse (strings_TrimPrefix pseudoVersion "v") = Ok pseudoSemver ->
  main environ packageName pseudoVersion =
  (loaded <- getModuleFile (packagePath environ packageName) pseudoVersion ;;
   match loaded with
   | Err err => glog_Fatalf ("error getting module file: " ++ Error err)
   | Ok moduleFile =>
       archived <- createZipArchive (packagePath environ packageName) moduleFile
                     (cacheDir environ packageName pseudoSemver) ;;
       match archived with
       | Some err => glog_Fatalf ("error creating zip archive: " ++ Error err)
       | None => Ret tt
       end
   end)%prog.
Proof.
  intros Hpkg Hver Hparse. unfold main.
  destruct (String.eqb_spec packageName "") as [| _]; [contradiction |].
  destruct (String.eqb_spec pseudoVersion "") as [| _]; [contradiction |].
  now rewrite Hparse.
Qed.

Lemma archiving_archived (moduleFile : modfile_File) (pseudoSemver : semver_Version) :
  ending (loading sys environ packageName pseudoVersion w) = Returned (Ok moduleFile) ->
  exists module,
    Module moduleFile = Some module /\
    Version (Mod module) = pseudoVersion /\
    archived sys (packagePath environ packageName)
             (cacheDir environ packageName pseudoSemver)
             (final (loading sys environ packageName pseudoVersion w)) module
             (archiving sys environ packageName pseudoVersion w moduleFile pseudoSemver).
Proof.
  intros Hend.
  pose proof (getModuleFile_loaded sys (packagePath environ packageName) pseudoVersion w)
    as Hx. fold (loading sys environ packageName pseudoVersion w) in Hx.
  destruct (loaded_Ok _ _ _ _ _ _ Hx Hend) as (mf & m & ->).
  eexists. split; [reflexivity |]. split; [reflexivity |].
  now apply createZipArchive_archived.
Qed.

(** Every execution of [main] is one of the six. *)
Lemma main_ran :
  ran sys environ packageName pseudoVersion w
      (run sys (main environ packageName pseudoVersion) w).
Proof.
  destruct (String.eqb_spec packageName "") as [Hpkg | Hpkg].
  { unfold main. rewrite Hpkg. simpl. now apply ran_no_package. }
  destruct (String.eqb_spec pseudoVersion "") as [Hver | Hver].
  { unfold main. apply String.eqb_neq in Hpkg. rewrite Hpkg, Hver. simpl.
    apply ran_no_version; [now apply String.eqb_neq | reflexivity]. }
  destruct (semver_Parse (strings_TrimPrefix pseudoVersion "v"))
    as [pseudoSemver | err] eqn:Hparse.
  2:{ unfold main. apply String.eqb_neq in Hpkg, Hver. rewrite Hpkg, Hver, Hparse.
      simpl. apply ran_bad_version; [now apply String.eqb_neq .. | assumption]. }
  rewrite (main_valid _ Hpkg Hver Hparse), run_bind.
  fold (loading sys environ packageName pseudoVersion w).
  destruct (getModuleFile_returns sys (packagePath environ packageName) pseudoVersion w)
    as [r Hr]. fold (loading sys environ packageName pseudoVersion w) in Hr.
  unfold and_then. rewrite Hr.
  destruct r as [f | err].
  2:{ cbn [run ending final trace]. rewrite app_nil_r.
      eapply ran_no_descriptor; eassumption. }
  destruct (archiving_archived f pseudoSemver Hr) as (module & _ & _ & Hy).
  rewrite run_bind. fold (archiving sys environ packageName pseudoVersion w f pseudoSemver).
  unfold and_then. cbn [ending final trace].
  destruct (ending (archiving sys environ packageName pseudoVersion w f pseudoSemver))
    as [[err |] | msg | msg] eqn:Hend; cbn [run ending final trace].
  - rewrite app_nil_r. eapply ran_no_archive; eassumption.
  - rewrite app_nil_r. eapply ran_archived; eassumption.
  - destruct Hy; discriminate.
  - destruct Hy; discriminate.
Qed.

(** Once the descriptor is loaded, the rest of the run is that of
    [createZipArchive] on the stamped descriptor. *)
Lemma main_loaded_trace (pseudoSemver : semver_Version)
    (file : os_File) (w1 : W) (data : bytes) (w2 : W)
    (moduleFile : modfile_File) (module : modfile_Module) :
  packageName <> "" -> pseudoVersion <> "" ->
  semver_Parse (strings_TrimPrefix pseudoVersion "v") = Ok pseudoSemver ->
  sys (os_Open (goModPath (packagePath environ packageName))) w = (Ok file, w1) ->
  sys (io_ReadAll file) w1 = (Ok data, w2) ->
  modfile_Parse (packagePath environ packageName) data = Ok moduleFile ->
  Module moduleFile = Some module ->
  trace (run sys (main environ packageName pseudoVersion) w) =
  ([Call (os_Open (goModPath (packagePath environ packageName))) (Ok file);
    Call (io_ReadAll file) (Ok data);
    Call (File_Close file) (fst (sys (File_Close file) w2))] ++
   trace (run sys (createZipArchive (packagePath environ packageName)
                     (stamped moduleFile module pseudoVersion)
                     (cacheDir environ packageName pseudoSemver))
              (snd (sys (File_Close file) w2))))%list.
Proof.
  intros Hpkg Hver Hsv Hopen Hread Hparse Hmodule.
  rewrite (main_valid pseudoSemver Hpkg Hver Hsv), run_bind.
  rewrite (getModuleFile_read sys _ pseudoVersion w file w1 data w2 Hopen Hread).
  unfold descriptor. rewrite Hparse, Hmodule.
  unfold and_then at 1. cbn [ending final trace]. rewrite run_bind.
  f_equal. unfold and_then.
  destruct (ending (run sys (createZipArchive _ _ _) _)) as [[err |] | msg | msg];
    cbn [run trace]; now rewrite ?app_nil_r.
Qed.

(** What a run writes follows from what it observed. *)
Lemma main_writes_planned :
  writes (trace (run sys (main environ packageName pseudoVersion) w)) =
  plan environ packageName pseudoVersion
       (observations (trace (run sys (main environ packageName pseudoVersion) w))).
Proof.
  pose proof (getModuleFile_loaded sys (packagePath environ packageName) pseudoVersion w)
    as Hx.
  fold (loading sys environ packageName pseudoVersion w) in Hx.
  destruct main_ran
    as [Hp | Hp Hv | e Hp Hv He | sv e Hp Hv Hsv Hend
        | sv mf e Hp Hv Hsv Hend Hy | sv mf Hp Hv Hsv Hend Hy];
    cbn [ending trace] in *; unfold plan.
  - now destruct (semver_Parse _).
  - now destruct (semver_Parse _).
  - now rewrite He.
  - rewrite Hsv. destruct Hx; reflexivity.
  - rewrite Hsv. destruct (archiving_archived mf sv Hend) as (module & _ & _ & Harch).
    destruct Hx; cbn [ending trace] in *; try discriminate.
    destruct Harch; cbn [ending trace] in *; try discriminate; reflexivity.
  - rewrite Hsv. destruct (archiving_archived mf sv Hend) as (module & _ & _ & Harch).
    destruct Hx; cbn [ending trace] in *; try discriminate.
    destruct Harch; cbn [ending trace] in *; try discriminate; reflexivity.
Qed.

End Main.

(** ** Flag validation *)

(** C6. When [--package-name] or [--pseudo-version] is the empty string,
    [main] is nothing but a call of [glog.Fatalf]: on any system the run
    ends fatally with the flag's diagnostic, makes no call at all (no
    file is opened, read or written) and leaves the system as it was. *)
Theorem empty_flag_fatal_before_io `{Libraries} {W : Type} (sys : handler W)
    (environ : string -> string) (packageName pseudoVersion : string) (w : W) :
  packageName = "" \/ pseudoVersion = "" ->
  main environ packageName pseudoVersion =
    glog_Fatalf (if String.eqb packageName "" then "package-name cannot be empty"
                 else "pseudo-version cannot be empty") /\
  run sys (main environ packageName pseudoVersion) w =
    {| ending := Fatal (if String.eqb packageName "" then "package-name cannot be empty"
                        else "pseudo-version cannot be empty");
       final := w;
       trace := [] |}.
Proof.
  intros Hempty.
  assert (Hmain : main environ packageName pseudoVersion =
                  glog_Fatalf (if String.eqb packageName ""
                               then "package-name cannot be empty"
                               else "pseudo-version cannot be empty")).
  { unfold main. destruct (String.eqb_spec packageName "") as [| Hne]; [reflexivity |].
    destruct Hempty as [| ->]; [contradiction | reflexivity]. }
  split; [exact Hmain |]. now rewrite Hmain.
Qed.

Lemma empty_flag_fatal_before_io_witness :
  ("example.com/foo" = "" \/ "" = "") /\
  main gopath "example.com/foo" "" = glog_Fatalf "pseudo-version cannot be empty" /\
  run posix (main gopath "example.com/foo" "") workspace =
    {| ending := Fatal "pseudo-version cannot be empty"; final := workspace; trace := [] |}.
Proof.
  split; [right; reflexivity |].
  apply (empty_flag_fatal_before_io posix gopath "example.com/foo" "" workspace).
  right; reflexivity.
Defined.

(** C5. When the pseudo-version, with one leading [v] removed, is
    rejected by [semver.Parse], the run ends fatally without any call
    made, so no file is written, and the system is left as it was; with
    both flags non-empty the diagnostic is the parser's error behind
    [error parsing pseudo-version: ]. *)
Theorem unparsable_version_fatal `{Libraries} {W : Type} (sys : handler W)
    (environ : string -> string) (packageName pseudoVersion : string) (w : W)
    (err : error) :
  semver_Parse (strings_TrimPrefix pseudoVersion "v") = Err err ->
  exists msg,
    run sys (main environ packageName pseudoVersion) w =
      {| ending := Fatal msg; final := w; trace := [] |} /\
    writes (trace (run sys (main environ packageName pseudoVersion) w)) = [] /\
    (packageName <> "" -> pseudoVersion <> "" ->
     msg = "error parsing pseudo-version: " ++ Error err).
Proof.
  intros Hparse.
  destruct (main_ran sys environ packageName pseudoVersion w)
    as [Hp | Hp Hv | e Hp Hv He | sv e Hp Hv Hsv _
        | sv mf e Hp Hv Hsv _ _ | sv mf Hp Hv Hsv _ _];
    try (rewrite Hparse in Hsv; discriminate).
  - eexists. split; [reflexivity |]. split; [reflexivity |]. intros Hne. contradiction.
  - eexists. split; [reflexivity |]. split; [reflexivity |]. intros _ Hne. contradiction.
  - eexists. split; [reflexivity |]. split; [reflexivity |]. intros _ _.
    rewrite Hparse in He. now inversion He.
Qed.

Lemma unparsable_version_fatal_witness :
  semver_Parse (strings_TrimPrefix "v1.0" "v")
    = Err (errorString "No Major.Minor.Patch elements found") /\
  exists msg,
    run posix (main gopath "example.com/foo" "v1.0") workspace =
      {| ending := Fatal msg; final := workspace; trace := [] |} /\
    writes (trace (run posix (main gopath "example.com/foo" "v1.0") workspace)) = [] /\
    ("example.com/foo" <> "" -> "v1.0" <> "" ->
     msg = "error parsing pseudo-version: " ++
           Error (errorString "No Major.Minor.Patch elements found")).
Proof.
  split; [reflexivity |].
  apply (unparsable_version_fatal posix gopath "example.com/foo" "v1.0" workspace).
  reflexivity.
Defined.

(** ** The descriptor loader *)

(** C3. When the descriptor under [sourceDir] can be opened and read, is
    accepted by [modfile.Parse] and declares a module, then for every
    version string [v], [getModuleFile sourceDir v] returns that
    descriptor with its declared version set to [v], whatever version the
    parser had recorded, and with the module path and every other field
    as parsed. *)
Theorem getModuleFile_stamps_version `{Libraries} {W : Type} (sys : handler W)
    (sourceDir v : string) (w : W)
    (file : os_File) (w1 : W) (data : bytes) (w2 : W)
    (moduleFile : modfile_File) (module : modfile_Module) :
  sys (os_Open (filepath_Join [sourceDir; "go.mod"])) w = (Ok file, w1) ->
  sys (io_ReadAll file) w1 = (Ok data, w2) ->
  modfile_Parse sourceDir data = Ok moduleFile ->
  Module moduleFile = Some module ->
  exists f,
    ending (run sys (getModuleFile sourceDir v) w) = Returned (Ok f) /\
    declared_version f = Some v /\
    option_map (fun m => Path (Mod m)) (Module f) = Some (Path (Mod module)) /\
    option_map Deprecated (Module f) = Some (Deprecated module) /\
    Go f = Go moduleFile /\
    Require f = Require moduleFile.
Proof.
  intros Hopen Hread Hparse Hmodule.
  exists (stamped moduleFile module v).
  rewrite (getModuleFile_read sys sourceDir v w file w1 data w2 Hopen Hread).
  unfold descriptor. rewrite Hparse, Hmodule. now repeat split.
Qed.

Lemma getModuleFile_stamps_version_witness :
  posix (os_Open (filepath_Join ["/go/src/example.com/foo"; "go.mod"])) workspace
    = (Ok foo_go_mod, workspace) /\
  posix (io_ReadAll foo_go_mod) workspace = (Ok go_mod, workspace) /\
  modfile_Parse "/go/src/example.com/foo" go_mod = Ok foo_descriptor /\
  Module foo_descriptor = Some foo_module /\
  exists f,
    ending (run posix (getModuleFile "/go/src/example.com/foo"
                         "v0.0.0-20190101000000-abcdef123456") workspace)
      = Returned (Ok f) /\
    declared_version f = Some "v0.0.0-20190101000000-abcdef123456" /\
    option_map (fun m => Path (Mod m)) (Module f) = Some (Path (Mod foo_module)) /\
    option_map Deprecated (Module f) = Some (Deprecated foo_module) /\
    Go f = Go foo_descriptor /\
    Require f = Require foo_descriptor.
Proof.
  assert (Hopen : posix (os_Open (filepath_Join ["/go/src/example.com/foo"; "go.mod"]))
                    workspace = (Ok foo_go_mod, workspace)) by (vm_compute; reflexivity).
  assert (Hread : posix (io_ReadAll foo_go_mod) workspace = (Ok go_mod, workspace))
    by (vm_compute; reflexivity).
  assert (Hparse : modfile_Parse "/go/src/example.com/foo" go_mod = Ok foo_descriptor)
    by (vm_compute; reflexivity).
  repeat split; try assumption.
  exact (getModuleFile_stamps_version posix "/go/src/example.com/foo"
           "v0.0.0-20190101000000-abcdef123456" workspace foo_go_mod workspace go_mod
           workspace foo_descriptor foo_module Hopen Hread Hparse eq_refl).
Defined.

(** C7. When the descriptor at [filepath.Join(sourceDir, "go.mod")], with
    [sourceDir] the computed [<GOPATH>/src/<package-name>], cannot be
    opened or cannot be read, [getModuleFile] returns an error that wraps
    the system's error and whose message contains that path; the tool
    ends fatally without writing a file, and when the flags were valid
    its diagnostic is that message behind [error getting module file: ]. *)
Theorem unreadable_descriptor_fatal `{Libraries} {W : Type} (sys : handler W)
    (environ : string -> string) (packageName pseudoVersion : string) (w : W)
    (err : error) :
  unreadable sys (filepath_Join [environ "GOPATH" ++ "/src/" ++ packageName; "go.mod"]) w err ->
  exists e,
    ending (run sys (getModuleFile (environ "GOPATH" ++ "/src/" ++ packageName)
                       pseudoVersion) w) = Returned (Err e) /\
    Unwrap e = Some err /\
    mentions (Error e)
      (filepath_Join [environ "GOPATH" ++ "/src/" ++ packageName; "go.mod"]) /\
    exists msg,
      ending (run sys (main environ packageName pseudoVersion) w) = Fatal msg /\
      writes (trace (run sys (main environ packageName pseudoVersion) w)) = [] /\
      (packageName <> "" -> pseudoVersion <> "" ->
       (exists sv, semver_Parse (strings_TrimPrefix pseudoVersion "v") = Ok sv) ->
       msg = "error getting module file: " ++ Error e).
Proof.
  intros Hun.
  change (environ "GOPATH" ++ "/src/" ++ packageName) with (packagePath environ packageName) in *.
  change (filepath_Join [packagePath environ packageName; "go.mod"])
    with (goModPath (packagePath environ packageName)) in *.
  set (pp := packagePath environ packageName) in *.
  assert (Hload : exists prefix,
             run sys (getModuleFile pp pseudoVersion) w =
             {| ending := Returned (Err (fmt_Errorf_w (prefix ++ goModPath pp ++ ": ") err));
                final := final (run sys (getModuleFile pp pseudoVersion) w);
                trace := trace (run sys (getModuleFile pp pseudoVersion) w) |}).
  { destruct Hun as [(w1 & Hopen) | (file & w1 & w2 & Hopen & Hread)].
    - exists "error opening ". now rewrite (getModuleFile_open_error _ _ _ _ _ _ Hopen).
    - exists "error reading ". now rewrite (getModuleFile_read_error _ _ _ _ _ _ _ _ Hopen Hread). }
  destruct Hload as (prefix & Hload).
  exists (fmt_Errorf_w (prefix ++ goModPath pp ++ ": ") err).
  split; [now rewrite Hload |]. split; [reflexivity |].
  split.
  { cbn [Error fmt_Errorf_w]. apply mentions_suffix, mentions_prefix, mentions_suffix,
      mentions_refl. }
  destruct (main_ran sys environ packageName pseudoVersion w)
    as [Hp | Hp Hv | e Hp Hv He | sv e Hp Hv Hsv Hend
        | sv mf e Hp Hv Hsv Hend _ | sv mf Hp Hv Hsv Hend _];
    unfold loading in *; try fold pp in Hend; try (rewrite Hload in Hend; discriminate).
  - eexists. split; [reflexivity |]. split; [reflexivity |]. intros Hne. contradiction.
  - eexists. split; [reflexivity |]. split; [reflexivity |]. intros _ Hne. contradiction.
  - eexists. split; [reflexivity |]. split; [reflexivity |].
    intros _ _ (sv & Hsv). rewrite Hsv in He. discriminate.
  - eexists. split; [reflexivity |]. cbn [trace]. fold pp.
    split; [apply getModuleFile_writes_nothing |]. intros _ _ _.
    rewrite Hload in Hend. cbn [ending] in Hend. now inversion Hend.
Qed.

Lemma unreadable_descriptor_fatal_witness :
  unreadable posix (filepath_Join [gopath "GOPATH" ++ "/src/" ++ "example.com/foo"; "go.mod"])
    no_checkout
    (PathError "open" "/go/src/example.com/foo/go.mod" "no such file or directory") /\
  exists e,
    ending (run posix (getModuleFile (gopath "GOPATH" ++ "/src/" ++ "example.com/foo")
                         "v1.0.0") no_checkout) = Returned (Err e) /\
    Unwrap e = Some (PathError "open" "/go/src/example.com/foo/go.mod"
                       "no such file or directory") /\
    mentions (Error e)
      (filepath_Join [gopath "GOPATH" ++ "/src/" ++ "example.com/foo"; "go.mod"]) /\
    exists msg,
      ending (run posix (main gopath "example.com/foo" "v1.0.0") no_checkout) = Fatal msg /\
      writes (trace (run posix (main gopath "example.com/foo" "v1.0.0") no_checkout)) = [] /\
      ("example.com/foo" <> "" -> "v1.0.0" <> "" ->
       (exists sv, semver_Parse (strings_TrimPrefix "v1.0.0" "v") = Ok sv) ->
       msg = "error getting module file: " ++ Error e).
Proof.
  assert (Hun : unreadable posix
                  (filepath_Join [gopath "GOPATH" ++ "/src/" ++ "example.com/foo"; "go.mod"])
                  no_checkout
                  (PathError "open" "/go/src/example.com/foo/go.mod"
                     "no such file or directory")).
  { left. exists no_checkout. vm_compute. reflexivity. }
  split; [exact Hun |].
  exact (unreadable_descriptor_fatal posix gopath "example.com/foo" "v1.0.0" no_checkout _ Hun).
Defined.

(** C8. When the descriptor is read and [modfile.Parse] accepts it but
    the result declares no module ([Module] is nil), [getModuleFile]
    returns the error made by [errors.New] with the text
    [parsed module should not be nil]; called from [main] for the
    computed source directory, the tool ends fatally without writing a
    file, and when the flags were valid its diagnostic is that text
    behind [error getting module file: ]. *)
Theorem missing_module_fatal `{Libraries} {W : Type} (sys : handler W)
    (environ : string -> string) (packageName pseudoVersion sourceDir : string) (w : W)
    (file : os_File) (w1 : W) (data : bytes) (w2 : W) (moduleFile : modfile_File) :
  sys (os_Open (filepath_Join [sourceDir; "go.mod"])) w = (Ok file, w1) ->
  sys (io_ReadAll file) w1 = (Ok data, w2) ->
  modfile_Parse sourceDir data = Ok moduleFile ->
  Module moduleFile = None ->
  ending (run sys (getModuleFile sourceDir pseudoVersion) w)
    = Returned (Err (errors_New "parsed module should not be nil")) /\
  (sourceDir = environ "GOPATH" ++ "/src/" ++ packageName ->
   exists msg,
     ending (run sys (main environ packageName pseudoVersion) w) = Fatal msg /\
     writes (trace (run sys (main environ packageName pseudoVersion) w)) = [] /\
     (packageName <> "" -> pseudoVersion <> "" ->
      (exists sv, semver_Parse (strings_TrimPrefix pseudoVersion "v") = Ok sv) ->
      msg = "error getting module file: parsed module should not be nil")).
Proof.
  intros Hopen Hread Hparse Hmodule.
  assert (Hload : ending (run sys (getModuleFile sourceDir pseudoVersion) w)
                  = Returned (Err (errors_New "parsed module should not be nil"))).
  { rewrite (getModuleFile_read sys sourceDir pseudoVersion w file w1 data w2 Hopen Hread).
    unfold descriptor. now rewrite Hparse, Hmodule. }
  split; [exact Hload |]. intros ->.
  change (environ "GOPATH" ++ "/src/" ++ packageName)
    with (packagePath environ packageName) in *.
  destruct (main_ran sys environ packageName pseudoVersion w)
    as [Hp | Hp Hv | e Hp Hv He | sv e Hp Hv Hsv Hend
        | sv mf e Hp Hv Hsv Hend _ | sv mf Hp Hv Hsv Hend _];
    unfold loading in *; try (rewrite Hload in Hend; discriminate).
  - eexists. split; [reflexivity |]. split; [reflexivity |]. intros Hne. contradiction.
  - eexists. split; [reflexivity |]. split; [reflexivity |]. intros _ Hne. contradiction.
  - eexists. split; [reflexivity |]. split; [reflexivity |].
    intros _ _ (sv & Hsv). rewrite Hsv in He. discriminate.
  - eexists. split; [reflexivity |]. cbn [trace].
    split; [apply getModuleFile_writes_nothing |]. intros _ _ _.
    rewrite Hload in Hend. now inversion Hend.
Qed.

Lemma missing_module_fatal_witness :
  posix (os_Open (filepath_Join ["/go/src/example.com/foo"; "go.mod"])) empty_descriptor
    = (Ok foo_go_mod, empty_descriptor) /\
  posix (io_ReadAll foo_go_mod) empty_descriptor = (Ok [], empty_descriptor) /\
  modfile_Parse "/go/src/example.com/foo" []
    = Ok {| Module := None; Go := None; Require := [] |} /\
  Module {| Module := None; Go := None; Require := [] |} = None /\
  ending (run posix (getModuleFile "/go/src/example.com/foo" "v1.0.0") empty_descriptor)
    = Returned (Err (errors_New "parsed module should not be nil")) /\
  ("/go/src/example.com/foo" = gopath "GOPATH" ++ "/src/" ++ "example.com/foo" ->
   exists msg,
     ending (run posix (main gopath "example.com/foo" "v1.0.0") empty_descriptor)
       = Fatal msg /\
     writes (trace (run posix (main gopath "example.com/foo" "v1.0.0") empty_descriptor))
       = [] /\
     ("example.com/foo" <> "" -> "v1.0.0" <> "" ->
      (exists sv, semver_Parse (strings_TrimPrefix "v1.0.0" "v") = Ok sv) ->
      msg = "error getting module file: parsed module should not be nil")).
Proof.
  assert (Hopen : posix (os_Open (filepath_Join ["/go/src/example.com/foo"; "go.mod"]))
                    empty_descriptor = (Ok foo_go_mod, empty_descriptor))
    by (vm_compute; reflexivity).
  assert (Hread : posix (io_ReadAll foo_go_mod) empty_descriptor = (Ok [], empty_descriptor))
    by (vm_compute; reflexivity).
  assert (Hparse : modfile_Parse "/go/src/example.com/foo" []
                   = Ok {| Module := None; Go := None; Require := [] |})
    by (vm_compute; reflexivity).
  split; [exact Hopen |]. split; [exact Hread |]. split; [exact Hparse |].
  split; [reflexivity |].
  exact (missing_module_fatal posix gopath "example.com/foo" "v1.0.0"
           "/go/src/example.com/foo" empty_descriptor foo_go_mod empty_descriptor []
           empty_descriptor _ Hopen Hread Hparse eq_refl).
Defined.

(** ** Failing runs *)

(** [main] from a descriptor that was read and declares a module: the
    calls of the loader, then the execution of [createZipArchive] on the
    stamped descriptor, whose error, when it returns one, is fatal. *)
Lemma main_loaded `{Libraries} {W : Type} (sys : handler W) (environ : string -> string)
    (packageName pseudoVersion : string) (w : W) (pseudoSemver : semver_Version)
    (data : bytes) (w3 : W) (module : modfile_Module) :
  accepted packageName pseudoVersion pseudoSemver ->
  descriptor_read sys environ packageName w data w3 ->
  declares environ packageName data module ->
  exists moduleFile before,
    Module moduleFile
      = Some {| Mod := {| Path := Path (Mod module); Version := pseudoVersion |};
                Deprecated := Deprecated module |} /\
    writes before = [] /\
    run sys (main environ packageName pseudoVersion) w =
    {| ending :=
         match ending (run sys (createZipArchive (packagePath environ packageName) moduleFile
                                  (cacheDir environ packageName pseudoSemver)) w3) with
         | Returned (Some err) => Fatal ("error creating zip archive: " ++ Error err)
         | Returned None => Returned tt
         | Fatal msg => Fatal msg
         | Panicked msg => Panicked msg
         end;
       final := final (run sys (createZipArchive (packagePath environ packageName) moduleFile
                                  (cacheDir environ packageName pseudoSemver)) w3);
       trace := (before ++
                 trace (run sys (createZipArchive (packagePath environ packageName) moduleFile
                                   (cacheDir environ packageName pseudoSemver)) w3))%list |}.
Proof.
  intros (Hpkg & Hver & Hsv) (file & w1 & w2 & closed & Hopen & Hread & Hclose)
         (moduleFile & Hparse & Hmodule).
  exists (stamped moduleFile module pseudoVersion),
    [Call (os_Open (goModPath (packagePath environ packageName))) (Ok file);
     Call (io_ReadAll file) (Ok data);
     Call (File_Close file) closed].
  split; [reflexivity |]. split; [reflexivity |].
  rewrite (main_valid environ packageName pseudoVersion pseudoSemver Hpkg Hver Hsv), run_bind.
  rewrite (getModuleFile_read sys _ pseudoVersion w file w1 data w2 Hopen Hread).
  unfold descriptor. rewrite Hparse, Hmodule, Hclose.
  unfold and_then at 1. cbn [ending final trace fst snd]. rewrite run_bind.
  unfold and_then.
  destruct (ending (run sys (createZipArchive _ _ _) w3)) as [[err |] | msg | msg];
    cbn [run ending final trace]; now rewrite ?app_nil_r.
Qed.

(** C4 (as the code has it). Each of the failures ends the run in
    [glog.Fatalf] with the diagnostic of that failure: an empty
    [--package-name] or [--pseudo-version], a version that does not
    parse, a descriptor that cannot be opened, cannot be read, does not
    parse or declares no module, a failure of the archive builder, a
    failure of the output write.  On every one of them but the last no
    write has been attempted.  On a failure of the output write the run
    has made its one [os.WriteFile] call, as its last call, and that
    call returned the error; what it left at the path is the system's
    doing. *)
Theorem failure_paths_end_fatal `{Libraries} {W : Type} (sys : handler W)
    (environ : string -> string) (packageName pseudoVersion : string) (w : W)
    (cause : failure_path) :
  failing sys environ packageName pseudoVersion w cause ->
  ending (run sys (main environ packageName pseudoVersion) w)
    = Fatal (diagnostic_of
               (filepath_Join [environ "GOPATH" ++ "/src/" ++ packageName; "go.mod"]) cause) /\
  match cause with
  | output_write_failure err =>
      exists before name data,
        trace (run sys (main environ packageName pseudoVersion) w)
          = (before ++ [Call (os_WriteFile name data perm_0o644) (Some err)])%list /\
        writes before = []
  | _ => writes (trace (run sys (main environ packageName pseudoVersion) w)) = []
  end.
Proof.
  change (filepath_Join [environ "GOPATH" ++ "/src/" ++ packageName; "go.mod"])
    with (goModPath (packagePath environ packageName)).
  intros [Hpkg | Hpkg Hver | err Hpkg Hver Hsv
          | sv err w1 (Hpkg & Hver & Hsv) Hopen
          | sv file w1 err w2 (Hpkg & Hver & Hsv) Hopen Hread
          | sv data w3 err Hflags Hdata Hparse
          | sv data w3 moduleFile Hflags Hdata Hparse Hmodule
          | sv data w3 module err w4 Hflags Hdata Hdecl Hbuild
          | sv data w3 module zipContents w4 err w5 Hflags Hdata Hdecl Hbuild Hwrite].
  - unfold main. rewrite Hpkg. split; reflexivity.
  - unfold main. apply String.eqb_neq in Hpkg. rewrite Hpkg, Hver. split; reflexivity.
  - unfold main. apply String.eqb_neq in Hpkg, Hver. rewrite Hpkg, Hver, Hsv.
    split; reflexivity.
  - rewrite (main_valid environ packageName pseudoVersion sv Hpkg Hver Hsv), run_bind.
    rewrite (getModuleFile_open_error sys _ pseudoVersion w err w1 Hopen).
    unfold and_then. cbn [ending final trace run diagnostic_of fmt_Errorf_w Error].
    now rewrite !append_assoc.
  - rewrite (main_valid environ packageName pseudoVersion sv Hpkg Hver Hsv), run_bind.
    rewrite (getModuleFile_read_error sys _ pseudoVersion w file w1 err w2 Hopen Hread).
    unfold and_then. cbn [ending final trace run diagnostic_of fmt_Errorf_w Error].
    now rewrite !append_assoc.
  - destruct Hflags as (Hpkg & Hver & Hsv).
    destruct Hdata as (file & w1 & w2 & closed & Hopen & Hread & Hclose).
    rewrite (main_valid environ packageName pseudoVersion sv Hpkg Hver Hsv), run_bind.
    rewrite (getModuleFile_read sys _ pseudoVersion w file w1 data w2 Hopen Hread).
    unfold descriptor. rewrite Hparse.
    unfold and_then. cbn [ending final trace run diagnostic_of fmt_Errorf_w Error].
    split; reflexivity.
  - destruct Hflags as (Hpkg & Hver & Hsv).
    destruct Hdata as (file & w1 & w2 & closed & Hopen & Hread & Hclose).
    rewrite (main_valid environ packageName pseudoVersion sv Hpkg Hver Hsv), run_bind.
    rewrite (getModuleFile_read sys _ pseudoVersion w file w1 data w2 Hopen Hread).
    unfold descriptor. rewrite Hparse, Hmodule.
    unfold and_then. cbn [ending final trace run diagnostic_of errors_New Error].
    split; reflexivity.
  - destruct (main_loaded sys environ packageName pseudoVersion w sv data w3 module
                Hflags Hdata Hdecl) as (stampedFile & before & Hstamped & Hbefore & ->).
    rewrite (createZipArchive_build_error sys _ _ w3 stampedFile _ Hstamped err w4 Hbuild).
    cbn [ending final trace diagnostic_of fmt_Errorf_w Error].
    split; [reflexivity |]. now rewrite writes_app, Hbefore.
  - destruct (main_loaded sys environ packageName pseudoVersion w sv data w3 module
                Hflags Hdata Hdecl) as (stampedFile & before & Hstamped & Hbefore & ->).
    rewrite (createZipArchive_write_error sys _ _ w3 stampedFile _ Hstamped
               zipContents w4 err w5 Hbuild Hwrite).
    cbn [ending final trace diagnostic_of fmt_Errorf_w Error].
    split; [reflexivity |].
    exists (before ++ [Call (build_request environ packageName pseudoVersion module)
                         (Ok zipContents)])%list.
    do 2 eexists. split; [now rewrite <- app_assoc |].
    now rewrite writes_app, Hbefore.
Qed.

Lemma failure_paths_end_fatal_witness :
  failing posix gopath "example.com/foo" "v1.0.0" full_disk
    (output_write_failure
       (PathError "write" "/go/pkg/mod/cache/download/example.com/foo/@v/v1.0.0.zip"
                  "no space left on device")) /\
  ending (run posix (main gopath "example.com/foo" "v1.0.0") full_disk)
    = Fatal ("error creating zip archive: writing zip file: " ++
             "write /go/pkg/mod/cache/download/example.com/foo/@v/v1.0.0.zip: " ++
             "no space left on device") /\
  exists before name data,
    trace (run posix (main gopath "example.com/foo" "v1.0.0") full_disk)
      = (before ++
         [Call (os_WriteFile name data perm_0o644)
               (Some (PathError "write"
                        "/go/pkg/mod/cache/download/example.com/foo/@v/v1.0.0.zip"
                        "no space left on device"))])%list /\
    writes before = [].
Proof.
  assert (Hfailing :
    failing posix gopath "example.com/foo" "v1.0.0" full_disk
      (output_write_failure
         (PathError "write" "/go/pkg/mod/cache/download/example.com/foo/@v/v1.0.0.zip"
                    "no space left on device"))).
  { eapply (failing_write posix gopath "example.com/foo" "v1.0.0" full_disk
              v1_0_0 go_mod full_disk foo_module (foo_archive "v1.0.0") full_disk).
    - split; [discriminate |]. split; [discriminate |]. vm_compute. reflexivity.
    - exists foo_go_mod, full_disk, full_disk, None. vm_compute. repeat split.
    - exists foo_descriptor. vm_compute. split; reflexivity.
    - vm_compute. reflexivity.
    - vm_compute. reflexivity. }
  split; [exact Hfailing |].
  exact (failure_paths_end_fatal posix gopath "example.com/foo" "v1.0.0" full_disk _ Hfailing).
Defined.

(** The failure paths are all there is: a run that does not return is on
    one of them. *)
Lemma unfinished_run_failing `{Libraries} {W : Type} (sys : handler W)
    (environ : string -> string) (packageName pseudoVersion : string) (w : W) :
  ending (run sys (main environ packageName pseudoVersion) w) <> Returned tt ->
  exists cause, failing sys environ packageName pseudoVersion w cause.
Proof.
  intros Hfail.
  pose proof (getModuleFile_loaded sys (packagePath environ packageName) pseudoVersion w)
    as Hx.
  fold (loading sys environ packageName pseudoVersion w) in Hx.
  destruct (main_ran sys environ packageName pseudoVersion w)
    as [Hp | Hp Hv | e Hp Hv He | sv e Hp Hv Hsv Hend
        | sv mf e Hp Hv Hsv Hend Hy | sv mf Hp Hv Hsv Hend Hy];
    cbn [ending] in Hfail.
  - eexists. now apply failing_package.
  - eexists. now apply failing_version.
  - eexists. eapply failing_semver; eassumption.
  - assert (Hflags : accepted packageName pseudoVersion sv) by now repeat split.
    destruct Hx as [err w1 Hopen | file w1 err w2 closed w3 Hopen Hread Hclose
                    | file w1 data w2 closed w3 Hopen Hread Hclose];
      cbn [ending] in Hend.
    + eexists. eapply failing_open; eassumption.
    + eexists. eapply failing_read; eassumption.
    + assert (Hdata : descriptor_read sys environ packageName w data w3)
        by (exists file, w1, w2, closed; now repeat split).
      injection Hend as Hend. unfold descriptor in Hend.
      destruct (modfile_Parse (packagePath environ packageName) data)
        as [moduleFile | err] eqn:Hparse.
      * destruct (Module moduleFile) eqn:Hmodule; [discriminate |].
        eexists. eapply failing_module; eassumption.
      * eexists. eapply failing_parse; eassumption.
  - assert (Hflags : accepted packageName pseudoVersion sv) by now repeat split.
    unfold archiving in Hy.
    destruct Hx as [err w1 Hopen | file w1 err w2 closed w3 Hopen Hread Hclose
                    | file w1 data w2 closed w3 Hopen Hread Hclose];
      cbn [ending final] in Hend, Hy; try discriminate.
    assert (Hdata : descriptor_read sys environ packageName w data w3)
      by (exists file, w1, w2, closed; now repeat split).
    injection Hend as Hend.
    apply descriptor_Ok in Hend as (moduleFile & module & Hparse & Hmodule & ->).
    assert (Hdecl : declares environ packageName data module) by (now exists moduleFile).
    destruct (createZipArchive_archived sys (packagePath environ packageName)
                (cacheDir environ packageName sv) w3
                (stamped moduleFile module pseudoVersion) _ eq_refl)
      as [err w4 Hbuild | zipContents w4 err w5 Hbuild Hwrite | zipContents w4 w5 Hbuild Hwrite];
      cbn [ending] in Hy; try discriminate.
    + eexists. eapply failing_build; eassumption.
    + eexists. eapply failing_write; eassumption.
  - now elim Hfail.
Qed.

(** On the model of the file system each failure is met: by an empty
    flag, a version that is no version, a missing checkout, a descriptor
    that is a directory, a descriptor that does not parse, an empty
    descriptor, a version of another major than the module's, and a
    full device. *)
Example failure_paths_met :
  failing posix gopath "" "v1.0.0" workspace empty_package_name /\
  failing posix gopath "example.com/foo" "" workspace empty_pseudo_version /\
  (exists err, failing posix gopath "example.com/foo" "one" workspace
                 (version_parse_failure err)) /\
  (exists err, failing posix gopath "example.com/foo" "v1.0.0" no_checkout
                 (descriptor_open_failure err)) /\
  (exists err, failing posix gopath "example.com/foo" "v1.0.0" descriptor_is_directory
                 (descriptor_read_failure err)) /\
  (exists err, failing posix gopath "example.com/foo" "v1.0.0" broken_descriptor
                 (descriptor_parse_failure err)) /\
  failing posix gopath "example.com/foo" "v1.0.0" empty_descriptor
    missing_module_declaration /\
  (exists err, failing posix gopath "example.com/foo" "v2.3.1" workspace
                 (archive_builder_failure err)) /\
  (exists err, failing posix gopath "example.com/foo" "v1.0.0" full_disk
                 (output_write_failure err)).
Proof.
  assert (Hflags : forall v sv,
            blang_Parse (strings_TrimPrefix v "v") = Ok sv -> v <> "" ->
            accepted "example.com/foo" v sv).
  { intros v sv Hsv Hv. split; [discriminate |]. now split. }
  assert (H1 : accepted "example.com/foo" "v1.0.0" v1_0_0)
    by (apply Hflags; [vm_compute; reflexivity | discriminate]).
  assert (H2 : accepted "example.com/foo" "v2.3.1" v2_3_1)
    by (apply Hflags; [vm_compute; reflexivity | discriminate]).
  repeat split.
  - now apply failing_package.
  - apply failing_version; [discriminate | reflexivity].
  - eexists. apply failing_semver; [discriminate .. | vm_compute; reflexivity].
  - eexists. eapply failing_open; [exact H1 | vm_compute; reflexivity].
  - eexists. eapply (failing_read _ _ _ _ _ v1_0_0 foo_go_mod);
      [exact H1 | vm_compute; reflexivity ..].
  - eexists. eapply (failing_parse _ _ _ _ _ v1_0_0 _ broken_descriptor); [exact H1 | |].
    + exists foo_go_mod, broken_descriptor, broken_descriptor, None.
      vm_compute. repeat split.
    + vm_compute. reflexivity.
  - eapply (failing_module _ _ _ _ _ v1_0_0 [] empty_descriptor); [exact H1 | | |].
    + exists foo_go_mod, empty_descriptor, empty_descriptor, None. vm_compute. repeat split.
    + vm_compute. reflexivity.
    + reflexivity.
  - eexists. eapply (failing_build _ _ _ _ _ v2_3_1 go_mod workspace foo_module);
      [exact H2 | | |].
    + exists foo_go_mod, workspace, workspace, None. vm_compute. repeat split.
    + exists foo_descriptor. vm_compute. split; reflexivity.
    + vm_compute. reflexivity.
  - eexists. eapply (failing_write _ _ _ _ _ v1_0_0 go_mod full_disk foo_module
                       (foo_archive "v1.0.0") full_disk); [exact H1 | | | |].
    + exists foo_go_mod, full_disk, full_disk, None. vm_compute. repeat split.
    + exists foo_descriptor. vm_compute. split; reflexivity.
    + vm_compute. reflexivity.
    + vm_compute. reflexivity.
Qed.

(** C4 as stated does not hold on the output-write path.  With ten bytes
    left on the device the archive does not fit: [os.WriteFile] creates
    the file, writes what fits and returns the error, the tool ends
    fatally, and the output path, absent before the run, now names a
    file holding the first ten bytes of the archive. *)
Lemma failed_write_leaves_file :
  ending (run posix (main gopath "example.com/foo" "v1.0.0") full_disk)
    = Fatal ("error creating zip archive: writing zip file: " ++
             "write /go/pkg/mod/cache/download/example.com/foo/@v/v1.0.0.zip: " ++
             "no space left on device") /\
  files full_disk !! "/go/pkg/mod/cache/download/example.com/foo/@v/v1.0.0.zip" = None /\
  files (final (run posix (main gopath "example.com/foo" "v1.0.0") full_disk))
    !! "/go/pkg/mod/cache/download/example.com/foo/@v/v1.0.0.zip"
    = Some {| perm := perm_0o644; content := list_byte_of_string "example.co" |}.
Proof. vm_compute. repeat split. Qed.

(** ** The successful run *)

(** C1 (as the code has it). For a non-empty [--package-name] and a
    [--pseudo-version] that parses after one leading [v] is removed, when
    the descriptor under [<GOPATH>/src/<package-name>] is opened, read
    and parsed and declares a module, and the archive builder succeeds on
    that directory, the run makes exactly these calls: it opens, reads
    and closes [<GOPATH>/src/<package-name>/go.mod], has the archive
    built from [<GOPATH>/src/<package-name>], and calls [os.WriteFile]
    once, with the archive, permission [0o644] ([-rw-r--r--]) and the
    path
    [<GOPATH>/pkg/mod/cache/download/<package-name>/@v[/v<major>]/<pseudo-version>.zip]
    in clean form, where [/v<major>] is present exactly when the parsed
    major version is at least 2; the file name in that path is
    [<pseudo-version>.zip]. *)
Theorem successful_run_writes_one_archive `{SemverGrammar} {W : Type} (sys : handler W)
    (environ : string -> string) (packageName pseudoVersion : string) (w : W)
    (pseudoSemver : semver_Version)
    (file : os_File) (w1 : W) (data : bytes) (w2 : W)
    (moduleFile : modfile_File) (module : modfile_Module)
    (zipContents : bytes) (w4 : W) :
  packageName <> "" ->
  semver_Parse (strings_TrimPrefix pseudoVersion "v") = Ok pseudoSemver ->
  sys (os_Open (filepath_Clean (environ "GOPATH" ++ "/src/" ++ packageName ++ "/go.mod"))) w
    = (Ok file, w1) ->
  sys (io_ReadAll file) w1 = (Ok data, w2) ->
  modfile_Parse (environ "GOPATH" ++ "/src/" ++ packageName) data = Ok moduleFile ->
  Module moduleFile = Some module ->
  sys (modzip_CreateFromDir {| Path := Path (Mod module); Version := pseudoVersion |}
                            (environ "GOPATH" ++ "/src/" ++ packageName))
      (snd (sys (File_Close file) w2)) = (Ok zipContents, w4) ->
  exists zipFilePath wrote,
    zipFilePath =
      filepath_Clean
        (environ "GOPATH" ++ "/pkg/mod/cache/download/" ++ packageName ++ "/@v" ++
         (if (2 <=? Major pseudoSemver)%N then "/v" ++ fmt_d (Major pseudoSemver) else "") ++
         "/" ++ pseudoVersion ++ ".zip") /\
    filepath_Base zipFilePath = pseudoVersion ++ ".zip" /\
    trace (run sys (main environ packageName pseudoVersion) w) =
      [Call (os_Open (filepath_Clean (environ "GOPATH" ++ "/src/" ++ packageName ++ "/go.mod")))
            (Ok file);
       Call (io_ReadAll file) (Ok data);
       Call (File_Close file) (fst (sys (File_Close file) w2));
       Call (modzip_CreateFromDir {| Path := Path (Mod module); Version := pseudoVersion |}
                                  (environ "GOPATH" ++ "/src/" ++ packageName))
            (Ok zipContents);
       Call (os_WriteFile zipFilePath zipContents perm_0o644) wrote] /\
    writes (trace (run sys (main environ packageName pseudoVersion) w)) =
      [(zipFilePath, zipContents, perm_0o644)] /\
    perm_0o644 = 420%N /\
    FileMode_String perm_0o644 = "-rw-r--r--".
Proof.
  intros Hpkg Hsv Hopen Hread Hparse Hmodule Hbuild.
  destruct (accepted_version pseudoVersion pseudoSemver Hsv) as [Hver Hsep].
  change (environ "GOPATH" ++ "/src/" ++ packageName)
    with (packagePath environ packageName) in Hparse, Hbuild |- *.
  set (src := packagePath environ packageName) in *.
  assert (Hgomod : filepath_Clean (environ "GOPATH" ++ "/src/" ++ packageName ++ "/go.mod")
                   = goModPath src).
  { unfold goModPath. rewrite Join_two by (unfold src, packagePath; apply append_nonempty).
    unfold src, packagePath, os_Getenv. now rewrite !append_assoc. }
  rewrite Hgomod in *.
  set (dir := cacheDir environ packageName pseudoSemver).
  set (stampedFile := stamped moduleFile module pseudoVersion).
  set (path := filepath_Join [dir; pseudoVersion ++ ".zip"]).
  assert (Hpath : path = filepath_Clean (dir ++ "/" ++ pseudoVersion ++ ".zip")).
  { apply Join_two, cacheDir_nonempty. }
  exists path, (fst (sys (os_WriteFile path zipContents perm_0o644) w4)).
  assert (Htrace :
    trace (run sys (main environ packageName pseudoVersion) w) =
      [Call (os_Open (goModPath src)) (Ok file);
       Call (io_ReadAll file) (Ok data);
       Call (File_Close file) (fst (sys (File_Close file) w2));
       Call (modzip_CreateFromDir {| Path := Path (Mod module); Version := pseudoVersion |} src)
            (Ok zipContents);
       Call (os_WriteFile path zipContents perm_0o644)
            (fst (sys (os_WriteFile path zipContents perm_0o644) w4))]).
  { rewrite (main_loaded_trace sys environ packageName pseudoVersion w pseudoSemver
               file w1 data w2 moduleFile module Hpkg Hver Hsv Hopen Hread Hparse Hmodule).
    fold src dir stampedFile. cbn [app]. do 3 f_equal.
    destruct (sys (os_WriteFile path zipContents perm_0o644) w4) as [[err |] w5] eqn:Hwrite.
    - now rewrite (createZipArchive_write_error sys src dir _ stampedFile _ eq_refl
                     zipContents w4 err w5 Hbuild Hwrite).
    - now rewrite (createZipArchive_written sys src dir _ stampedFile _ eq_refl
                     zipContents w4 w5 Hbuild Hwrite). }
  split.
  { rewrite Hpath. unfold dir. now rewrite cacheDir_eq, !append_assoc. }
  split.
  { rewrite Hpath. now apply Base_Clean_append, zip_name_real. }
  split; [exact Htrace |]. split; [now rewrite Htrace |]. split; reflexivity.
Qed.

Lemma successful_run_writes_one_archive_witness :
  "example.com/foo" <> "" /\
  semver_Parse (strings_TrimPrefix "v2.3.1" "v") = Ok v2_3_1 /\
  posix (os_Open (filepath_Clean (gopath "GOPATH" ++ "/src/" ++ "example.com/foo" ++ "/go.mod")))
        workspace_v2 = (Ok foo_go_mod, workspace_v2) /\
  posix (io_ReadAll foo_go_mod) workspace_v2 = (Ok go_mod_v2, workspace_v2) /\
  modfile_Parse (gopath "GOPATH" ++ "/src/" ++ "example.com/foo") go_mod_v2
    = Ok foo_v2_descriptor /\
  Module foo_v2_descriptor = Some foo_v2_module /\
  posix (modzip_CreateFromDir {| Path := Path (Mod foo_v2_module); Version := "v2.3.1" |}
                              (gopath "GOPATH" ++ "/src/" ++ "example.com/foo"))
        (snd (posix (File_Close foo_go_mod) workspace_v2))
    = (Ok (foo_v2_archive "v2.3.1"), workspace_v2) /\
  exists zipFilePath wrote,
    zipFilePath =
      filepath_Clean
        (gopath "GOPATH" ++ "/pkg/mod/cache/download/" ++ "example.com/foo" ++ "/@v" ++
         (if (2 <=? Major v2_3_1)%N then "/v" ++ fmt_d (Major v2_3_1) else "") ++
         "/" ++ "v2.3.1" ++ ".zip") /\
    filepath_Base zipFilePath = "v2.3.1" ++ ".zip" /\
    trace (run posix (main gopath "example.com/foo" "v2.3.1") workspace_v2) =
      [Call (os_Open (filepath_Clean
                        (gopath "GOPATH" ++ "/src/" ++ "example.com/foo" ++ "/go.mod")))
            (Ok foo_go_mod);
       Call (io_ReadAll foo_go_mod) (Ok go_mod_v2);
       Call (File_Close foo_go_mod) (fst (posix (File_Close foo_go_mod) workspace_v2));
       Call (modzip_CreateFromDir {| Path := Path (Mod foo_v2_module); Version := "v2.3.1" |}
                                  (gopath "GOPATH" ++ "/src/" ++ "example.com/foo"))
            (Ok (foo_v2_archive "v2.3.1"));
       Call (os_WriteFile zipFilePath (foo_v2_archive "v2.3.1") perm_0o644) wrote] /\
    writes (trace (run posix (main gopath "example.com/foo" "v2.3.1") workspace_v2)) =
      [(zipFilePath, foo_v2_archive "v2.3.1", perm_0o644)] /\
    perm_0o644 = 420%N /\
    FileMode_String perm_0o644 = "-rw-r--r--".
Proof.
  assert (Hpkg : "example.com/foo" <> "") by discriminate.
  assert (Hsv : semver_Parse (strings_TrimPrefix "v2.3.1" "v") = Ok v2_3_1)
    by (vm_compute; reflexivity).
  assert (Hopen : posix (os_Open (filepath_Clean
                    (gopath "GOPATH" ++ "/src/" ++ "example.com/foo" ++ "/go.mod")))
                    workspace_v2 = (Ok foo_go_mod, workspace_v2)) by (vm_compute; reflexivity).
  assert (Hread : posix (io_ReadAll foo_go_mod) workspace_v2 = (Ok go_mod_v2, workspace_v2))
    by (vm_compute; reflexivity).
  assert (Hparse : modfile_Parse (gopath "GOPATH" ++ "/src/" ++ "example.com/foo") go_mod_v2
                   = Ok foo_v2_descriptor) by (vm_compute; reflexivity).
  assert (Hbuild : posix (modzip_CreateFromDir
                            {| Path := Path (Mod foo_v2_module); Version := "v2.3.1" |}
                            (gopath "GOPATH" ++ "/src/" ++ "example.com/foo"))
                         (snd (posix (File_Close foo_go_mod) workspace_v2))
                   = (Ok (foo_v2_archive "v2.3.1"), workspace_v2)) by (vm_compute; reflexivity).
  do 7 (split; [assumption || reflexivity |]).
  exact (successful_run_writes_one_archive posix gopath "example.com/foo" "v2.3.1" workspace_v2
           v2_3_1 foo_go_mod workspace_v2 go_mod_v2 workspace_v2 foo_v2_descriptor foo_v2_module
           (foo_v2_archive "v2.3.1") workspace_v2 Hpkg Hsv Hopen Hread Hparse eq_refl Hbuild).
Defined.

(** C1 as stated does not hold: a non-empty package name and a version
    that parses do not suffice for a file to be written.  With the
    checkout missing the descriptor cannot be opened and the run ends
    without a single write. *)
Lemma missing_checkout_writes_nothing :
  "example.com/foo" <> "" /\
  semver_Parse (strings_TrimPrefix "v1.0.0" "v") = Ok v1_0_0 /\
  ending (run posix (main gopath "example.com/foo" "v1.0.0") no_checkout)
    = Fatal ("error getting module file: " ++
             "error opening /go/src/example.com/foo/go.mod: " ++
             "open /go/src/example.com/foo/go.mod: no such file or directory") /\
  writes (trace (run posix (main gopath "example.com/foo" "v1.0.0") no_checkout)) = [] /\
  files (final (run posix (main gopath "example.com/foo" "v1.0.0") no_checkout)) = ∅.
Proof. split; [discriminate |]. vm_compute. repeat split. Qed.

(** The run of the witness completes: the one file written, and where. *)
Example v2_3_1_written :
  ending (run posix (main gopath "example.com/foo" "v2.3.1") workspace_v2) = Returned tt /\
  writes (trace (run posix (main gopath "example.com/foo" "v2.3.1") workspace_v2)) =
  [("/go/pkg/mod/cache/download/example.com/foo/@v/v2/v2.3.1.zip",
    foo_v2_archive "v2.3.1", 420%N)].
Proof. vm_compute. split; reflexivity. Qed.

(** ** The output directory *)

(** C2 (as the code has it). The output directory is
    [<GOPATH>/pkg/mod/cache/download/<package-name>/@v], and for a parsed
    major version of 2 or more the segment [/v<major>] is appended to it,
    after [@v]: the directory then ends in [<package-name>/@v/v<major>].
    For major version 0 or 1 nothing is appended and it ends in
    [<package-name>/@v]. *)
Theorem cacheDir_major_segment (environ : string -> string) (packageName : string)
    (pseudoSemver : semver_Version) :
  ((2 <= Major pseudoSemver)%N ->
   cacheDir environ packageName pseudoSemver =
     environ "GOPATH" ++ "/pkg/mod/cache/download/" ++ packageName ++ "/@v" ++
     "/v" ++ fmt_d (Major pseudoSemver) /\
   strings_HasSuffix (cacheDir environ packageName pseudoSemver)
     (packageName ++ "/@v" ++ "/v" ++ fmt_d (Major pseudoSemver)) = true) /\
  ((Major pseudoSemver < 2)%N ->
   cacheDir environ packageName pseudoSemver =
     environ "GOPATH" ++ "/pkg/mod/cache/download/" ++ packageName ++ "/@v" /\
   strings_HasSuffix (cacheDir environ packageName pseudoSemver)
     (packageName ++ "/@v") = true).
Proof.
  rewrite cacheDir_eq. split; intros Hmajor.
  - apply N.leb_le in Hmajor. rewrite Hmajor. split; [reflexivity |].
    rewrite <- (append_assoc (environ "GOPATH")). apply HasSuffix_append.
  - apply N.leb_gt in Hmajor. rewrite Hmajor, append_nil_r. split; [reflexivity |].
    rewrite <- (append_assoc (environ "GOPATH")). apply HasSuffix_append.
Qed.

Lemma cacheDir_major_segment_witness :
  ((2 <= Major v2_3_1)%N /\
   cacheDir gopath "example.com/foo" v2_3_1 =
     gopath "GOPATH" ++ "/pkg/mod/cache/download/" ++ "example.com/foo" ++ "/@v" ++
     "/v" ++ fmt_d (Major v2_3_1) /\
   strings_HasSuffix (cacheDir gopath "example.com/foo" v2_3_1)
     ("example.com/foo" ++ "/@v" ++ "/v" ++ fmt_d (Major v2_3_1)) = true) /\
  ((Major v1_0_0 < 2)%N /\
   cacheDir gopath "example.com/foo" v1_0_0 =
     gopath "GOPATH" ++ "/pkg/mod/cache/download/" ++ "example.com/foo" ++ "/@v" /\
   strings_HasSuffix (cacheDir gopath "example.com/foo" v1_0_0)
     ("example.com/foo" ++ "/@v") = true).
Proof.
  assert (H2 : (2 <= Major v2_3_1)%N) by (simpl; lia).
  assert (H1 : (Major v1_0_0 < 2)%N) by (simpl; lia).
  split.
  - split; [exact H2 |].
    exact (proj1 (cacheDir_major_segment gopath "example.com/foo" v2_3_1) H2).
  - split; [exact H1 |].
    exact (proj2 (cacheDir_major_segment gopath "example.com/foo" v1_0_0) H1).
Defined.

(** C2 as stated does not hold: for [example.com/foo] at [v2.3.1] the
    output directory ends in [/foo/@v/v2], not in [/foo/v2/@v]. *)
Lemma v2_segment_follows_at_v :
  semver_Parse (strings_TrimPrefix "v2.3.1" "v") = Ok v2_3_1 /\
  (2 <= Major v2_3_1)%N /\
  cacheDir gopath "example.com/foo" v2_3_1
    = "/go/pkg/mod/cache/download/example.com/foo/@v/v2" /\
  strings_HasSuffix (cacheDir gopath "example.com/foo" v2_3_1) "/foo/v2/@v" = false /\
  strings_HasSuffix (cacheDir gopath "example.com/foo" v2_3_1) "/foo/@v/v2" = true.
Proof.
  split; [vm_compute; reflexivity |]. split; [vm_compute; discriminate |].
  vm_compute. repeat split.
Qed.

(** The two directories of the example. *)
Example cacheDir_examples :
  cacheDir gopath "example.com/foo" v2_3_1
    = "/go/pkg/mod/cache/download/example.com/foo/@v/v2" /\
  semver_Parse (strings_TrimPrefix "v1.0.0" "v") = Ok v1_0_0 /\
  cacheDir gopath "example.com/foo" v1_0_0
    = "/go/pkg/mod/cache/download/example.com/foo/@v".
Proof. vm_compute. repeat split. Qed.

(** ** Two runs *)

(** Two runs with the same flags and the same environment that observe
    the same source tree attempt the same writes, at most one each. *)
Lemma same_observations_same_writes `{Libraries} {W1 W2 : Type}
    (sys1 : handler W1) (sys2 : handler W2)
    (environ : string -> string) (packageName pseudoVersion : string)
    (w1 : W1) (w2 : W2) :
  observations (trace (run sys1 (main environ packageName pseudoVersion) w1)) =
  observations (trace (run sys2 (main environ packageName pseudoVersion) w2)) ->
  writes (trace (run sys1 (main environ packageName pseudoVersion) w1)) =
  writes (trace (run sys2 (main environ packageName pseudoVersion) w2)) /\
  List.length (writes (trace (run sys1 (main environ packageName pseudoVersion) w1))) <= 1.
Proof.
  intros Hobs. rewrite !main_writes_planned, Hobs. split; [reflexivity |].
  unfold plan. repeat case_match; simpl; lia.
Qed.

(** On the model of the file system a write that succeeds leaves the
    file holding the bytes written. *)
Lemma posix_write_lands (fs fs' : FS) (name : string) (data : bytes) (mode : os_FileMode) :
  posix (os_WriteFile name data mode) fs = (None, fs') ->
  content <$> files fs' !! name = Some data.
Proof.
  cbn [posix]. unfold write_file.
  destruct (decide (name ∈ dirs fs)); [discriminate |].
  destruct (decide (filepath_Dir name ∈ dirs fs)); [| discriminate].
  destruct (N_length data <=? _)%N; [| discriminate].
  intros Hw. inversion Hw; subst. cbn [files]. now rewrite lookup_insert_eq.
Qed.

#[export] Instance posix_storage : Storage posix := {|
  stored := fun fs name => content <$> files fs !! name;
  WriteFile_stores := fun name data mode fs fs' => posix_write_lands fs fs' name data mode
|}.

(** A run that completes has written the archive, once, to the output
    path, and leaves it there. *)
Lemma completed_run_stores_archive `{Libraries} {W : Type} (sys : handler W) `{!Storage sys}
    (environ : string -> string) (packageName pseudoVersion : string) (w : W) :
  ending (run sys (main environ packageName pseudoVersion) w) = Returned tt ->
  exists pseudoSemver zipContents,
    semver_Parse (strings_TrimPrefix pseudoVersion "v") = Ok pseudoSemver /\
    writes (trace (run sys (main environ packageName pseudoVersion) w))
      = [(filepath_Join [cacheDir environ packageName pseudoSemver; pseudoVersion ++ ".zip"],
          zipContents, perm_0o644)] /\
    stored (final (run sys (main environ packageName pseudoVersion) w))
           (filepath_Join [cacheDir environ packageName pseudoSemver; pseudoVersion ++ ".zip"])
      = Some zipContents.
Proof.
  pose proof (getModuleFile_writes_nothing sys (packagePath environ packageName)
                pseudoVersion w) as Hwx.
  fold (loading sys environ packageName pseudoVersion w) in Hwx.
  destruct (main_ran sys environ packageName pseudoVersion w)
    as [Hp | Hp Hv | e Hp Hv He | sv e Hp Hv Hsv Hend
        | sv mf e Hp Hv Hsv Hend Hy | sv mf Hp Hv Hsv Hend Hy];
    cbn [ending final trace]; try discriminate.
  intros _.
  destruct (archiving_archived sys environ packageName pseudoVersion w mf sv Hend)
    as (module & _ & Hversion & Harch).
  destruct Harch as [err w1 Hb | zip w1 err w2 Hb Hw | zip w1 w2 Hb Hw];
    cbn [ending final trace] in *; try discriminate.
  unfold zipFilePath in *. rewrite Hversion in *.
  exists sv, zip. split; [assumption |].
  split; [now rewrite writes_app, Hwx |].
  now apply WriteFile_stores in Hw.
Qed.

(** C9 (as the code has it). Two runs with the same flags and the same
    [GOPATH] that both complete and that observed the same source tree
    (the descriptor opened alike, the same bytes were read from it, the
    archive builder returned the same archive for the same directory)
    have each written one file, to the same path, the output path of
    the flags, with the same bytes and the same permission; and where a
    successful [os.WriteFile] leaves the file holding the bytes written,
    the file at that path holds the same bytes after the one run as
    after the other. *)
Theorem completed_runs_same_archive `{Libraries} {W1 W2 : Type}
    (sys1 : handler W1) (sys2 : handler W2) `{!Storage sys1} `{!Storage sys2}
    (environ : string -> string) (packageName pseudoVersion : string)
    (w1 : W1) (w2 : W2) :
  ending (run sys1 (main environ packageName pseudoVersion) w1) = Returned tt ->
  ending (run sys2 (main environ packageName pseudoVersion) w2) = Returned tt ->
  observations (trace (run sys1 (main environ packageName pseudoVersion) w1)) =
  observations (trace (run sys2 (main environ packageName pseudoVersion) w2)) ->
  exists pseudoSemver zipContents,
    semver_Parse (strings_TrimPrefix pseudoVersion "v") = Ok pseudoSemver /\
    writes (trace (run sys1 (main environ packageName pseudoVersion) w1))
      = [(filepath_Join [cacheDir environ packageName pseudoSemver; pseudoVersion ++ ".zip"],
          zipContents, perm_0o644)] /\
    writes (trace (run sys2 (main environ packageName pseudoVersion) w2))
      = [(filepath_Join [cacheDir environ packageName pseudoSemver; pseudoVersion ++ ".zip"],
          zipContents, perm_0o644)] /\
    stored (final (run sys1 (main environ packageName pseudoVersion) w1))
           (filepath_Join [cacheDir environ packageName pseudoSemver; pseudoVersion ++ ".zip"])
      = Some zipContents /\
    stored (final (run sys2 (main environ packageName pseudoVersion) w2))
           (filepath_Join [cacheDir environ packageName pseudoSemver; pseudoVersion ++ ".zip"])
      = Some zipContents.
Proof.
  intros Hend1 Hend2 Hobs.
  destruct (completed_run_stores_archive sys1 environ packageName pseudoVersion w1 Hend1)
    as (sv1 & zip1 & Hsv1 & Hw1 & Hf1).
  destruct (completed_run_stores_archive sys2 environ packageName pseudoVersion w2 Hend2)
    as (sv2 & zip2 & Hsv2 & Hw2 & Hf2).
  rewrite Hsv1 in Hsv2. injection Hsv2 as <-.
  assert (Hsame : zip1 = zip2).
  { pose proof (proj1 (same_observations_same_writes sys1 sys2 environ packageName
                         pseudoVersion w1 w2 Hobs)) as Hwrites.
    rewrite Hw1, Hw2 in Hwrites. now injection Hwrites. }
  subst zip2. exists sv1, zip1. repeat split; assumption.
Qed.

Lemma completed_runs_same_archive_witness :
  ending (run posix (main gopath "example.com/foo" "v1.0.0") workspace) = Returned tt /\
  ending (run posix (main gopath "example.com/foo" "v1.0.0")
            (final (run posix (main gopath "example.com/foo" "v1.0.0") workspace)))
    = Returned tt /\
  observations (trace (run posix (main gopath "example.com/foo" "v1.0.0") workspace)) =
  observations (trace (run posix (main gopath "example.com/foo" "v1.0.0")
                         (final (run posix (main gopath "example.com/foo" "v1.0.0")
                                   workspace)))) /\
  exists pseudoSemver zipContents,
    semver_Parse (strings_TrimPrefix "v1.0.0" "v") = Ok pseudoSemver /\
    writes (trace (run posix (main gopath "example.com/foo" "v1.0.0") workspace))
      = [(filepath_Join [cacheDir gopath "example.com/foo" pseudoSemver; "v1.0.0" ++ ".zip"],
          zipContents, perm_0o644)] /\
    writes (trace (run posix (main gopath "example.com/foo" "v1.0.0")
                     (final (run posix (main gopath "example.com/foo" "v1.0.0") workspace))))
      = [(filepath_Join [cacheDir gopath "example.com/foo" pseudoSemver; "v1.0.0" ++ ".zip"],
          zipContents, perm_0o644)] /\
    stored (final (run posix (main gopath "example.com/foo" "v1.0.0") workspace))
           (filepath_Join [cacheDir gopath "example.com/foo" pseudoSemver; "v1.0.0" ++ ".zip"])
      = Some zipContents /\
    stored (final (run posix (main gopath "example.com/foo" "v1.0.0")
                     (final (run posix (main gopath "example.com/foo" "v1.0.0") workspace))))
           (filepath_Join [cacheDir gopath "example.com/foo" pseudoSemver; "v1.0.0" ++ ".zip"])
      = Some zipContents.
Proof.
  assert (Hend1 : ending (run posix (main gopath "example.com/foo" "v1.0.0") workspace)
                  = Returned tt) by (vm_compute; reflexivity).
  assert (Hend2 : ending (run posix (main gopath "example.com/foo" "v1.0.0")
                            (final (run posix (main gopath "example.com/foo" "v1.0.0")
                                      workspace)))
                  = Returned tt) by (vm_compute; reflexivity).
  assert (Hobs :
    observations (trace (run posix (main gopath "example.com/foo" "v1.0.0") workspace)) =
    observations (trace (run posix (main gopath "example.com/foo" "v1.0.0")
                           (final (run posix (main gopath "example.com/foo" "v1.0.0")
                                     workspace))))) by (vm_compute; reflexivity).
  do 3 (split; [assumption |]).
  exact (completed_runs_same_archive posix posix gopath "example.com/foo" "v1.0.0" workspace
           (final (run posix (main gopath "example.com/foo" "v1.0.0") workspace))
           Hend1 Hend2 Hobs).
Defined.

(** On the model of the file system the calls that look at the source
    tree leave the system as it was, and what they answer depends on the
    source tree only; so two runs on the same source tree observe the
    same. *)
Lemma posix_reads_in_place (e : event) (fs : FS) :
  written (Call e (fst (posix e fs))) = None -> snd (posix e fs) = fs.
Proof.
  destruct e as [name | f | f | m dir | name data mode]; cbn; try discriminate;
    intros _; repeat case_match; reflexivity.
Qed.

Lemma posix_same_tree_same_answers (src : string) (fs1 fs2 : FS) :
  same_source_tree src fs1 fs2 ->
  fst (posix (os_Open (goModPath src)) fs1) = fst (posix (os_Open (goModPath src)) fs2) /\
  (forall f, Name f = goModPath src ->
             fst (posix (io_ReadAll f) fs1) = fst (posix (io_ReadAll f) fs2)) /\
  (forall m, fst (posix (modzip_CreateFromDir m src) fs1)
             = fst (posix (modzip_CreateFromDir m src) fs2)).
Proof.
  intros (Hfile & Hisdir & Hdir & Htree). split; [| split].
  - cbn [posix]. rewrite Hfile.
    destruct (decide (goModPath src ∈ dirs fs1)), (decide (goModPath src ∈ dirs fs2));
      try tauto; try reflexivity.
    now destruct (files fs2 !! goModPath src).
  - intros f Hname. cbn [posix]. rewrite Hname, Hfile.
    destruct (decide (goModPath src ∈ dirs fs1)), (decide (goModPath src ∈ dirs fs2));
      try tauto; try reflexivity.
    now destruct (files fs2 !! goModPath src).
  - intros m. cbn [posix fst]. unfold create_from_dir. rewrite Htree.
    destruct (decide (src ∈ dirs fs1)), (decide (src ∈ dirs fs2)); try tauto; reflexivity.
Qed.

Lemma posix_opened_name (name : string) (fs : FS) (f : os_File) (fs' : FS) :
  posix (os_Open name) fs = (Ok f, fs') -> Name f = name.
Proof.
  cbn [posix]. repeat case_match; intros Heq; inversion Heq; reflexivity.
Qed.

Lemma observations_app (t u : list entry) :
  observations (t ++ u)%list = (observations t ++ observations u)%list.
Proof. unfold observations. apply omap_app. Qed.

Lemma posix_loading_alike (src version : string) (fs1 fs2 : FS) :
  same_source_tree src fs1 fs2 ->
  ending (run posix (getModuleFile src version) fs1)
    = ending (run posix (getModuleFile src version) fs2) /\
  observations (trace (run posix (getModuleFile src version) fs1))
    = observations (trace (run posix (getModuleFile src version) fs2)) /\
  final (run posix (getModuleFile src version) fs1) = fs1 /\
  final (run posix (getModuleFile src version) fs2) = fs2.
Proof.
  intros Hsame.
  destruct (posix_same_tree_same_answers _ _ _ Hsame) as (Hopen & Hread & _).
  assert (Hplace : forall e fs r fs',
            posix e fs = (r, fs') -> written (Call e r) = None -> fs' = fs).
  { intros e fs r fs' Heq Hw. pose proof (posix_reads_in_place e fs) as Hp.
    rewrite Heq in Hp. symmetry. symmetry in Hp. now rewrite Hp. }
  destruct (getModuleFile_loaded posix src version fs1)
    as [err w1 Ho | file w1 err w2 closed w3 Ho Hr Hc | file w1 data w2 closed w3 Ho Hr Hc];
  destruct (getModuleFile_loaded posix src version fs2)
    as [err' w1' Ho' | file' w1' err' w2' closed' w3' Ho' Hr' Hc'
        | file' w1' data' w2' closed' w3' Ho' Hr' Hc'];
    rewrite Ho, Ho' in Hopen; cbn [fst] in Hopen; try discriminate;
    injection Hopen as <-; cbn [ending final trace].
  - apply Hplace in Ho, Ho'; try reflexivity. subst. repeat split.
  - pose proof (posix_opened_name _ _ _ _ Ho) as Hname.
    pose proof (Hplace _ _ _ _ Ho eq_refl). pose proof (Hplace _ _ _ _ Ho' eq_refl).
    subst w1 w1'. specialize (Hread file Hname).
    rewrite Hr, Hr' in Hread. injection Hread as <-.
    apply Hplace in Hr, Hr', Hc, Hc'; try reflexivity. subst. repeat split.
  - pose proof (posix_opened_name _ _ _ _ Ho) as Hname.
    pose proof (Hplace _ _ _ _ Ho eq_refl). pose proof (Hplace _ _ _ _ Ho' eq_refl).
    subst w1 w1'. specialize (Hread file Hname).
    rewrite Hr, Hr' in Hread. discriminate.
  - pose proof (posix_opened_name _ _ _ _ Ho) as Hname.
    pose proof (Hplace _ _ _ _ Ho eq_refl). pose proof (Hplace _ _ _ _ Ho' eq_refl).
    subst w1 w1'. specialize (Hread file Hname).
    rewrite Hr, Hr' in Hread. discriminate.
  - pose proof (posix_opened_name _ _ _ _ Ho) as Hname.
    pose proof (Hplace _ _ _ _ Ho eq_refl). pose proof (Hplace _ _ _ _ Ho' eq_refl).
    subst w1 w1'. specialize (Hread file Hname).
    rewrite Hr, Hr' in Hread. injection Hread as <-.
    apply Hplace in Hr, Hr', Hc, Hc'; try reflexivity. subst. repeat split.
Qed.

Lemma posix_archiving_alike (src outputDirectory : string) (moduleFile : modfile_File)
    (module : modfile_Module) (fs1 fs2 : FS) :
  same_source_tree src fs1 fs2 ->
  Module moduleFile = Some module ->
  observations (trace (run posix (createZipArchive src moduleFile outputDirectory) fs1))
    = observations (trace (run posix (createZipArchive src moduleFile outputDirectory) fs2)).
Proof.
  intros Hsame Hmodule.
  destruct (posix_same_tree_same_answers _ _ _ Hsame) as (_ & _ & Hbuild).
  specialize (Hbuild (Mod module)).
  destruct (createZipArchive_archived posix src outputDirectory fs1 moduleFile module Hmodule)
    as [err w1 Hb | zip w1 err w2 Hb Hw | zip w1 w2 Hb Hw];
  destruct (createZipArchive_archived posix src outputDirectory fs2 moduleFile module Hmodule)
    as [err' w1' Hb' | zip' w1' err' w2' Hb' Hw' | zip' w1' w2' Hb' Hw'];
    rewrite Hb, Hb' in Hbuild; cbn [fst] in Hbuild; try discriminate;
    injection Hbuild as <-; reflexivity.
Qed.

Lemma posix_same_tree_same_observations
    (environ : string -> string) (packageName pseudoVersion : string) (fs1 fs2 : FS) :
  same_source_tree (packagePath environ packageName) fs1 fs2 ->
  observations (trace (run posix (main environ packageName pseudoVersion) fs1)) =
  observations (trace (run posix (main environ packageName pseudoVersion) fs2)).
Proof.
  intros Hsame.
  destruct (posix_loading_alike (packagePath environ packageName) pseudoVersion fs1 fs2 Hsame)
    as (Hending & Hobs & Hf1 & Hf2).
  fold (loading posix environ packageName pseudoVersion fs1) in Hending, Hobs, Hf1.
  fold (loading posix environ packageName pseudoVersion fs2) in Hending, Hobs, Hf2.
  destruct (main_ran posix environ packageName pseudoVersion fs1)
    as [Hp | Hp Hv | e Hp Hv He | sv e Hp Hv Hsv Hend
        | sv mf e Hp Hv Hsv Hend Hy | sv mf Hp Hv Hsv Hend Hy];
  destruct (main_ran posix environ packageName pseudoVersion fs2)
    as [Hp' | Hp' Hv' | e' Hp' Hv' He' | sv' e' Hp' Hv' Hsv' Hend'
        | sv' mf' e' Hp' Hv' Hsv' Hend' Hy' | sv' mf' Hp' Hv' Hsv' Hend' Hy'];
    try contradiction; try congruence; cbn [trace]; try reflexivity; try assumption.
  all: rewrite Hend, Hend' in Hending; injection Hending as <-;
    rewrite Hsv in Hsv'; injection Hsv' as <-;
    destruct (archiving_archived posix environ packageName pseudoVersion fs1 mf sv Hend)
      as (module & Hmodule & _ & _);
    rewrite !observations_app, Hobs; f_equal; unfold archiving; rewrite Hf1, Hf2;
    now apply posix_archiving_alike with module.
Qed.

(** On the model of the file system, then: two runs with the same flags
    and the same [GOPATH] on the same source tree that both complete
    leave the same bytes at the output path. *)
Corollary posix_same_tree_same_archive
    (environ : string -> string) (packageName pseudoVersion : string) (fs1 fs2 : FS) :
  same_source_tree (packagePath environ packageName) fs1 fs2 ->
  ending (run posix (main environ packageName pseudoVersion) fs1) = Returned tt ->
  ending (run posix (main environ packageName pseudoVersion) fs2) = Returned tt ->
  exists pseudoSemver zipContents,
    semver_Parse (strings_TrimPrefix pseudoVersion "v") = Ok pseudoSemver /\
    content <$> files (final (run posix (main environ packageName pseudoVersion) fs1))
                  !! filepath_Join [cacheDir environ packageName pseudoSemver;
                                    pseudoVersion ++ ".zip"]
      = Some zipContents /\
    content <$> files (final (run posix (main environ packageName pseudoVersion) fs2))
                  !! filepath_Join [cacheDir environ packageName pseudoSemver;
                                    pseudoVersion ++ ".zip"]
      = Some zipContents.
Proof.
  intros Hsame Hend1 Hend2.
  destruct (completed_run_stores_archive posix environ packageName pseudoVersion fs1 Hend1)
    as (sv1 & zip1 & Hsv1 & Hw1 & Hf1).
  destruct (completed_run_stores_archive posix environ packageName pseudoVersion fs2 Hend2)
    as (sv2 & zip2 & Hsv2 & Hw2 & Hf2).
  rewrite Hsv1 in Hsv2. injection Hsv2 as <-.
  pose proof (proj1 (same_observations_same_writes posix posix environ packageName
                       pseudoVersion fs1 fs2
                       (posix_same_tree_same_observations _ _ _ _ _ Hsame))) as Hwrites.
  rewrite Hw1, Hw2 in Hwrites. injection Hwrites as <-.
  exists sv1, zip1. repeat split; assumption.
Qed.

(** C9 as stated does not hold: the same flags, the same [GOPATH] and
    the same source tree do not suffice for the same file.  The two file
    systems hold the same files and directories, and the two runs
    observe the same descriptor and are returned the same archive; with
    ten bytes left on the device the second run leaves at the output
    path the first ten bytes of what the first run leaves there. *)
Lemma full_device_leaves_other_bytes :
  files full_disk = files workspace /\
  dirs full_disk = dirs workspace /\
  observations (trace (run posix (main gopath "example.com/foo" "v1.0.0") workspace)) =
  observations (trace (run posix (main gopath "example.com/foo" "v1.0.0") full_disk)) /\
  stored (final (run posix (main gopath "example.com/foo" "v1.0.0") workspace))
         "/go/pkg/mod/cache/download/example.com/foo/@v/v1.0.0.zip"
    = Some (foo_archive "v1.0.0") /\
  stored (final (run posix (main gopath "example.com/foo" "v1.0.0") full_disk))
         "/go/pkg/mod/cache/download/example.com/foo/@v/v1.0.0.zip"
    = Some (firstn 10 (foo_archive "v1.0.0")) /\
  firstn 10 (foo_archive "v1.0.0") <> foo_archive "v1.0.0".
Proof.
  split; [reflexivity |]. split; [reflexivity |].
  split; [vm_compute; reflexivity |].
  split; [vm_compute; reflexivity |].
  split; [vm_compute; reflexivity |].
  vm_compute. discriminate.
Qed.

(** Run again where the first run ended: both runs complete, and the
    second leaves every file, the archive included, as the first did. *)
Example rerun_changes_nothing :
  ending (run posix (main gopath "example.com/foo" "v1.0.0") workspace) = Returned tt /\
  run posix (main gopath "example.com/foo" "v1.0.0")
      (final (run posix (main gopath "example.com/foo" "v1.0.0") workspace)) =
  {| ending := Returned tt;
     final := final (run posix (main gopath "example.com/foo" "v1.0.0") workspace);
     trace := trace (run posix (main gopath "example.com/foo" "v1.0.0") workspace) |}.
Proof. vm_compute. split; reflexivity. Qed.

(** ** The name of the output file *)

(** C10 (as the code has it). The version string as the caller gave it
    is what is stamped into the descriptor and what the archive builder
    is asked for.  What is parsed is the string without one leading
    lowercase [v], if it has one, and of the parsed version only the
    major number enters the run, through the output directory.  Whether
    a file is written is the archive builder's to decide, on the string
    as given: when it returns an archive, the run writes that archive,
    once, to a file named by the string as given with [.zip] appended;
    when it returns an error, the run writes nothing and ends with that
    error behind [error creating zip archive: create zip from dir: ]. *)
Theorem raw_version_names_archive `{SemverGrammar} {W : Type} (sys : handler W)
    (environ : string -> string) (packageName pseudoVersion : string) (w : W)
    (pseudoSemver : semver_Version)
    (file : os_File) (w1 : W) (data : bytes) (w2 : W)
    (moduleFile : modfile_File) (module : modfile_Module) :
  packageName <> "" ->
  semver_Parse (strings_TrimPrefix pseudoVersion "v") = Ok pseudoSemver ->
  sys (os_Open (filepath_Join [environ "GOPATH" ++ "/src/" ++ packageName; "go.mod"])) w
    = (Ok file, w1) ->
  sys (io_ReadAll file) w1 = (Ok data, w2) ->
  modfile_Parse (environ "GOPATH" ++ "/src/" ++ packageName) data = Ok moduleFile ->
  Module moduleFile = Some module ->
  strings_TrimPrefix pseudoVersion "v" =
    match pseudoVersion with
    | String "v" rest => rest
    | _ => pseudoVersion
    end /\
  (exists f,
     ending (run sys (getModuleFile (environ "GOPATH" ++ "/src/" ++ packageName)
                        pseudoVersion) w) = Returned (Ok f) /\
     declared_version f = Some pseudoVersion) /\
  (forall built w4,
     sys (modzip_CreateFromDir {| Path := Path (Mod module); Version := pseudoVersion |}
                               (environ "GOPATH" ++ "/src/" ++ packageName))
         (snd (sys (File_Close file) w2)) = (built, w4) ->
     In (Call (modzip_CreateFromDir {| Path := Path (Mod module); Version := pseudoVersion |}
                                    (environ "GOPATH" ++ "/src/" ++ packageName)) built)
        (trace (run sys (main environ packageName pseudoVersion) w)) /\
     match built with
     | Ok zipContents =>
         exists name,
           writes (trace (run sys (main environ packageName pseudoVersion) w))
             = [(name, zipContents, perm_0o644)] /\
           name = filepath_Join [cacheDir environ packageName pseudoSemver;
                                 pseudoVersion ++ ".zip"] /\
           filepath_Base name = pseudoVersion ++ ".zip"
     | Err err =>
         writes (trace (run sys (main environ packageName pseudoVersion) w)) = [] /\
         ending (run sys (main environ packageName pseudoVersion) w)
           = Fatal ("error creating zip archive: create zip from dir: " ++ Error err)
     end) /\
  (forall other : semver_Version,
     Major other = Major pseudoSemver ->
     cacheDir environ packageName other = cacheDir environ packageName pseudoSemver).
Proof.
  intros Hpkg Hsv Hopen Hread Hparse Hmodule.
  destruct (accepted_version pseudoVersion pseudoSemver Hsv) as [Hver Hsep].
  change (environ "GOPATH" ++ "/src/" ++ packageName)
    with (packagePath environ packageName) in *.
  change (filepath_Join [packagePath environ packageName; "go.mod"])
    with (goModPath (packagePath environ packageName)) in *.
  split; [apply TrimPrefix_v |].
  split.
  { exists (stamped moduleFile module pseudoVersion).
    rewrite (getModuleFile_read sys _ pseudoVersion w file w1 data w2 Hopen Hread).
    unfold descriptor. now rewrite Hparse, Hmodule. }
  split.
  2:{ intros other Hmajor. unfold cacheDir. now rewrite Hmajor. }
  intros built w4 Hbuild.
  destruct (main_loaded sys environ packageName pseudoVersion w pseudoSemver data
              (snd (sys (File_Close file) w2)) module)
    as (stampedFile & before & Hstamped & Hbefore & ->).
  { now repeat split. }
  { exists file, w1, w2, (fst (sys (File_Close file) w2)).
    split; [assumption |]. split; [assumption |]. apply surjective_pairing. }
  { now exists moduleFile. }
  set (dir := cacheDir environ packageName pseudoSemver).
  assert (Hbase : filepath_Base (filepath_Join [dir; pseudoVersion ++ ".zip"])
                  = pseudoVersion ++ ".zip").
  { unfold dir. rewrite Join_two by apply cacheDir_nonempty.
    now apply Base_Clean_append, zip_name_real. }
  set (stampedModule := {| Mod := {| Path := Path (Mod module); Version := pseudoVersion |};
                            Deprecated := Deprecated module |}) in *.
  destruct built as [zipContents | err].
  - destruct (sys (os_WriteFile (zipFilePath dir stampedModule) zipContents perm_0o644) w4)
      as [[err |] w5] eqn:Hwrite.
    + rewrite (createZipArchive_write_error sys _ dir _ stampedFile _ Hstamped
                 zipContents w4 err w5 Hbuild Hwrite).
      cbn [ending final trace]. split.
      * apply in_or_app. right. left. reflexivity.
      * eexists. rewrite writes_app, Hbefore. split; [reflexivity |].
        split; [reflexivity | exact Hbase].
    + rewrite (createZipArchive_written sys _ dir _ stampedFile _ Hstamped
                 zipContents w4 w5 Hbuild Hwrite).
      cbn [ending final trace]. split.
      * apply in_or_app. right. left. reflexivity.
      * eexists. rewrite writes_app, Hbefore. split; [reflexivity |].
        split; [reflexivity | exact Hbase].
  - rewrite (createZipArchive_build_error sys _ dir _ stampedFile _ Hstamped err w4 Hbuild).
    cbn [ending final trace]. split.
    + apply in_or_app. right. left. reflexivity.
    + split; [now rewrite writes_app, Hbefore | reflexivity].
Qed.

Lemma raw_version_names_archive_witness :
  "example.com/foo" <> "" /\
  semver_Parse (strings_TrimPrefix "v1.0.0" "v") = Ok v1_0_0 /\
  posix (os_Open (filepath_Join [gopath "GOPATH" ++ "/src/" ++ "example.com/foo"; "go.mod"]))
        workspace = (Ok foo_go_mod, workspace) /\
  posix (io_ReadAll foo_go_mod) workspace = (Ok go_mod, workspace) /\
  modfile_Parse (gopath "GOPATH" ++ "/src/" ++ "example.com/foo") go_mod = Ok foo_descriptor /\
  Module foo_descriptor = Some foo_module /\
  posix (modzip_CreateFromDir {| Path := Path (Mod foo_module); Version := "v1.0.0" |}
                              (gopath "GOPATH" ++ "/src/" ++ "example.com/foo"))
        (snd (posix (File_Close foo_go_mod) workspace))
    = (Ok (foo_archive "v1.0.0"), workspace) /\
  strings_TrimPrefix "v1.0.0" "v" = "1.0.0" /\
  (exists f,
     ending (run posix (getModuleFile (gopath "GOPATH" ++ "/src/" ++ "example.com/foo")
                          "v1.0.0") workspace) = Returned (Ok f) /\
     declared_version f = Some "v1.0.0") /\
  In (Call (modzip_CreateFromDir {| Path := Path (Mod foo_module); Version := "v1.0.0" |}
                                 (gopath "GOPATH" ++ "/src/" ++ "example.com/foo"))
           (Ok (foo_archive "v1.0.0")))
     (trace (run posix (main gopath "example.com/foo" "v1.0.0") workspace)) /\
  (exists name,
     writes (trace (run posix (main gopath "example.com/foo" "v1.0.0") workspace))
       = [(name, foo_archive "v1.0.0", perm_0o644)] /\
     name = filepath_Join [cacheDir gopath "example.com/foo" v1_0_0; "v1.0.0" ++ ".zip"] /\
     filepath_Base name = "v1.0.0" ++ ".zip").
Proof.
  assert (Hpkg : "example.com/foo" <> "") by discriminate.
  assert (Hsv : semver_Parse (strings_TrimPrefix "v1.0.0" "v") = Ok v1_0_0)
    by (vm_compute; reflexivity).
  assert (Hopen : posix (os_Open (filepath_Join
                    [gopath "GOPATH" ++ "/src/" ++ "example.com/foo"; "go.mod"]))
                    workspace = (Ok foo_go_mod, workspace)) by (vm_compute; reflexivity).
  assert (Hread : posix (io_ReadAll foo_go_mod) workspace = (Ok go_mod, workspace))
    by (vm_compute; reflexivity).
  assert (Hparse : modfile_Parse (gopath "GOPATH" ++ "/src/" ++ "example.com/foo") go_mod
                   = Ok foo_descriptor) by (vm_compute; reflexivity).
  assert (Hbuild : posix (modzip_CreateFromDir
                            {| Path := Path (Mod foo_module); Version := "v1.0.0" |}
                            (gopath "GOPATH" ++ "/src/" ++ "example.com/foo"))
                         (snd (posix (File_Close foo_go_mod) workspace))
                   = (Ok (foo_archive "v1.0.0"), workspace)) by (vm_compute; reflexivity).
  do 7 (split; [assumption || reflexivity |]).
  destruct (raw_version_names_archive posix gopath "example.com/foo" "v1.0.0" workspace
              v1_0_0 foo_go_mod workspace go_mod workspace foo_descriptor foo_module
              Hpkg Hsv Hopen Hread Hparse eq_refl) as (Htrim & Hstamp & Hbuilt & _).
  split; [exact Htrim |]. split; [exact Hstamp |].
  exact (Hbuilt _ _ Hbuild).
Defined.

(** C10 as stated does not hold for a version given without the leading
    [v]: [1.0.0] passes the tool's own parse, is stamped and handed to
    the archive builder as given, and [modzip.CreateFromDir] rejects it
    because it is not canonical.  The run ends fatally, nothing is
    written and no [1.0.0.zip] exists afterwards. *)
Lemma bare_version_writes_nothing :
  semver_Parse (strings_TrimPrefix "1.0.0" "v") = Ok v1_0_0 /\
  (exists f,
     ending (run posix (getModuleFile "/go/src/example.com/foo" "1.0.0") workspace)
       = Returned (Ok f) /\
     declared_version f = Some "1.0.0") /\
  trace (run posix (main gopath "example.com/foo" "1.0.0") workspace)
    = [Call (os_Open "/go/src/example.com/foo/go.mod") (Ok foo_go_mod);
       Call (io_ReadAll foo_go_mod) (Ok go_mod);
       Call (File_Close foo_go_mod) None;
       Call (modzip_CreateFromDir {| Path := "example.com/foo"; Version := "1.0.0" |}
                                  "/go/src/example.com/foo")
            (Err (zipError "create zip" "/go/src/example.com/foo"
                    (errors_New ("version " ++ fmt_q "1.0.0" ++
                                 " is not canonical (should be " ++ fmt_q "" ++ ")"))))] /\
  ending (run posix (main gopath "example.com/foo" "1.0.0") workspace)
    = Fatal ("error creating zip archive: create zip from dir: " ++
             "create zip /go/src/example.com/foo: " ++
             "version " ++ fmt_q "1.0.0" ++ " is not canonical (should be " ++ fmt_q "" ++ ")") /\
  writes (trace (run posix (main gopath "example.com/foo" "1.0.0") workspace)) = [] /\
  final (run posix (main gopath "example.com/foo" "1.0.0") workspace) = workspace /\
  files workspace !! "/go/pkg/mod/cache/download/example.com/foo/@v/1.0.0.zip" = None.
Proof.
  split; [vm_compute; reflexivity |].
  split; [eexists; vm_compute; split; reflexivity |].
  vm_compute. repeat split.
Qed.

(** With the leading [v] the same checkout is archived, and the file is
    named by the string as given, [v] included. *)
Example v1_0_0_written :
  ending (run posix (main gopath "example.com/foo" "v1.0.0") workspace) = Returned tt /\
  writes (trace (run posix (main gopath "example.com/foo" "v1.0.0") workspace))
    = [("/go/pkg/mod/cache/download/example.com/foo/@v/v1.0.0.zip",
        foo_archive "v1.0.0", perm_0o644)] /\
  filepath_Base "/go/pkg/mod/cache/download/example.com/foo/@v/v1.0.0.zip" = "v1.0.0.zip".
Proof. vm_compute. repeat split. Qed.

(** A second [v] or a capital [V] is not removed, and the version is
    rejected by the parser. *)
Example second_v_not_stripped :
  strings_TrimPrefix "vv1.0.0" "v" = "v1.0.0" /\
  run posix (main gopath "example.com/foo" "vv1.0.0") workspace =
  {| ending := Fatal ("error parsing pseudo-version: " ++
                      "Invalid character(s) found in major number " ++ fmt_q "v1");
     final := workspace; trace := [] |}.
Proof. vm_compute. split; reflexivity. Qed.

Example capital_V_not_stripped :
  strings_TrimPrefix "V1.0.0" "v" = "V1.0.0" /\
  run posix (main gopath "example.com/foo" "V1.0.0") workspace =
  {| ending := Fatal ("error parsing pseudo-version: " ++
                      "Invalid character(s) found in major number " ++ fmt_q "V1");
     final := workspace; trace := [] |}.
Proof. vm_compute. split; reflexivity. Qed.

(** The cleaning of paths, on the cases of its documentation. *)
Example Clean_cases :
  filepath_Clean "" = "." /\
  filepath_Clean "a//b/./c/.." = "a/b" /\
  filepath_Clean "/../a/.." = "/" /\
  filepath_Clean "../../a/../../b" = "../../../b" /\
  filepath_Join ["/go/src/example.com/foo/"; "go.mod"] = "/go/src/example.com/foo/go.mod" /\
  filepath_Join [""; "go.mod"] = "go.mod" /\
  filepath_Base "a/b/" = "b" /\
  filepath_Base "/" = "/" /\
  filepath_Base "" = "." /\
  filepath_Dir "/go/pkg/mod/cache/download/example.com/foo/@v/v1.0.0.zip"
    = "/go/pkg/mod/cache/download/example.com/foo/@v".
Proof. vm_compute. repeat split. Qed.

(** * Further properties of the three functions *)

(** ** The descriptor file is closed *)

(** X1. Whatever the system answers, [getModuleFile] closes the file it
    opened, once, as the last thing it does (the deferred [file.Close()]
    of line 94 runs on the read-error path as on the others); when the
    open fails there is nothing to close and nothing is closed.  It opens
    at most one file. *)
Theorem getModuleFile_closes_what_it_opens `{Libraries} {W : Type} (sys : handler W)
    (packagePath version : string) (w : W) :
  closes (trace (run sys (getModuleFile packagePath version) w))
    = opens (trace (run sys (getModuleFile packagePath version) w)) /\
  List.length (opens (trace (run sys (getModuleFile packagePath version) w))) <= 1 /\
  (forall f,
     In f (opens (trace (run sys (getModuleFile packagePath version) w))) ->
     exists before r,
       trace (run sys (getModuleFile packagePath version) w)
         = (before ++ [Call (File_Close f) r])%list /\
       closes before = [] /\
       exists read, In (Call (io_ReadAll f) read) before).
Proof.
  destruct (getModuleFile_loaded sys packagePath version w)
    as [err w1 _ | file w1 err w2 closed w3 _ _ _ | file w1 data w2 closed w3 _ _ _];
    cbn [trace]; (split; [reflexivity |]); (split; [cbn; lia |]); cbn; intros f Hin.
  - contradiction.
  - destruct Hin as [<- | []].
    exists [Call (os_Open (goModPath packagePath)) (Ok file); Call (io_ReadAll file) (Err err)],
      closed.
    split; [reflexivity |]. split; [reflexivity |].
    eexists. right. left. reflexivity.
  - destruct Hin as [<- | []].
    exists [Call (os_Open (goModPath packagePath)) (Ok file); Call (io_ReadAll file) (Ok data)],
      closed.
    split; [reflexivity |]. split; [reflexivity |].
    eexists. right. left. reflexivity.
Qed.

(** ** The order of the calls *)

(** X2. Every run of [main], on any system and for any flags, makes its
    calls in the one order open, read, close, build, write, and stops
    somewhere along it: it never opens a second file, never builds
    before the descriptor is closed, never writes before the archive is
    built, never writes twice.  Since [glog.Fatalf] is only reached after
    [getModuleFile] has returned, a file that was opened has been closed
    on every ending, fatal or not. *)
Theorem main_calls_in_order `{Libraries} {W : Type} (sys : handler W)
    (environ : string -> string) (packageName pseudoVersion : string) (w : W) :
  (exists n,
     map (fun c => kind_of (event_of c))
         (trace (run sys (main environ packageName pseudoVersion) w))
       = firstn n pipeline) /\
  closes (trace (run sys (main environ packageName pseudoVersion) w))
    = opens (trace (run sys (main environ packageName pseudoVersion) w)).
Proof.
  pose proof (getModuleFile_loaded sys (packagePath environ packageName) pseudoVersion w)
    as Hx.
  fold (loading sys environ packageName pseudoVersion w) in Hx.
  destruct (main_ran sys environ packageName pseudoVersion w)
    as [Hp | Hp Hv | e Hp Hv He | sv e Hp Hv Hsv Hend
        | sv mf e Hp Hv Hsv Hend Hy | sv mf Hp Hv Hsv Hend Hy];
    cbn [trace].
  - split; [exists 0 |]; reflexivity.
  - split; [exists 0 |]; reflexivity.
  - split; [exists 0 |]; reflexivity.
  - destruct Hx; cbn [trace]; (split; [| reflexivity]).
    + exists 1. reflexivity.
    + exists 3. reflexivity.
    + exists 3. reflexivity.
  - destruct (archiving_archived sys environ packageName pseudoVersion w mf sv Hend)
      as (module & _ & _ & Harch).
    destruct Hx; cbn [ending trace] in *; try discriminate.
    destruct Harch; cbn [ending trace] in *; (split; [| reflexivity]).
    + exists 4. reflexivity.
    + exists 5. reflexivity.
    + exists 5. reflexivity.
  - destruct (archiving_archived sys environ packageName pseudoVersion w mf sv Hend)
      as (module & _ & _ & Harch).
    destruct Hx; cbn [ending trace] in *; try discriminate.
    destruct Harch; cbn [ending trace] in *; (split; [| reflexivity]).
    + exists 4. reflexivity.
    + exists 5. reflexivity.
    + exists 5. reflexivity.
Qed.

(** ** Errors keep their cause *)

(** X3. Every error [getModuleFile] returns is accounted for.  Either it
    is the one made by [errors.New] for a descriptor that was read and
    parsed and declares no module, which wraps nothing; or it wraps, for
    [errors.Unwrap] and [errors.Is], the very error that the failing
    step returned (the open, the read, or [modfile.Parse] on the bytes
    read), and its message ends in that error's message.  An error of
    [file.Close()] is never what is returned. *)
Theorem getModuleFile_error_has_cause `{Libraries} {W : Type} (sys : handler W)
    (packagePath version : string) (w : W) (e : error) :
  ending (run sys (getModuleFile packagePath version) w) = Returned (Err e) ->
  (e = errors_New "parsed module should not be nil" /\
   Unwrap e = None /\
   exists file data moduleFile,
     In (Call (io_ReadAll file) (Ok data))
        (trace (run sys (getModuleFile packagePath version) w)) /\
     modfile_Parse packagePath data = Ok moduleFile /\
     Module moduleFile = None) \/
  (exists err,
     Unwrap e = Some err /\
     strings_HasSuffix (Error e) (Error err) = true /\
     (In (opening, err) (failures (trace (run sys (getModuleFile packagePath version) w))) \/
      In (reading, err) (failures (trace (run sys (getModuleFile packagePath version) w))) \/
      exists file data,
        In (Call (io_ReadAll file) (Ok data))
           (trace (run sys (getModuleFile packagePath version) w)) /\
        modfile_Parse packagePath data = Err err)).
Proof.
  destruct (getModuleFile_loaded sys packagePath version w)
    as [err w1 _ | file w1 err w2 closed w3 _ _ _ | file w1 data w2 closed w3 _ _ _];
    cbn [ending trace]; intros Hend; injection Hend as Hend.
  - right. exists err. subst e. split; [reflexivity |].
    split; [apply HasSuffix_append |]. left. cbn. left. reflexivity.
  - right. exists err. subst e. split; [reflexivity |].
    split; [apply HasSuffix_append |]. right. left. cbn. left. reflexivity.
  - unfold descriptor in Hend.
    destruct (modfile_Parse packagePath data) as [moduleFile | err] eqn:Hparse.
    + destruct (Module moduleFile) eqn:Hmodule; [discriminate |]. injection Hend as <-.
      left. split; [reflexivity |]. split; [reflexivity |].
      exists file, data, moduleFile. split; [right; left; reflexivity |]. now split.
    + injection Hend as <-. right. exists err. split; [reflexivity |].
      split; [apply HasSuffix_append |]. right. right.
      exists file, data. split; [right; left; reflexivity | exact Hparse].
Qed.

Lemma getModuleFile_error_has_cause_witness :
  ending (run posix (getModuleFile "/go/src/example.com/foo" "v1.0.0") no_checkout)
    = Returned (Err (fmt_Errorf_w "error opening /go/src/example.com/foo/go.mod: "
                       (PathError "open" "/go/src/example.com/foo/go.mod"
                          "no such file or directory"))) /\
  exists err,
    Unwrap (fmt_Errorf_w "error opening /go/src/example.com/foo/go.mod: "
              (PathError "open" "/go/src/example.com/foo/go.mod"
                 "no such file or directory")) = Some err /\
    In (opening, err)
       (failures (trace (run posix (getModuleFile "/go/src/example.com/foo" "v1.0.0")
                           no_checkout))).
Proof.
  assert (Hend : ending (run posix (getModuleFile "/go/src/example.com/foo" "v1.0.0")
                           no_checkout)
                 = Returned (Err (fmt_Errorf_w "error opening /go/src/example.com/foo/go.mod: "
                                    (PathError "open" "/go/src/example.com/foo/go.mod"
                                       "no such file or directory"))))
    by (vm_compute; reflexivity).
  split; [exact Hend |].
  destruct (getModuleFile_error_has_cause posix "/go/src/example.com/foo" "v1.0.0"
              no_checkout _ Hend) as [(Hnil & _) | (err & Hun & _ & _)].
  - discriminate Hnil.
  - exists err. split; [exact Hun |].
    injection Hun as <-. vm_compute. left. reflexivity.
Defined.

(** ** The archive writer *)

(** X4. [createZipArchive] panics exactly when the descriptor it is given
    declares no module (the nil dereference of line 115), and then before
    any call is made; on a descriptor that declares one it always
    returns.  So after a [getModuleFile] that succeeded, which [main]
    guarantees, it cannot panic. *)
Theorem createZipArchive_panics_iff_nil `{Libraries} {W : Type} (sys : handler W)
    (packagePath outputDirectory version : string) (moduleFile : modfile_File) (w w' : W) :
  ((exists msg,
      ending (run sys (createZipArchive packagePath moduleFile outputDirectory) w)
        = Panicked msg) <->
   Module moduleFile = None) /\
  (Module moduleFile = None ->
   trace (run sys (createZipArchive packagePath moduleFile outputDirectory) w) = [] /\
   final (run sys (createZipArchive packagePath moduleFile outputDirectory) w) = w) /\
  (forall loadedFile,
     ending (run sys (getModuleFile packagePath version) w') = Returned (Ok loadedFile) ->
     exists r,
       ending (run sys (createZipArchive packagePath loadedFile outputDirectory) w)
         = Returned r).
Proof.
  assert (Hsome : forall mf module,
            Module mf = Some module ->
            exists r, ending (run sys (createZipArchive packagePath mf outputDirectory) w)
                      = Returned r).
  { intros mf module Hm.
    destruct (createZipArchive_archived sys packagePath outputDirectory w mf module Hm);
      eexists; reflexivity. }
  split; [split |]; [| | split].
  - intros (msg & Hpanic). destruct (Module moduleFile) as [module |] eqn:Hm; [| reflexivity].
    destruct (Hsome moduleFile module Hm) as (r & Hr). rewrite Hr in Hpanic. discriminate.
  - intros Hnil.
    destruct (createZipArchive_nil_module sys packagePath outputDirectory w moduleFile Hnil)
      as (msg & Hrun).
    exists msg. now rewrite Hrun.
  - intros Hnil.
    destruct (createZipArchive_nil_module sys packagePath outputDirectory w moduleFile Hnil)
      as (msg & Hrun).
    now rewrite Hrun.
  - intros loadedFile Hload.
    pose proof (getModuleFile_loaded sys packagePath version w') as Hx.
    destruct (loaded_Ok sys packagePath version w' _ loadedFile Hx Hload) as (mf & m & ->).
    eapply Hsome. reflexivity.
Qed.

(** X5. What [createZipArchive] writes is what the archive builder
    returned, byte for byte: any file it writes holds exactly the bytes
    that [modzip.CreateFromDir] produced, in this same execution, for the
    descriptor's module and the given source directory; it is written
    with permission [0o644] at [filepath.Join(outputDirectory,
    <version>.zip)]; it is written only after the builder succeeded; and
    when the builder fails nothing is written. *)
Theorem createZipArchive_writes_what_was_built {W : Type} (sys : handler W)
    (packagePath outputDirectory : string) (moduleFile : modfile_File)
    (module : modfile_Module) (w : W) :
  Module moduleFile = Some module ->
  (forall name data mode,
     In (name, data, mode)
        (writes (trace (run sys (createZipArchive packagePath moduleFile outputDirectory) w))) ->
     name = filepath_Join [outputDirectory; Version (Mod module) ++ ".zip"] /\
     mode = perm_0o644 /\
     exists r,
       trace (run sys (createZipArchive packagePath moduleFile outputDirectory) w)
         = [Call (modzip_CreateFromDir (Mod module) packagePath) (Ok data);
            Call (os_WriteFile name data mode) r]) /\
  (forall err w1,
     sys (modzip_CreateFromDir (Mod module) packagePath) w = (Err err, w1) ->
     writes (trace (run sys (createZipArchive packagePath moduleFile outputDirectory) w)) = []).
Proof.
  intros Hmodule. split.
  - intros name data mode Hin.
    destruct (createZipArchive_archived sys packagePath outputDirectory w moduleFile module
                Hmodule) as [err w1 Hb | zip w1 err w2 Hb Hw | zip w1 w2 Hb Hw];
      cbn in Hin; try contradiction; destruct Hin as [Hin | []];
      injection Hin as <- <- <-; cbn [trace];
      (split; [reflexivity |]); (split; [reflexivity |]); eexists; reflexivity.
  - intros err w1 Hbuild.
    now rewrite (createZipArchive_build_error sys packagePath outputDirectory w moduleFile
                   module Hmodule err w1 Hbuild).
Qed.

Lemma createZipArchive_writes_what_was_built_witness :
  Module (stamped foo_descriptor foo_module "v1.0.0")
    = Some {| Mod := {| Path := "example.com/foo"; Version := "v1.0.0" |};
              Deprecated := "" |} /\
  In ("/go/pkg/mod/cache/download/example.com/foo/@v/v1.0.0.zip", foo_archive "v1.0.0", perm_0o644)
     (writes (trace (run posix (createZipArchive "/go/src/example.com/foo"
                                  (stamped foo_descriptor foo_module "v1.0.0") "/go/pkg/mod/cache/download/example.com/foo/@v")
                       workspace))) /\
  "/go/pkg/mod/cache/download/example.com/foo/@v/v1.0.0.zip" = filepath_Join ["/go/pkg/mod/cache/download/example.com/foo/@v"; "v1.0.0" ++ ".zip"] /\
  exists r,
    trace (run posix (createZipArchive "/go/src/example.com/foo"
                        (stamped foo_descriptor foo_module "v1.0.0") "/go/pkg/mod/cache/download/example.com/foo/@v") workspace)
      = [Call (modzip_CreateFromDir {| Path := "example.com/foo"; Version := "v1.0.0" |}
                                    "/go/src/example.com/foo") (Ok (foo_archive "v1.0.0"));
         Call (os_WriteFile "/go/pkg/mod/cache/download/example.com/foo/@v/v1.0.0.zip" (foo_archive "v1.0.0") perm_0o644) r].
Proof.
  assert (Hmodule : Module (stamped foo_descriptor foo_module "v1.0.0")
                    = Some {| Mod := {| Path := "example.com/foo"; Version := "v1.0.0" |};
                              Deprecated := "" |}) by reflexivity.
  assert (Hin : In ("/go/pkg/mod/cache/download/example.com/foo/@v/v1.0.0.zip", foo_archive "v1.0.0", perm_0o644)
                   (writes (trace (run posix (createZipArchive "/go/src/example.com/foo"
                                                (stamped foo_descriptor foo_module "v1.0.0")
                                                "/go/pkg/mod/cache/download/example.com/foo/@v") workspace))))
    by (vm_compute; left; reflexivity).
  split; [exact Hmodule |]. split; [exact Hin |].
  destruct (proj1 (createZipArchive_writes_what_was_built posix "/go/src/example.com/foo"
                     "/go/pkg/mod/cache/download/example.com/foo/@v" _ _ workspace Hmodule) _ _ _ Hin) as (Hname & _ & Htrace).
  split; [exact Hname | exact Htrace].
Defined.

Lemma failures_app (t u : list entry) :
  failures (t ++ u)%list = (failures t ++ failures u)%list.
Proof. unfold failures. apply omap_app. Qed.

Lemma opens_app (t u : list entry) : opens (t ++ u)%list = (opens t ++ opens u)%list.
Proof. unfold opens. apply omap_app. Qed.

(** X6. When [createZipArchive] returns an error, that error wraps the
    error of the call that failed, with the call's message at the end of
    its own: the archive builder's, and then nothing was written, or the
    write's.  It returns nil exactly when neither call failed. *)
Theorem createZipArchive_error_has_cause {W : Type} (sys : handler W)
    (packagePath outputDirectory : string) (moduleFile : modfile_File)
    (module : modfile_Module) (w : W) :
  Module moduleFile = Some module ->
  (forall e,
     ending (run sys (createZipArchive packagePath moduleFile outputDirectory) w)
       = Returned (Some e) ->
     exists err,
       Unwrap e = Some err /\
       strings_HasSuffix (Error e) (Error err) = true /\
       ((failures (trace (run sys (createZipArchive packagePath moduleFile outputDirectory) w))
           = [(building, err)] /\
         writes (trace (run sys (createZipArchive packagePath moduleFile outputDirectory) w))
           = []) \/
        failures (trace (run sys (createZipArchive packagePath moduleFile outputDirectory) w))
          = [(writing, err)])) /\
  (ending (run sys (createZipArchive packagePath moduleFile outputDirectory) w)
     = Returned None <->
   failures (trace (run sys (createZipArchive packagePath moduleFile outputDirectory) w)) = []).
Proof.
  intros Hmodule.
  destruct (createZipArchive_archived sys packagePath outputDirectory w moduleFile module
              Hmodule) as [err w1 Hb | zip w1 err w2 Hb Hw | zip w1 w2 Hb Hw];
    cbn [ending trace]; split.
  - intros e He. injection He as <-. exists err. split; [reflexivity |].
    split; [apply HasSuffix_append |]. left. split; reflexivity.
  - split; discriminate.
  - intros e He. injection He as <-. exists err. split; [reflexivity |].
    split; [apply HasSuffix_append |]. right. reflexivity.
  - split; discriminate.
  - discriminate.
  - split; reflexivity.
Qed.

Lemma createZipArchive_error_has_cause_witness :
  Module (stamped foo_descriptor foo_module "v1.0.0")
    = Some {| Mod := {| Path := "example.com/foo"; Version := "v1.0.0" |};
              Deprecated := "" |} /\
  (ending (run posix (createZipArchive "/go/src/example.com/foo"
                        (stamped foo_descriptor foo_module "v1.0.0")
                        "/go/pkg/mod/cache/download/example.com/foo/@v") workspace)
     = Returned None <->
   failures (trace (run posix (createZipArchive "/go/src/example.com/foo"
                                 (stamped foo_descriptor foo_module "v1.0.0")
                                 "/go/pkg/mod/cache/download/example.com/foo/@v") workspace))
     = []).
Proof.
  assert (Hmodule : Module (stamped foo_descriptor foo_module "v1.0.0")
                    = Some {| Mod := {| Path := "example.com/foo"; Version := "v1.0.0" |};
                              Deprecated := "" |}) by reflexivity.
  split; [exact Hmodule |].
  exact (proj2 (createZipArchive_error_has_cause posix "/go/src/example.com/foo"
                  "/go/pkg/mod/cache/download/example.com/foo/@v" _ _ workspace Hmodule)).
Defined.

(** ** The ending of a run *)

(** X7. [main] returns, so that the process exits normally, exactly when
    it has made its write and no write returned an error.  Nothing else
    decides it: in particular an error of [file.Close()] is dropped and
    does not make a run fail. *)
Theorem main_returns_iff_written `{Libraries} {W : Type} (sys : handler W)
    (environ : string -> string) (packageName pseudoVersion : string) (w : W) :
  ending (run sys (main environ packageName pseudoVersion) w) = Returned tt <->
  writes (trace (run sys (main environ packageName pseudoVersion) w)) <> [] /\
  forall err,
    ~ In (writing, err) (failures (trace (run sys (main environ packageName pseudoVersion) w))).
Proof.
  pose proof (getModuleFile_loaded sys (packagePath environ packageName) pseudoVersion w)
    as Hx.
  pose proof (getModuleFile_writes_nothing sys (packagePath environ packageName)
                pseudoVersion w) as Hwx.
  fold (loading sys environ packageName pseudoVersion w) in Hx, Hwx.
  assert (Hfx : forall err,
            ~ In (writing, err)
                 (failures (trace (loading sys environ packageName pseudoVersion w)))).
  { intros err. destruct Hx as [e w1 _ | f w1 e w2 [c |] w3 _ _ _ | f w1 d w2 [c |] w3 _ _ _];
      cbn; intuition discriminate. }
  destruct (main_ran sys environ packageName pseudoVersion w)
    as [Hp | Hp Hv | e Hp Hv He | sv e Hp Hv Hsv Hend
        | sv mf e Hp Hv Hsv Hend Hy | sv mf Hp Hv Hsv Hend Hy];
    cbn [ending trace].
  - split; [discriminate | intros [Hw _]; now elim Hw].
  - split; [discriminate | intros [Hw _]; now elim Hw].
  - split; [discriminate | intros [Hw _]; now elim Hw].
  - split; [discriminate | intros [Hw _]; now elim Hw].
  - split; [discriminate |]. intros [Hw Hf]. exfalso.
    destruct (archiving_archived sys environ packageName pseudoVersion w mf sv Hend)
      as (module & _ & _ & Harch).
    rewrite writes_app, Hwx in Hw.
    destruct Harch as [err w1 Hb | zip w1 err w2 Hb Hw' | zip w1 w2 Hb Hw'];
      cbn [ending trace] in *; try discriminate.
    + now apply Hw.
    + apply (Hf err). rewrite failures_app. apply in_or_app. right. cbn. left. reflexivity.
  - split; [intros _ | reflexivity].
    destruct (archiving_archived sys environ packageName pseudoVersion w mf sv Hend)
      as (module & _ & _ & Harch).
    destruct Harch as [err w1 Hb | zip w1 err w2 Hb Hw' | zip w1 w2 Hb Hw'];
      cbn [ending trace] in *; try discriminate.
    split.
    + rewrite writes_app, Hwx. discriminate.
    + intros err Hin. rewrite failures_app in Hin. apply in_app_or in Hin as [Hin | Hin].
      * now apply (Hfx err).
      * cbn in Hin. contradiction.
Qed.

(** A run whose [file.Close()] fails completes all the same. *)
Example close_error_is_dropped :
  ending (run close_fails (main gopath "example.com/foo" "v1.0.0") workspace) = Returned tt /\
  failures (trace (run close_fails (main gopath "example.com/foo" "v1.0.0") workspace))
    = [(closing, PathError "close" "/go/src/example.com/foo/go.mod" "input/output error")].
Proof. vm_compute. split; reflexivity. Qed.

(** ** The paths a run names *)

(** X8. A run of [main] names no path but the three that line 72 to 78,
    89 and 115 compute from the flags and [GOPATH]: it opens only
    [filepath.Join(<GOPATH>/src/<package-name>, "go.mod")], reads and
    closes only the file that open returned, has the archive built only
    from [<GOPATH>/src/<package-name>] and only for the version given on
    the command line, and writes only, with permission [0o644], to
    [filepath.Join(<output directory>, <pseudo-version>.zip)]. *)
Theorem main_names_only_its_paths `{Libraries} {W : Type} (sys : handler W)
    (environ : string -> string) (packageName pseudoVersion : string) (w : W) :
  Forall (fun c =>
            confined environ packageName pseudoVersion
              (opens (trace (run sys (main environ packageName pseudoVersion) w)))
              (event_of c))
         (trace (run sys (main environ packageName pseudoVersion) w)).
Proof.
  pose proof (getModuleFile_loaded sys (packagePath environ packageName) pseudoVersion w)
    as Hx.
  fold (loading sys environ packageName pseudoVersion w) in Hx.
  destruct (main_ran sys environ packageName pseudoVersion w)
    as [Hp | Hp Hv | e Hp Hv He | sv e Hp Hv Hsv Hend
        | sv mf e Hp Hv Hsv Hend Hy | sv mf Hp Hv Hsv Hend Hy];
    cbn [trace]; try (now constructor).
  - destruct Hx; cbn [trace]; repeat constructor.
  - destruct (archiving_archived sys environ packageName pseudoVersion w mf sv Hend)
      as (module & _ & Hversion & Harch).
    destruct Hx; cbn [ending trace] in *; try discriminate.
    destruct Harch; cbn [ending trace app] in *; try discriminate;
      repeat constructor; cbn; try assumption; try reflexivity.
    exists sv. split; [assumption |]. unfold zipFilePath. now rewrite Hversion.
  - destruct (archiving_archived sys environ packageName pseudoVersion w mf sv Hend)
      as (module & _ & Hversion & Harch).
    destruct Hx; cbn [ending trace] in *; try discriminate.
    destruct Harch; cbn [ending trace app] in *; try discriminate;
      repeat constructor; cbn; try assumption; try reflexivity.
    exists sv. split; [assumption |]. unfold zipFilePath. now rewrite Hversion.
Qed.

Lemma main_first_call `{Libraries} {W : Type} (sys : handler W)
    (environ : string -> string) (packageName pseudoVersion : string) (w : W)
    (pseudoSemver : semver_Version) :
  packageName <> "" -> pseudoVersion <> "" ->
  semver_Parse (strings_TrimPrefix pseudoVersion "v") = Ok pseudoSemver ->
  exists r rest,
    trace (run sys (main environ packageName pseudoVersion) w)
      = Call (os_Open (goModPath (packagePath environ packageName))) r :: rest.
Proof.
  intros Hpkg Hver Hsv.
  pose proof (getModuleFile_loaded sys (packagePath environ packageName) pseudoVersion w)
    as Hx.
  fold (loading sys environ packageName pseudoVersion w) in Hx.
  destruct (main_ran sys environ packageName pseudoVersion w)
    as [Hp | Hp Hv | e Hp Hv He | sv e Hp Hv Hsv' Hend
        | sv mf e Hp Hv Hsv' Hend Hy | sv mf Hp Hv Hsv' Hend Hy];
    try contradiction; try congruence; cbn [trace];
    destruct Hx; cbn [trace app]; do 2 eexists; reflexivity.
Qed.

Lemma main_written_name `{Libraries} {W : Type} (sys : handler W)
    (environ : string -> string) (packageName pseudoVersion : string) (w : W)
    (name : string) (data : bytes) (mode : os_FileMode) :
  In (name, data, mode) (writes (trace (run sys (main environ packageName pseudoVersion) w))) ->
  exists pseudoSemver,
    semver_Parse (strings_TrimPrefix pseudoVersion "v") = Ok pseudoSemver /\
    name = filepath_Join [cacheDir environ packageName pseudoSemver; pseudoVersion ++ ".zip"].
Proof.
  pose proof (getModuleFile_writes_nothing sys (packagePath environ packageName)
                pseudoVersion w) as Hwx.
  fold (loading sys environ packageName pseudoVersion w) in Hwx.
  destruct (main_ran sys environ packageName pseudoVersion w)
    as [Hp | Hp Hv | e Hp Hv He | sv e Hp Hv Hsv Hend
        | sv mf e Hp Hv Hsv Hend Hy | sv mf Hp Hv Hsv Hend Hy];
    cbn [trace]; rewrite ?writes_app, ?Hwx; try contradiction;
    destruct (archiving_archived sys environ packageName pseudoVersion w mf sv Hend)
      as (module & _ & Hversion & Harch);
    destruct Harch; cbn [ending trace] in *; cbn; try contradiction;
    intros [Hin | []]; injection Hin as <- _ _;
    exists sv; (split; [assumption |]); unfold zipFilePath; now rewrite Hversion.
Qed.

Lemma Clean_rooted (path : string) :
  strings_HasPrefix path "/" = true -> strings_HasPrefix (filepath_Clean path) "/" = true.
Proof.
  intros Hrooted. unfold filepath_Clean.
  destruct (String.eqb_spec path "") as [-> | _]; [discriminate |].
  rewrite Hrooted.
  assert (Hslash : forall x, strings_HasPrefix ("/" ++ x) "/" = true) by (now intros []).
  destruct (fst _); apply Hslash.
Qed.

(** ** An unset [GOPATH] *)

(** X9. [main] does not check [GOPATH].  When the variable is unset or
    empty the run does not fail on that account and does not fall back
    to a default workspace: it goes on with paths at the root of the
    file system, opening [/src/<package-name>/go.mod] and writing, if it
    gets that far, under [/pkg/mod/cache/download]. *)
Theorem unset_GOPATH_means_root `{Libraries} {W : Type} (sys : handler W)
    (environ : string -> string) (packageName pseudoVersion : string) (w : W)
    (pseudoSemver : semver_Version) :
  environ "GOPATH" = "" ->
  packageName <> "" -> pseudoVersion <> "" ->
  semver_Parse (strings_TrimPrefix pseudoVersion "v") = Ok pseudoSemver ->
  (exists r rest,
     trace (run sys (main environ packageName pseudoVersion) w)
       = Call (os_Open (filepath_Clean ("/src/" ++ packageName ++ "/go.mod"))) r :: rest) /\
  strings_HasPrefix (filepath_Clean ("/src/" ++ packageName ++ "/go.mod")) "/" = true /\
  (forall name data mode,
     In (name, data, mode)
        (writes (trace (run sys (main environ packageName pseudoVersion) w))) ->
     name = filepath_Clean
              ("/pkg/mod/cache/download/" ++ packageName ++ "/@v" ++
               (if (2 <=? Major pseudoSemver)%N
                then "/v" ++ fmt_d (Major pseudoSemver) else "") ++
               "/" ++ pseudoVersion ++ ".zip") /\
     strings_HasPrefix name "/" = true).
Proof.
  intros Hunset Hpkg Hver Hsv.
  assert (Hsrc : goModPath (packagePath environ packageName)
                 = filepath_Clean ("/src/" ++ packageName ++ "/go.mod")).
  { unfold goModPath. rewrite Join_two by (unfold packagePath; apply append_nonempty).
    unfold packagePath, os_Getenv. now rewrite Hunset, append_nil_l, !append_assoc. }
  split; [| split].
  - rewrite <- Hsrc. now apply (main_first_call sys environ _ _ w pseudoSemver).
  - now apply Clean_rooted.
  - intros name data mode Hin.
    apply main_written_name in Hin as (sv & Hsv' & ->).
    rewrite Hsv in Hsv'. injection Hsv' as <-.
    rewrite Join_two by apply cacheDir_nonempty.
    rewrite cacheDir_eq, Hunset, append_nil_l, !append_assoc.
    split; [reflexivity |]. now apply Clean_rooted.
Qed.

Lemma unset_GOPATH_means_root_witness :
  no_environment "GOPATH" = "" /\
  "example.com/foo" <> "" /\ "v1.0.0" <> "" /\
  semver_Parse (strings_TrimPrefix "v1.0.0" "v") = Ok v1_0_0 /\
  (exists r rest,
     trace (run posix (main no_environment "example.com/foo" "v1.0.0") workspace)
       = Call (os_Open (filepath_Clean ("/src/" ++ "example.com/foo" ++ "/go.mod"))) r :: rest) /\
  strings_HasPrefix (filepath_Clean ("/src/" ++ "example.com/foo" ++ "/go.mod")) "/" = true /\
  (forall name data mode,
     In (name, data, mode)
        (writes (trace (run posix (main no_environment "example.com/foo" "v1.0.0")
                          workspace))) ->
     name = filepath_Clean
              ("/pkg/mod/cache/download/" ++ "example.com/foo" ++ "/@v" ++
               (if (2 <=? Major v1_0_0)%N then "/v" ++ fmt_d (Major v1_0_0) else "") ++
               "/" ++ "v1.0.0" ++ ".zip") /\
     strings_HasPrefix name "/" = true).
Proof.
  assert (Hpkg : "example.com/foo" <> "") by discriminate.
  assert (Hver : "v1.0.0" <> "") by discriminate.
  assert (Hsv : semver_Parse (strings_TrimPrefix "v1.0.0" "v") = Ok v1_0_0)
    by (vm_compute; reflexivity).
  do 4 (split; [assumption || reflexivity |]).
  exact (unset_GOPATH_means_root posix no_environment "example.com/foo" "v1.0.0" workspace
           v1_0_0 eq_refl Hpkg Hver Hsv).
Defined.

(** With [GOPATH] unset the run on the checkout under [/go] fails at the
    open of [/src/example.com/foo/go.mod]. *)
Example unset_GOPATH_run :
  ending (run posix (main no_environment "example.com/foo" "v1.0.0") workspace)
    = Fatal ("error getting module file: error opening /src/example.com/foo/go.mod: " ++
             "open /src/example.com/foo/go.mod: no such file or directory").
Proof. vm_compute. reflexivity. Qed.

(** ** Output directories of different major versions *)

Lemma fmt_d_inj (a b : N) : fmt_d a = fmt_d b -> a = b.
Proof.
  assert (Hnil : forall n, N.to_uint n <> Decimal.Nil).
  { intros [| p]; [discriminate | apply DecimalPos.Unsigned.to_uint_nonnil]. }
  unfold fmt_d. intros Heq.
  apply (f_equal NilZero.uint_of_string) in Heq.
  rewrite !NilZero.usu in Heq by apply Hnil.
  injection Heq as Heq. now apply DecimalN.Unsigned.to_uint_inj.
Qed.

(** X10. For one package, two versions get the same output directory
    exactly when they have the same major number or both have major 0 or
    1: versions 0.x and 1.x share [.../@v], and every major version from
    2 on has a directory of its own, so archives of different major
    versions from 2 on never land in one directory. *)
Theorem cacheDir_separates_majors (environ : string -> string) (packageName : string)
    (a b : semver_Version) :
  cacheDir environ packageName a = cacheDir environ packageName b <->
  Major a = Major b \/ ((Major a < 2)%N /\ (Major b < 2)%N).
Proof.
  rewrite !cacheDir_eq. split.
  - intros Heq. do 4 apply (inj (String.append _)) in Heq.
    destruct (N.leb_spec 2 (Major a)) as [Ha | Ha], (N.leb_spec 2 (Major b)) as [Hb | Hb].
    + left. apply (inj (String.append _)) in Heq. now apply fmt_d_inj.
    + rewrite !append_cons in Heq. discriminate.
    + rewrite !append_cons in Heq. discriminate.
    + right. now split.
  - intros [Heq | [Ha Hb]].
    + now rewrite Heq.
    + apply N.leb_gt in Ha, Hb. now rewrite Ha, Hb.
Qed.

(** ** The name of the descriptor *)

(** X11. Whatever directory [getModuleFile] is given, the first thing it
    does is open a file whose name is [go.mod]: the path it opens is the
    clean form of [<packagePath>/go.mod], and cleaning can shorten the
    directory part but never touches the last element.  For the empty
    directory the path is [go.mod] itself, relative to the working
    directory. *)
Theorem getModuleFile_opens_go_mod `{Libraries} {W : Type} (sys : handler W)
    (packagePath version : string) (w : W) :
  exists name r rest,
    trace (run sys (getModuleFile packagePath version) w) = Call (os_Open name) r :: rest /\
    filepath_Base name = "go.mod" /\
    name = (if String.eqb packagePath "" then "go.mod"
            else filepath_Clean (packagePath ++ "/go.mod")).
Proof.
  assert (Hreal : real_element "go.mod").
  { split; [reflexivity |]. repeat split; discriminate. }
  assert (Hname : goModPath packagePath
                  = (if String.eqb packagePath "" then "go.mod"
                     else filepath_Clean (packagePath ++ "/go.mod"))).
  { unfold goModPath. destruct (String.eqb_spec packagePath "") as [-> | Hne].
    - reflexivity.
    - now apply Join_two. }
  exists (goModPath packagePath).
  destruct (getModuleFile_loaded sys packagePath version w); cbn [trace];
    do 2 eexists; (split; [reflexivity |]); (split; [| exact Hname]);
    rewrite Hname; destruct (String.eqb packagePath "");
    (reflexivity || now apply Base_Clean_append).
Qed.
